(** * The built-in object subsystem of the ECMAScript engine

    A shallow embedding of [ecma-builtins.c] and
    [ecma-builtin-global-object.c]: the registry of built-in objects, the
    lazy instantiation of the Global object's properties, the encoding of
    built-in routines into function objects, the dispatch of routine calls,
    and the binary search over magic string identifiers.

    C integers are [Z] with the wrap-around of their width written out,
    enumerators are the integers they denote, pointers are indices into a
    heap of objects, and every routine that touches the heap or the registry
    threads the engine state explicitly.  Fatal exits of the engine
    (assertions, unreachable and unimplemented branches) are outcomes of
    their own. *)

From Stdlib Require Import ZArith Lia Bool.
From stdpp Require Import base option list strings.

Local Open Scope Z_scope.

(** ** Outcomes of engine routines *)

(** The ways a routine leaves without a result.  [ASSERTION] is a failed
    [JERRY_ASSERT] (debug builds only), [UNREACHABLE] and [UNIMPLEMENTED] are
    [JERRY_UNREACHABLE] and [JERRY_UNIMPLEMENTED]; [OUT_OF_BOUNDS] is a read
    outside an array or through a pointer that designates nothing, and
    [FUEL] the exhaustion of the recursion budget of the model. *)
Inductive abort_t : Type :=
| ASSERTION
| UNREACHABLE
| UNIMPLEMENTED
| OUT_OF_BOUNDS
| FUEL.

Inductive outcome (A : Type) : Type :=
| Ok (a : A)
| Abort (why : abort_t).

Arguments Ok {A} a.
Arguments Abort {A} why.

Definition outcome_bind {A B : Type} (c : outcome A) (k : A -> outcome B) : outcome B :=
  match c with
  | Ok a => k a
  | Abort why => Abort why
  end.

(** ** Machine integers and C control flow *)

Definition to_int32 (z : Z) : Z := (z + 2 ^ 31) mod 2 ^ 32 - 2 ^ 31.
Definition to_uint32 (z : Z) : Z := z mod 2 ^ 32.
Definition to_uint64 (z : Z) : Z := z mod 2 ^ 64.

(** [a[i]] for a C index [i]. *)
Definition array_get {A : Type} (a : list A) (i : Z) : option A :=
  if i <? 0 then None else a !! Z.to_nat i.

(** A [switch] statement: the case labels in the order of the source, each
    with its body, and the [default] body. *)
Fixpoint switch {K : Type} `{EqDecision K} {A : Type}
    (scrutinee : K) (cases : list (K * A)) (default : A) : A :=
  match cases with
  | [] => default
  | (label, body) :: rest =>
      if decide (scrutinee = label) then body else switch scrutinee rest default
  end.

(** ** Build configuration *)

(** [JERRY_NDEBUG] is [true] in builds that compile assertions out;
    [CONFIG_ECMA_COMPACT_PROFILE] is [true] in the compact profile. *)
Class build_t : Type := {
  JERRY_NDEBUG : bool;
  CONFIG_ECMA_COMPACT_PROFILE : bool
}.

Definition JERRY_ASSERT `{build_t} (cond : bool) : outcome unit :=
  if JERRY_NDEBUG then Ok tt
  else if cond then Ok tt else Abort ASSERTION.

(** ** Binary search for a magic string identifier *)

(** The debug loop over [id_index = 1 .. array_length - 1] checking
    [ids [id_index - 1] < ids [id_index]]. *)
Fixpoint ids_are_sorted (ids : list Z) : bool :=
  match ids with
  | [] => true
  | x :: rest =>
      match rest with
      | [] => true
      | y :: _ => (x <? y) && ids_are_sorted rest
      end
  end.

(** The [while (min <= max)] loop; [fuel] bounds the number of iterations. *)
Fixpoint bin_search_loop `{build_t} (fuel : nat) (ids : list Z) (key : Z) (min max : Z)
    : outcome Z :=
  if min <=? max then
    match fuel with
    | O => Abort FUEL
    | S fuel' =>
        let mid := to_int32 (min + max) ÷ 2 in
        match array_get ids mid with
        | None => Abort OUT_OF_BOUNDS
        | Some id_mid =>
            if id_mid =? key then Ok mid
            else if id_mid >? key then
              bin_search_loop fuel' ids key min (to_int32 (mid - 1))
            else
              outcome_bind (JERRY_ASSERT (id_mid <? key)) (fun _ =>
              bin_search_loop fuel' ids key (to_int32 (mid + 1)) max)
        end
    end
  else Ok (-1).

Definition ecma_builtin_bin_search_for_magic_string_id_in_array `{build_t}
    (ids : list Z) (key : Z) : outcome Z :=
  outcome_bind (JERRY_ASSERT (ids_are_sorted ids)) (fun _ =>
  let min := 0 in
  let max := to_int32 (Z.of_nat (length ids) - 1) in
  bin_search_loop (length ids) ids key min max).

(** ** Identifiers declared by the engine's headers *)

(** An [ecma_magic_string_id_t] is the integer of its enumerator.  The
    enumeration itself is declared in [ecma-globals.h]; the enumerators the
    two files name are the fields below, [ECMA_MAGIC_STRING__COUNT] being
    the number of magic strings. *)
Class magic_strings_t : Type := {
  ECMA_MAGIC_STRING_EVAL : Z;
  ECMA_MAGIC_STRING_UNDEFINED : Z;
  ECMA_MAGIC_STRING_NAN : Z;
  ECMA_MAGIC_STRING_INFINITY_UL : Z;
  ECMA_MAGIC_STRING_OBJECT_UL : Z;
  ECMA_MAGIC_STRING_FUNCTION_UL : Z;
  ECMA_MAGIC_STRING_ARRAY_UL : Z;
  ECMA_MAGIC_STRING_STRING_UL : Z;
  ECMA_MAGIC_STRING_BOOLEAN_UL : Z;
  ECMA_MAGIC_STRING_NUMBER_UL : Z;
  ECMA_MAGIC_STRING_DATE_UL : Z;
  ECMA_MAGIC_STRING_REG_EXP_UL : Z;
  ECMA_MAGIC_STRING_ERROR_UL : Z;
  ECMA_MAGIC_STRING_EVAL_ERROR_UL : Z;
  ECMA_MAGIC_STRING_RANGE_ERROR_UL : Z;
  ECMA_MAGIC_STRING_REFERENCE_ERROR_UL : Z;
  ECMA_MAGIC_STRING_SYNTAX_ERROR_UL : Z;
  ECMA_MAGIC_STRING_TYPE_ERROR_UL : Z;
  ECMA_MAGIC_STRING_URI_ERROR_UL : Z;
  ECMA_MAGIC_STRING_MATH_UL : Z;
  ECMA_MAGIC_STRING_JSON_U : Z;
  ECMA_MAGIC_STRING_PARSE_INT : Z;
  ECMA_MAGIC_STRING_PARSE_FLOAT : Z;
  ECMA_MAGIC_STRING_IS_NAN : Z;
  ECMA_MAGIC_STRING_IS_FINITE : Z;
  ECMA_MAGIC_STRING_DECODE_URI : Z;
  ECMA_MAGIC_STRING_DECODE_URI_COMPONENT : Z;
  ECMA_MAGIC_STRING_ENCODE_URI : Z;
  ECMA_MAGIC_STRING_ENCODE_URI_COMPONENT : Z;
  ECMA_MAGIC_STRING_COMPACT_PROFILE_ERROR_UL : Z;
  ECMA_MAGIC_STRING_LENGTH : Z;
  ECMA_MAGIC_STRING__EMPTY : Z;
  ECMA_MAGIC_STRING__COUNT : Z
}.

(** The kinds of objects ([ecma_object_type_t]); the last constructor stands
    for the kinds these files never name. *)
Inductive ecma_object_type_t : Type :=
| ECMA_OBJECT_TYPE_GENERAL
| ECMA_OBJECT_TYPE_FUNCTION
| ECMA_OBJECT_TYPE_BUILT_IN_FUNCTION
| ECMA_OBJECT_TYPE_OTHER (kind : nat).

#[export] Instance ecma_object_type_eq_dec : EqDecision ecma_object_type_t.
Proof. solve_decision. Defined.

(** One entry of [ECMA_BUILTIN_LIST]: the five arguments of the list's macro. *)
Record builtin_descriptor_t : Type := {
  entry_builtin_id : nat;
  entry_object_type : ecma_object_type_t;
  entry_object_class : Z;
  entry_object_prototype_builtin_id : nat;
  entry_lowercase_name : string
}.

(** An [ecma_builtin_id_t] is the number of its enumerator.  The enumeration
    and [ECMA_BUILTIN_LIST] are declared in [ecma-builtins.h] and
    [ecma-builtins-internal.h], as are the position and the width of the two
    fields of a routine identifier. *)
Class builtins_t : Type := {
  ECMA_BUILTIN_ID_GLOBAL : nat;
  ECMA_BUILTIN_ID_OBJECT : nat;
  ECMA_BUILTIN_ID_MATH : nat;
  ECMA_BUILTIN_ID_STRING : nat;
  ECMA_BUILTIN_ID_BOOLEAN : nat;
  ECMA_BUILTIN_ID_NUMBER : nat;
  ECMA_BUILTIN_ID_ARRAY : nat;
  ECMA_BUILTIN_ID_FUNCTION : nat;
  ECMA_BUILTIN_ID_FUNCTION_PROTOTYPE : nat;
  ECMA_BUILTIN_ID_STRING_PROTOTYPE : nat;
  ECMA_BUILTIN_ID_NUMBER_PROTOTYPE : nat;
  ECMA_BUILTIN_ID_BOOLEAN_PROTOTYPE : nat;
  ECMA_BUILTIN_ID_COMPACT_PROFILE_ERROR : nat;
  ECMA_BUILTIN_ID__COUNT : nat;
  ECMA_BUILTIN_LIST : list builtin_descriptor_t;
  ECMA_BUILTIN_ROUTINE_ID_BUILT_IN_OBJECT_ID_POS : Z;
  ECMA_BUILTIN_ROUTINE_ID_BUILT_IN_OBJECT_ID_WIDTH : Z;
  ECMA_BUILTIN_ROUTINE_ID_BUILT_IN_ROUTINE_ID_POS : Z;
  ECMA_BUILTIN_ROUTINE_ID_BUILT_IN_ROUTINE_ID_WIDTH : Z
}.

(** ** Values, properties and objects *)

(** Modelled from the spec: the engine's strings, of which the subsystem
    only asks whether one is a magic string and which (interned-string
    lookup and comparison, the identifiers being an opaque ordered space).
    A string whose text is that of a magic string is [ECMA_STRING_MAGIC]. *)
Inductive ecma_string_t : Type :=
| ECMA_STRING_MAGIC (id : Z)
| ECMA_STRING_CHARS (chars : string).

#[export] Instance ecma_string_eq_dec : EqDecision ecma_string_t.
Proof. solve_decision. Defined.

Definition ecma_get_magic_string (id : Z) : ecma_string_t := ECMA_STRING_MAGIC id.

Definition ecma_is_string_magic (string_p : ecma_string_t) : option Z :=
  match string_p with
  | ECMA_STRING_MAGIC id => Some id
  | ECMA_STRING_CHARS _ => None
  end.

(** Numbers, as far as this code makes them: NaN, the infinities, and the
    integers it writes as literals. *)
Inductive ecma_number_t : Type :=
| ECMA_NUMBER_NAN
| ECMA_NUMBER_INFINITY (sign : bool)
| ECMA_NUMBER_FINITE (z : Z).

Definition ECMA_NUMBER_ZERO : ecma_number_t := ECMA_NUMBER_FINITE 0.
Definition ecma_number_make_nan : ecma_number_t := ECMA_NUMBER_NAN.
Definition ecma_number_make_infinity (sign : bool) : ecma_number_t := ECMA_NUMBER_INFINITY sign.

Definition ecma_number_is_nan (num : ecma_number_t) : bool :=
  match num with ECMA_NUMBER_NAN => true | _ => false end.

Definition ecma_number_is_infinity (num : ecma_number_t) : bool :=
  match num with ECMA_NUMBER_INFINITY _ => true | _ => false end.

Inductive ecma_simple_value_t : Type :=
| ECMA_SIMPLE_VALUE_EMPTY
| ECMA_SIMPLE_VALUE_UNDEFINED
| ECMA_SIMPLE_VALUE_NULL
| ECMA_SIMPLE_VALUE_FALSE
| ECMA_SIMPLE_VALUE_TRUE.

(** An object pointer is the index of the object in the heap; a pointer
    that may be [NULL] is an [option]. *)
Abbreviation ecma_object_ptr := nat (only parsing).

Inductive ecma_value_t : Type :=
| ECMA_TYPE_SIMPLE (v : ecma_simple_value_t)
| ECMA_TYPE_NUMBER (num : ecma_number_t)
| ECMA_TYPE_STRING (str : ecma_string_t)
| ECMA_TYPE_OBJECT (obj_p : ecma_object_ptr).

Definition ecma_make_simple_value (v : ecma_simple_value_t) : ecma_value_t := ECMA_TYPE_SIMPLE v.
Definition ecma_make_number_value (num : ecma_number_t) : ecma_value_t := ECMA_TYPE_NUMBER num.
Definition ecma_make_object_value (obj_p : ecma_object_ptr) : ecma_value_t := ECMA_TYPE_OBJECT obj_p.

Inductive ecma_completion_type_t : Type :=
| ECMA_COMPLETION_TYPE_NORMAL
| ECMA_COMPLETION_TYPE_RETURN
| ECMA_COMPLETION_TYPE_THROW.

Record ecma_completion_value_t : Type := {
  completion_type : ecma_completion_type_t;
  completion_value : ecma_value_t
}.

Definition ecma_make_simple_completion_value (v : ecma_simple_value_t) : ecma_completion_value_t :=
  {| completion_type := ECMA_COMPLETION_TYPE_NORMAL;
     completion_value := ecma_make_simple_value v |}.

Definition ecma_is_completion_value_throw (c : ecma_completion_value_t) : bool :=
  match completion_type c with ECMA_COMPLETION_TYPE_THROW => true | _ => false end.

Definition ecma_is_completion_value_normal (c : ecma_completion_value_t) : bool :=
  match completion_type c with ECMA_COMPLETION_TYPE_NORMAL => true | _ => false end.

Inductive ecma_internal_property_id_t : Type :=
| ECMA_INTERNAL_PROPERTY_CLASS
| ECMA_INTERNAL_PROPERTY_BUILT_IN_ID
| ECMA_INTERNAL_PROPERTY_BUILT_IN_ROUTINE_ID
| ECMA_INTERNAL_PROPERTY_NON_INSTANTIATED_BUILT_IN_MASK_0_31
| ECMA_INTERNAL_PROPERTY_PRIMITIVE_STRING_VALUE
| ECMA_INTERNAL_PROPERTY_PRIMITIVE_NUMBER_VALUE
| ECMA_INTERNAL_PROPERTY_PRIMITIVE_BOOLEAN_VALUE.

#[export] Instance ecma_internal_property_id_eq_dec : EqDecision ecma_internal_property_id_t.
Proof. solve_decision. Defined.

(** The 32-bit [u.internal_property.value]: an integer, a simple value, or
    what [ECMA_SET_POINTER] stored there, kept as the string or the number
    pointed to. *)
Inductive ecma_internal_value_t : Type :=
| INTERNAL_UINT32 (z : Z)
| INTERNAL_SIMPLE (v : ecma_simple_value_t)
| INTERNAL_STRING (str : ecma_string_t)
| INTERNAL_NUMBER (num : ecma_number_t).

Definition ECMA_PROPERTY_WRITABLE : bool := true.
Definition ECMA_PROPERTY_NOT_WRITABLE : bool := false.
Definition ECMA_PROPERTY_ENUMERABLE : bool := true.
Definition ECMA_PROPERTY_NOT_ENUMERABLE : bool := false.
Definition ECMA_PROPERTY_CONFIGURABLE : bool := true.
Definition ECMA_PROPERTY_NOT_CONFIGURABLE : bool := false.

Inductive ecma_property_t : Type :=
| ECMA_PROPERTY_INTERNAL (id : ecma_internal_property_id_t) (value : ecma_internal_value_t)
| ECMA_PROPERTY_NAMEDDATA (name : ecma_string_t) (value : ecma_value_t)
    (writable enumerable configurable : bool)
| ECMA_PROPERTY_NAMEDACCESSOR (name : ecma_string_t) (get_p set_p : option ecma_object_ptr)
    (enumerable configurable : bool).

(** What designates a property among those of its object. *)
Inductive ecma_property_key_t : Type :=
| KEY_INTERNAL (id : ecma_internal_property_id_t)
| KEY_NAMED (name : ecma_string_t).

#[export] Instance ecma_property_key_eq_dec : EqDecision ecma_property_key_t.
Proof. solve_decision. Defined.

Definition property_key (prop : ecma_property_t) : ecma_property_key_t :=
  match prop with
  | ECMA_PROPERTY_INTERNAL id _ => KEY_INTERNAL id
  | ECMA_PROPERTY_NAMEDDATA name _ _ _ _ => KEY_NAMED name
  | ECMA_PROPERTY_NAMEDACCESSOR name _ _ _ _ => KEY_NAMED name
  end.

(** An [ecma_property_t*]: the object that owns the property and the key of
    the property in it. *)
Record ecma_property_ptr : Type := {
  property_owner : ecma_object_ptr;
  property_ptr_key : ecma_property_key_t
}.

(** An [ecma_object_t]: the properties are listed most recent first. *)
Record ecma_object_t : Type := {
  object_prototype : option ecma_object_ptr;
  object_is_extensible : bool;
  object_kind : ecma_object_type_t;
  object_is_builtin : bool;
  object_is_lexical_environment : bool;
  object_refs : nat;
  object_properties : list ecma_property_t
}.

(** The state of the engine: the heap of objects and the static array
    [ecma_builtin_objects], one nullable pointer per built-in identifier. *)
Record ecma_state_t : Type := {
  heap : list ecma_object_t;
  ecma_builtin_objects : list (option ecma_object_ptr)
}.

(** ** Routines over the engine state *)

Definition M (A : Type) : Type := ecma_state_t -> outcome (A * ecma_state_t).

Definition ret {A : Type} (a : A) : M A := fun s => Ok (a, s).

Definition bind {A B : Type} (c : M A) (k : A -> M B) : M B :=
  fun s => match c s with
           | Ok (a, s') => k a s'
           | Abort why => Abort why
           end.

Definition abort {A : Type} (why : abort_t) : M A := fun _ => Abort why.

Definition lift {A : Type} (c : outcome A) : M A :=
  fun s => match c with
           | Ok a => Ok (a, s)
           | Abort why => Abort why
           end.

Notation "x <- c ;; k" := (bind c (fun x => k))
  (at level 100, c at next level, right associativity).
Notation "c ;;; k" := (bind c (fun _ => k))
  (at level 100, right associativity).

(** A [JERRY_ASSERT] whose condition calls into the engine: the condition is
    evaluated, with its effects, in debug builds only. *)
Definition JERRY_ASSERT_M `{build_t} (cond : M bool) : M unit :=
  if JERRY_NDEBUG then ret tt
  else b <- cond ;; if b then ret tt else abort ASSERTION.

(** ** The object and property layer *)

(** Modelled from the spec: the generic object and property layer that the
    subsystem consumes (create-object-with-prototype, create-named-data and
    accessor property, find-named-property, reference and dereference of an
    object); its source, [ecma-helpers.c] and [ecma-gc.c], is not among the
    files.  A new object gets the next free pointer and one reference; a new
    property is put in front of the object's properties. *)
Definition modify_object (obj_p : ecma_object_ptr) (f : ecma_object_t -> ecma_object_t) : M unit :=
  fun s => match heap s !! obj_p with
           | Some obj => Ok (tt, {| heap := <[obj_p := f obj]> (heap s);
                                    ecma_builtin_objects := ecma_builtin_objects s |})
           | None => Abort OUT_OF_BOUNDS
           end.

Definition get_object (obj_p : ecma_object_ptr) : M ecma_object_t :=
  fun s => match heap s !! obj_p with
           | Some obj => Ok (obj, s)
           | None => Abort OUT_OF_BOUNDS
           end.

Definition ecma_create_object (prototype_object_p : option ecma_object_ptr)
    (is_extensible : bool) (type : ecma_object_type_t) : M ecma_object_ptr :=
  fun s => Ok (length (heap s),
               {| heap := heap s ++ [ {| object_prototype := prototype_object_p;
                                         object_is_extensible := is_extensible;
                                         object_kind := type;
                                         object_is_builtin := false;
                                         object_is_lexical_environment := false;
                                         object_refs := 1;
                                         object_properties := [] |} ];
                  ecma_builtin_objects := ecma_builtin_objects s |}).

Definition with_refs (refs : nat) (obj : ecma_object_t) : ecma_object_t :=
  {| object_prototype := object_prototype obj;
     object_is_extensible := object_is_extensible obj;
     object_kind := object_kind obj;
     object_is_builtin := object_is_builtin obj;
     object_is_lexical_environment := object_is_lexical_environment obj;
     object_refs := refs;
     object_properties := object_properties obj |}.

Definition with_is_builtin (is_builtin : bool) (obj : ecma_object_t) : ecma_object_t :=
  {| object_prototype := object_prototype obj;
     object_is_extensible := object_is_extensible obj;
     object_kind := object_kind obj;
     object_is_builtin := is_builtin;
     object_is_lexical_environment := object_is_lexical_environment obj;
     object_refs := object_refs obj;
     object_properties := object_properties obj |}.

Definition with_properties (props : list ecma_property_t) (obj : ecma_object_t) : ecma_object_t :=
  {| object_prototype := object_prototype obj;
     object_is_extensible := object_is_extensible obj;
     object_kind := object_kind obj;
     object_is_builtin := object_is_builtin obj;
     object_is_lexical_environment := object_is_lexical_environment obj;
     object_refs := object_refs obj;
     object_properties := props |}.

Definition ecma_ref_object (obj_p : ecma_object_ptr) : M unit :=
  modify_object obj_p (fun obj => with_refs (S (object_refs obj)) obj).

Definition ecma_deref_object (obj_p : ecma_object_ptr) : M unit :=
  modify_object obj_p (fun obj => with_refs (Nat.pred (object_refs obj)) obj).

Definition ecma_set_object_is_builtin (obj_p : ecma_object_ptr) (is_builtin : bool) : M unit :=
  modify_object obj_p (with_is_builtin is_builtin).

Definition ecma_get_object_is_builtin (obj_p : ecma_object_ptr) : M bool :=
  obj <- get_object obj_p ;; ret (object_is_builtin obj).

Definition ecma_get_object_type (obj_p : ecma_object_ptr) : M ecma_object_type_t :=
  obj <- get_object obj_p ;; ret (object_kind obj).

Definition ecma_is_lexical_environment (obj_p : ecma_object_ptr) : M bool :=
  obj <- get_object obj_p ;; ret (object_is_lexical_environment obj).

(** The first property with the key, as the search along the list finds it. *)
Fixpoint find_property (key : ecma_property_key_t) (props : list ecma_property_t)
    : option ecma_property_t :=
  match props with
  | [] => None
  | prop :: rest =>
      if decide (property_key prop = key) then Some prop else find_property key rest
  end.

(** A write through a property pointer: the first property with the key is
    replaced. *)
Fixpoint replace_property (key : ecma_property_key_t) (f : ecma_property_t -> ecma_property_t)
    (props : list ecma_property_t) : list ecma_property_t :=
  match props with
  | [] => []
  | prop :: rest =>
      if decide (property_key prop = key) then f prop :: rest
      else prop :: replace_property key f rest
  end.

Definition find_property_ptr (obj_p : ecma_object_ptr) (key : ecma_property_key_t)
    : M (option ecma_property_ptr) :=
  obj <- get_object obj_p ;;
  ret (match find_property key (object_properties obj) with
       | Some _ => Some {| property_owner := obj_p; property_ptr_key := key |}
       | None => None
       end).

Definition load_property (prop_p : ecma_property_ptr) : M ecma_property_t :=
  obj <- get_object (property_owner prop_p) ;;
  match find_property (property_ptr_key prop_p) (object_properties obj) with
  | Some prop => ret prop
  | None => abort OUT_OF_BOUNDS
  end.

Definition store_property (prop_p : ecma_property_ptr) (f : ecma_property_t -> ecma_property_t)
    : M unit :=
  _ <- load_property prop_p ;;
  modify_object (property_owner prop_p)
    (fun obj => with_properties
                  (replace_property (property_ptr_key prop_p) f (object_properties obj)) obj).

Definition add_property (obj_p : ecma_object_ptr) (prop : ecma_property_t) : M ecma_property_ptr :=
  modify_object obj_p (fun obj => with_properties (prop :: object_properties obj) obj) ;;;
  ret {| property_owner := obj_p; property_ptr_key := property_key prop |}.

Definition ecma_find_internal_property (obj_p : ecma_object_ptr)
    (property_id : ecma_internal_property_id_t) : M (option ecma_property_ptr) :=
  find_property_ptr obj_p (KEY_INTERNAL property_id).

Definition ecma_get_internal_property `{build_t} (obj_p : ecma_object_ptr)
    (property_id : ecma_internal_property_id_t) : M ecma_property_ptr :=
  property_p <- ecma_find_internal_property obj_p property_id ;;
  match property_p with
  | Some prop_p => ret prop_p
  | None => lift (JERRY_ASSERT false) ;;; abort OUT_OF_BOUNDS
  end.

Definition ecma_create_internal_property (obj_p : ecma_object_ptr)
    (property_id : ecma_internal_property_id_t) : M ecma_property_ptr :=
  add_property obj_p (ECMA_PROPERTY_INTERNAL property_id (INTERNAL_UINT32 0)).

Definition ecma_find_named_property (obj_p : ecma_object_ptr) (name_p : ecma_string_t)
    : M (option ecma_property_ptr) :=
  find_property_ptr obj_p (KEY_NAMED name_p).

Definition ecma_create_named_data_property (obj_p : ecma_object_ptr) (name_p : ecma_string_t)
    (writable enumerable configurable : bool) : M ecma_property_ptr :=
  add_property obj_p
    (ECMA_PROPERTY_NAMEDDATA name_p (ecma_make_simple_value ECMA_SIMPLE_VALUE_UNDEFINED)
       writable enumerable configurable).

Definition ecma_create_named_accessor_property (obj_p : ecma_object_ptr) (name_p : ecma_string_t)
    (get_p set_p : option ecma_object_ptr) (enumerable configurable : bool) : M ecma_property_ptr :=
  add_property obj_p (ECMA_PROPERTY_NAMEDACCESSOR name_p get_p set_p enumerable configurable).

(** [prop_p->u.internal_property.value = value] and its read. *)
Definition with_internal_value (value : ecma_internal_value_t) (prop : ecma_property_t)
    : ecma_property_t :=
  match prop with
  | ECMA_PROPERTY_INTERNAL id _ => ECMA_PROPERTY_INTERNAL id value
  | _ => prop
  end.

Definition set_internal_property_value (prop_p : ecma_property_ptr)
    (value : ecma_internal_value_t) : M unit :=
  store_property prop_p (with_internal_value value).

Definition get_internal_property_value (prop_p : ecma_property_ptr) : M ecma_internal_value_t :=
  prop <- load_property prop_p ;;
  match prop with
  | ECMA_PROPERTY_INTERNAL _ value => ret value
  | _ => abort OUT_OF_BOUNDS
  end.

(** The read of an internal property's value as the integer it holds. *)
Definition get_internal_property_uint32 (prop_p : ecma_property_ptr) : M Z :=
  value <- get_internal_property_value prop_p ;;
  match value with
  | INTERNAL_UINT32 z => ret z
  | _ => abort OUT_OF_BOUNDS
  end.

(** [prop_p->u.named_data_property.value = value]. *)
Definition with_named_data_value (value : ecma_value_t) (prop : ecma_property_t)
    : ecma_property_t :=
  match prop with
  | ECMA_PROPERTY_NAMEDDATA name _ writable enumerable configurable =>
      ECMA_PROPERTY_NAMEDDATA name value writable enumerable configurable
  | _ => prop
  end.

Definition set_named_data_property_value (prop_p : ecma_property_ptr) (value : ecma_value_t)
    : M unit :=
  store_property prop_p (with_named_data_value value).

(** Values hold their number or string themselves, so a copy is the value;
    a copied object is referenced when asked, and freeing an object value
    drops the reference when asked. *)
Definition ecma_copy_value (value : ecma_value_t) (is_ref_if_object : bool) : M ecma_value_t :=
  match value with
  | ECMA_TYPE_OBJECT obj_p =>
      (if is_ref_if_object then ecma_ref_object obj_p else ret tt) ;;; ret value
  | _ => ret value
  end.

Definition ecma_free_value (value : ecma_value_t) (do_deref_if_object : bool) : M unit :=
  match value with
  | ECMA_TYPE_OBJECT obj_p => if do_deref_if_object then ecma_deref_object obj_p else ret tt
  | _ => ret tt
  end.

(** [ecma_builtin_objects [id]] and its assignment. *)
Definition get_builtin_object (id : nat) : M (option ecma_object_ptr) :=
  fun s => match ecma_builtin_objects s !! id with
           | Some slot => Ok (slot, s)
           | None => Abort OUT_OF_BOUNDS
           end.

Definition set_builtin_object (id : nat) (slot : option ecma_object_ptr) : M unit :=
  fun s => match ecma_builtin_objects s !! id with
           | Some _ => Ok (tt, {| heap := heap s;
                                  ecma_builtin_objects := <[id := slot]> (ecma_builtin_objects s) |})
           | None => Abort OUT_OF_BOUNDS
           end.

(** ** Bit fields *)

(** Modelled from the spec: the two bit-field helpers of [jrt-bit-fields.h],
    which is not among the files.  The routine encoding is a single unsigned
    integer packing two sub-fields of fixed position and width:
    [jrt_set_bit_field_value] replaces the [width] bits from bit [lsb] of a
    64-bit container by the new value, [jrt_extract_bit_field] reads them. *)
Definition jrt_set_bit_field_value (container new_bit_field_value lsb width : Z) : Z :=
  let bit_field_mask := to_uint64 (Z.shiftl 1 width - 1) in
  let shifted_bit_field_mask := to_uint64 (Z.shiftl bit_field_mask lsb) in
  let shifted_new_bit_field_value := to_uint64 (Z.shiftl new_bit_field_value lsb) in
  Z.lor (Z.land container (to_uint64 (Z.lnot shifted_bit_field_mask)))
        shifted_new_bit_field_value.

Definition jrt_extract_bit_field (container lsb width : Z) : Z :=
  let shifted_value := Z.shiftr container lsb in
  let bit_field_mask := to_uint64 (Z.shiftl 1 width - 1) in
  Z.land shifted_value bit_field_mask.

Section Registry.

Context `{build_t, magic_strings_t, builtins_t}.

(** ** The registry of built-in objects ([ecma-builtins.c]) *)

(** [ecma_builtin_init_object]: the object of a built-in, with its class,
    its identifier and, for three prototypes, its primitive value. *)
Definition ecma_builtin_init_object (obj_builtin_id : nat)
    (prototype_obj_p : option ecma_object_ptr) (obj_type : ecma_object_type_t)
    (obj_class : Z) : M ecma_object_ptr :=
  object_obj_p <- ecma_create_object prototype_obj_p true obj_type ;;
  class_prop_p <- ecma_create_internal_property object_obj_p ECMA_INTERNAL_PROPERTY_CLASS ;;
  set_internal_property_value class_prop_p (INTERNAL_UINT32 obj_class) ;;;
  built_in_id_prop_p <- ecma_create_internal_property object_obj_p
                          ECMA_INTERNAL_PROPERTY_BUILT_IN_ID ;;
  set_internal_property_value built_in_id_prop_p (INTERNAL_UINT32 (Z.of_nat obj_builtin_id)) ;;;
  ecma_set_object_is_builtin object_obj_p true ;;;
  switch obj_builtin_id
    [ (ECMA_BUILTIN_ID_STRING_PROTOTYPE,
        let prim_prop_str_value_p := ecma_get_magic_string ECMA_MAGIC_STRING__EMPTY in
        prim_value_prop_p <- ecma_create_internal_property object_obj_p
                               ECMA_INTERNAL_PROPERTY_PRIMITIVE_STRING_VALUE ;;
        set_internal_property_value prim_value_prop_p (INTERNAL_STRING prim_prop_str_value_p));
      (ECMA_BUILTIN_ID_NUMBER_PROTOTYPE,
        let prim_prop_num_value_p := ECMA_NUMBER_ZERO in
        prim_value_prop_p <- ecma_create_internal_property object_obj_p
                               ECMA_INTERNAL_PROPERTY_PRIMITIVE_NUMBER_VALUE ;;
        set_internal_property_value prim_value_prop_p (INTERNAL_NUMBER prim_prop_num_value_p));
      (ECMA_BUILTIN_ID_BOOLEAN_PROTOTYPE,
        prim_value_prop_p <- ecma_create_internal_property object_obj_p
                               ECMA_INTERNAL_PROPERTY_PRIMITIVE_BOOLEAN_VALUE ;;
        set_internal_property_value prim_value_prop_p (INTERNAL_SIMPLE ECMA_SIMPLE_VALUE_FALSE)) ]
    (ret tt) ;;;
  ret object_obj_p.

(** [ecma_init_builtins]: every slot of the static array is [NULL]. *)
Definition ecma_init_builtins : M unit :=
  fun s => Ok (tt, {| heap := heap s;
                      ecma_builtin_objects := replicate ECMA_BUILTIN_ID__COUNT None |}).

(** One [CASE_BUILTIN] of [ecma_instantiate_builtin]; [instantiate] is the
    routine itself, called for the prototype. *)
Definition CASE_BUILTIN (instantiate : nat -> M unit) (entry : builtin_descriptor_t) : M unit :=
  JERRY_ASSERT_M (slot <- get_builtin_object (entry_builtin_id entry) ;;
                  ret (bool_decide (slot = None))) ;;;
  prototype_obj_p <-
    (if decide (entry_object_prototype_builtin_id entry = ECMA_BUILTIN_ID__COUNT) then ret None
     else
       proto_slot <- get_builtin_object (entry_object_prototype_builtin_id entry) ;;
       (if decide (proto_slot = None)
        then instantiate (entry_object_prototype_builtin_id entry) else ret tt) ;;;
       prototype_obj_p <- get_builtin_object (entry_object_prototype_builtin_id entry) ;;
       lift (JERRY_ASSERT (bool_decide (prototype_obj_p <> None))) ;;;
       ret prototype_obj_p) ;;
  builtin_obj_p <- ecma_builtin_init_object (entry_builtin_id entry) prototype_obj_p
                     (entry_object_type entry) (entry_object_class entry) ;;
  set_builtin_object (entry_builtin_id entry) (Some builtin_obj_p).

(** [ecma_instantiate_builtin]; [fuel] bounds the depth of the recursion
    along the prototypes. *)
Fixpoint ecma_instantiate_builtin (fuel : nat) (id : nat) : M unit :=
  match fuel with
  | O => abort FUEL
  | S fuel' =>
      switch id
        (map (fun entry => (entry_builtin_id entry, CASE_BUILTIN (ecma_instantiate_builtin fuel') entry))
             ECMA_BUILTIN_LIST)
        (abort UNREACHABLE)
  end.

(** [ecma_builtin_is]; the object pointer given is not [NULL]. *)
Definition ecma_builtin_is (fuel : nat) (obj_p : ecma_object_ptr) (builtin_id : nat) : M bool :=
  JERRY_ASSERT_M (is_lex_env <- ecma_is_lexical_environment obj_p ;; ret (negb is_lex_env)) ;;;
  lift (JERRY_ASSERT (bool_decide (builtin_id < ECMA_BUILTIN_ID__COUNT)%nat)) ;;;
  slot <- get_builtin_object builtin_id ;;
  (if decide (slot = None) then ecma_instantiate_builtin fuel builtin_id else ret tt) ;;;
  slot <- get_builtin_object builtin_id ;;
  ret (bool_decide (Some obj_p = slot)).

(** [ecma_builtin_get]. *)
Definition ecma_builtin_get (fuel : nat) (builtin_id : nat) : M ecma_object_ptr :=
  lift (JERRY_ASSERT (bool_decide (builtin_id < ECMA_BUILTIN_ID__COUNT)%nat)) ;;;
  slot <- get_builtin_object builtin_id ;;
  (if decide (slot = None) then ecma_instantiate_builtin fuel builtin_id else ret tt) ;;;
  slot <- get_builtin_object builtin_id ;;
  match slot with
  | Some obj_p => ecma_ref_object obj_p ;;; ret obj_p
  | None => abort OUT_OF_BOUNDS
  end.

(** [ecma_finalize_builtins]: the loop over the identifiers below
    [ECMA_BUILTIN_ID__COUNT]. *)
Definition ecma_finalize_builtins : M unit :=
  foldr (fun id rest =>
           slot <- get_builtin_object id ;;
           match slot with
           | Some obj_p => ecma_deref_object obj_p ;;; set_builtin_object id None
           | None => ret tt
           end ;;; rest)
        (ret tt) (seq 0 ECMA_BUILTIN_ID__COUNT).

(** ** Function objects of built-in routines *)

(** The packed value [ecma_builtin_make_function_object_for_routine] builds
    from the two identifiers, and the 32-bit value it stores. *)
Definition routine_id_packed_value (builtin_id : nat) (routine_id : Z) : Z :=
  let packed_value := jrt_set_bit_field_value 0 (Z.of_nat builtin_id)
                        ECMA_BUILTIN_ROUTINE_ID_BUILT_IN_OBJECT_ID_POS
                        ECMA_BUILTIN_ROUTINE_ID_BUILT_IN_OBJECT_ID_WIDTH in
  jrt_set_bit_field_value packed_value routine_id
    ECMA_BUILTIN_ROUTINE_ID_BUILT_IN_ROUTINE_ID_POS
    ECMA_BUILTIN_ROUTINE_ID_BUILT_IN_ROUTINE_ID_WIDTH.

(** The two fields [ecma_builtin_dispatch_call] extracts from the value of
    the internal property. *)
Definition routine_id_built_in_id_field (packed_built_in_and_routine_id : Z) : Z :=
  jrt_extract_bit_field packed_built_in_and_routine_id
    ECMA_BUILTIN_ROUTINE_ID_BUILT_IN_OBJECT_ID_POS
    ECMA_BUILTIN_ROUTINE_ID_BUILT_IN_OBJECT_ID_WIDTH.

Definition routine_id_routine_id_field (packed_built_in_and_routine_id : Z) : Z :=
  jrt_extract_bit_field packed_built_in_and_routine_id
    ECMA_BUILTIN_ROUTINE_ID_BUILT_IN_ROUTINE_ID_POS
    ECMA_BUILTIN_ROUTINE_ID_BUILT_IN_ROUTINE_ID_WIDTH.

(** [ecma_builtin_make_function_object_for_routine]. *)
Definition ecma_builtin_make_function_object_for_routine (fuel : nat) (builtin_id : nat)
    (routine_id : Z) (length_prop_num_value : ecma_number_t) : M ecma_object_ptr :=
  prototype_obj_p <- ecma_builtin_get fuel ECMA_BUILTIN_ID_FUNCTION_PROTOTYPE ;;
  func_obj_p <- ecma_create_object (Some prototype_obj_p) true
                  ECMA_OBJECT_TYPE_BUILT_IN_FUNCTION ;;
  ecma_deref_object prototype_obj_p ;;;
  ecma_set_object_is_builtin func_obj_p true ;;;
  let packed_value := routine_id_packed_value builtin_id routine_id in
  routine_id_prop_p <- ecma_create_internal_property func_obj_p
                         ECMA_INTERNAL_PROPERTY_BUILT_IN_ROUTINE_ID ;;
  lift (JERRY_ASSERT (to_uint32 packed_value =? packed_value)) ;;;
  set_internal_property_value routine_id_prop_p (INTERNAL_UINT32 (to_uint32 packed_value)) ;;;
  let magic_string_length_p := ecma_get_magic_string ECMA_MAGIC_STRING_LENGTH in
  len_prop_p <- ecma_create_named_data_property func_obj_p magic_string_length_p
                  ECMA_PROPERTY_NOT_WRITABLE
                  ECMA_PROPERTY_NOT_ENUMERABLE
                  ECMA_PROPERTY_NOT_CONFIGURABLE ;;
  let len_p := length_prop_num_value in
  set_named_data_property_value len_prop_p (ecma_make_number_value len_p) ;;;
  ret func_obj_p.

End Registry.

(** ** What the two files call and do not define *)

(** The conversion [ecma_op_to_number], the body the macro
    [ECMA_BUILTIN_CP_UNIMPLEMENTED] gives a routine (it is handed the
    routine's arguments), and the routines of the other built-in objects,
    which [ecma-builtins.c] reaches by the [lowercase_name] of the entry. *)
Class collaborators_t : Type := {
  ecma_op_to_number : ecma_value_t -> M ecma_completion_value_t;
  ECMA_BUILTIN_CP_UNIMPLEMENTED : list ecma_value_t -> M ecma_completion_value_t;
  ecma_builtin_other_try_to_instantiate_property :
    string -> ecma_object_ptr -> ecma_string_t -> M (option ecma_property_ptr);
  ecma_builtin_other_dispatch_call :
    string -> list ecma_value_t -> M ecma_completion_value_t;
  ecma_builtin_other_dispatch_construct :
    string -> list ecma_value_t -> M ecma_completion_value_t;
  ecma_builtin_other_dispatch_routine :
    string -> Z -> ecma_value_t -> list ecma_value_t -> M ecma_completion_value_t
}.

Section GlobalObject.

Context `{build_t, magic_strings_t, builtins_t, collaborators_t}.

(** ** The Global object ([ecma-builtin-global-object.c]) *)

(** List of the Global object's built-in property names. *)
Definition ecma_builtin_global_property_names : list Z :=
  [ ECMA_MAGIC_STRING_EVAL;
    ECMA_MAGIC_STRING_UNDEFINED;
    ECMA_MAGIC_STRING_NAN;
    ECMA_MAGIC_STRING_INFINITY_UL;
    ECMA_MAGIC_STRING_OBJECT_UL;
    ECMA_MAGIC_STRING_FUNCTION_UL;
    ECMA_MAGIC_STRING_ARRAY_UL;
    ECMA_MAGIC_STRING_STRING_UL;
    ECMA_MAGIC_STRING_BOOLEAN_UL;
    ECMA_MAGIC_STRING_NUMBER_UL;
    ECMA_MAGIC_STRING_DATE_UL;
    ECMA_MAGIC_STRING_REG_EXP_UL;
    ECMA_MAGIC_STRING_ERROR_UL;
    ECMA_MAGIC_STRING_EVAL_ERROR_UL;
    ECMA_MAGIC_STRING_RANGE_ERROR_UL;
    ECMA_MAGIC_STRING_REFERENCE_ERROR_UL;
    ECMA_MAGIC_STRING_SYNTAX_ERROR_UL;
    ECMA_MAGIC_STRING_TYPE_ERROR_UL;
    ECMA_MAGIC_STRING_URI_ERROR_UL;
    ECMA_MAGIC_STRING_MATH_UL;
    ECMA_MAGIC_STRING_JSON_U;
    ECMA_MAGIC_STRING_PARSE_INT;
    ECMA_MAGIC_STRING_PARSE_FLOAT;
    ECMA_MAGIC_STRING_IS_NAN;
    ECMA_MAGIC_STRING_IS_FINITE;
    ECMA_MAGIC_STRING_DECODE_URI;
    ECMA_MAGIC_STRING_DECODE_URI_COMPONENT;
    ECMA_MAGIC_STRING_ENCODE_URI;
    ECMA_MAGIC_STRING_ENCODE_URI_COMPONENT ]
  ++ (if CONFIG_ECMA_COMPACT_PROFILE
      then [ ECMA_MAGIC_STRING_COMPACT_PROFILE_ERROR_UL ] else []).

(** Number of the Global object's built-in properties. *)
Definition ecma_builtin_global_property_number : Z :=
  Z.of_nat (length ecma_builtin_global_property_names).

(** Modelled from the spec: [ECMA_TRY_CATCH] and [ECMA_FINALIZE] of
    [ecma-try-catch-macro.h], which is not among the files.  A throw
    completion of the operation is returned unchanged; a normal one is
    handed to the block, and freed after it. *)
Definition ECMA_TRY_CATCH (op : M ecma_completion_value_t)
    (block : ecma_completion_value_t -> M ecma_completion_value_t) : M ecma_completion_value_t :=
  var <- op ;;
  if ecma_is_completion_value_throw var then ret var
  else
    lift (JERRY_ASSERT (ecma_is_completion_value_normal var)) ;;;
    ret_value <- block var ;;
    ecma_free_value (completion_value var) true ;;;
    ret ret_value.

(** The Global object's 'eval' routine. *)
Definition ecma_builtin_global_object_eval (x : ecma_value_t) : M ecma_completion_value_t :=
  ECMA_BUILTIN_CP_UNIMPLEMENTED [x].

(** The Global object's 'parseInt' routine. *)
Definition ecma_builtin_global_object_parse_int (string radix : ecma_value_t)
    : M ecma_completion_value_t :=
  ECMA_BUILTIN_CP_UNIMPLEMENTED [string; radix].

(** The Global object's 'parseFloat' routine. *)
Definition ecma_builtin_global_object_parse_float (string : ecma_value_t)
    : M ecma_completion_value_t :=
  ECMA_BUILTIN_CP_UNIMPLEMENTED [string].

(** The Global object's 'isNaN' routine. *)
Definition ecma_builtin_global_object_is_nan (arg : ecma_value_t) : M ecma_completion_value_t :=
  ECMA_TRY_CATCH (ecma_op_to_number arg) (fun num_value =>
    match completion_value num_value with
    | ECMA_TYPE_NUMBER num_p =>
        let is_nan := ecma_number_is_nan num_p in
        ret (ecma_make_simple_completion_value
               (if is_nan then ECMA_SIMPLE_VALUE_TRUE else ECMA_SIMPLE_VALUE_FALSE))
    | _ => abort OUT_OF_BOUNDS
    end).

(** The Global object's 'isFinite' routine. *)
Definition ecma_builtin_global_object_is_finite (arg : ecma_value_t) : M ecma_completion_value_t :=
  ECMA_TRY_CATCH (ecma_op_to_number arg) (fun num_value =>
    match completion_value num_value with
    | ECMA_TYPE_NUMBER num_p =>
        let is_finite := negb (ecma_number_is_nan num_p || ecma_number_is_infinity num_p) in
        ret (ecma_make_simple_completion_value
               (if is_finite then ECMA_SIMPLE_VALUE_TRUE else ECMA_SIMPLE_VALUE_FALSE))
    | _ => abort OUT_OF_BOUNDS
    end).

(** The Global object's 'decodeURI' routine. *)
Definition ecma_builtin_global_object_decode_uri (encoded_uri : ecma_value_t)
    : M ecma_completion_value_t :=
  ECMA_BUILTIN_CP_UNIMPLEMENTED [encoded_uri].

(** The Global object's 'decodeURIComponent' routine. *)
Definition ecma_builtin_global_object_decode_uri_component (encoded_uri_component : ecma_value_t)
    : M ecma_completion_value_t :=
  ECMA_BUILTIN_CP_UNIMPLEMENTED [encoded_uri_component].

(** The Global object's 'encodeURI' routine. *)
Definition ecma_builtin_global_object_encode_uri (uri : ecma_value_t)
    : M ecma_completion_value_t :=
  ECMA_BUILTIN_CP_UNIMPLEMENTED [uri].

(** The Global object's 'encodeURIComponent' routine. *)
Definition ecma_builtin_global_object_encode_uri_component (uri_component : ecma_value_t)
    : M ecma_completion_value_t :=
  ECMA_BUILTIN_CP_UNIMPLEMENTED [uri_component].

(** A routine's C function, by the number of its formal parameters. *)
Inductive routine_function_t : Type :=
| ROUTINE_FUNCTION_1 (f : ecma_value_t -> M ecma_completion_value_t)
| ROUTINE_FUNCTION_2 (f : ecma_value_t -> ecma_value_t -> M ecma_completion_value_t).

(** One entry of a routines list: name, C function, number of arguments and
    value of the 'length' property. *)
Record routine_property_t : Type := {
  routine_name : Z;
  routine_c_function_name : routine_function_t;
  routine_args_number : nat;
  routine_length : Z
}.

Definition ECMA_BUILTIN_GLOBAL_OBJECT_ROUTINES_PROPERTY_LIST : list routine_property_t :=
  [ {| routine_name := ECMA_MAGIC_STRING_EVAL;
       routine_c_function_name := ROUTINE_FUNCTION_1 ecma_builtin_global_object_eval;
       routine_args_number := 1;
       routine_length := 1 |};
    {| routine_name := ECMA_MAGIC_STRING_PARSE_FLOAT;
       routine_c_function_name := ROUTINE_FUNCTION_1 ecma_builtin_global_object_parse_float;
       routine_args_number := 1;
       routine_length := 1 |};
    {| routine_name := ECMA_MAGIC_STRING_IS_NAN;
       routine_c_function_name := ROUTINE_FUNCTION_1 ecma_builtin_global_object_is_nan;
       routine_args_number := 1;
       routine_length := 1 |};
    {| routine_name := ECMA_MAGIC_STRING_IS_FINITE;
       routine_c_function_name := ROUTINE_FUNCTION_1 ecma_builtin_global_object_is_finite;
       routine_args_number := 1;
       routine_length := 1 |};
    {| routine_name := ECMA_MAGIC_STRING_DECODE_URI;
       routine_c_function_name := ROUTINE_FUNCTION_1 ecma_builtin_global_object_decode_uri;
       routine_args_number := 1;
       routine_length := 1 |};
    {| routine_name := ECMA_MAGIC_STRING_DECODE_URI_COMPONENT;
       routine_c_function_name :=
         ROUTINE_FUNCTION_1 ecma_builtin_global_object_decode_uri_component;
       routine_args_number := 1;
       routine_length := 1 |};
    {| routine_name := ECMA_MAGIC_STRING_ENCODE_URI;
       routine_c_function_name := ROUTINE_FUNCTION_1 ecma_builtin_global_object_encode_uri;
       routine_args_number := 1;
       routine_length := 1 |};
    {| routine_name := ECMA_MAGIC_STRING_ENCODE_URI_COMPONENT;
       routine_c_function_name :=
         ROUTINE_FUNCTION_1 ecma_builtin_global_object_encode_uri_component;
       routine_args_number := 1;
       routine_length := 1 |};
    {| routine_name := ECMA_MAGIC_STRING_PARSE_INT;
       routine_c_function_name := ROUTINE_FUNCTION_2 ecma_builtin_global_object_parse_int;
       routine_args_number := 2;
       routine_length := 2 |} ].

(** [ROUTINE_ARG(n)]: the [n]-th argument when the list has it, the
    undefined value otherwise. *)
Definition ROUTINE_ARG (arguments_list : list ecma_value_t) (n : Z) : ecma_value_t :=
  let arguments_number := Z.of_nat (length arguments_list) in
  let value_undefined := ecma_make_simple_value ECMA_SIMPLE_VALUE_UNDEFINED in
  if arguments_number >=? n
  then match array_get arguments_list (n - 1) with
       | Some arg => arg
       | None => value_undefined
       end
  else value_undefined.

(** [return c_function_name (ROUTINE_ARG_LIST_ ## args_number)]. *)
Definition CASE_ROUTINE_PROP_LIST (arguments_list : list ecma_value_t)
    (entry : routine_property_t) : M ecma_completion_value_t :=
  match routine_args_number entry, routine_c_function_name entry with
  | 1%nat, ROUTINE_FUNCTION_1 f => f (ROUTINE_ARG arguments_list 1)
  | 2%nat, ROUTINE_FUNCTION_2 f => f (ROUTINE_ARG arguments_list 1) (ROUTINE_ARG arguments_list 2)
  | _, _ => abort UNREACHABLE
  end.

(** Dispatcher of the Global object's built-in routines. *)
Definition ecma_builtin_global_dispatch_routine (builtin_routine_id : Z)
    (this_arg_value : ecma_value_t) (arguments_list : list ecma_value_t)
    : M ecma_completion_value_t :=
  switch builtin_routine_id
    (map (fun entry => (routine_name entry, CASE_ROUTINE_PROP_LIST arguments_list entry))
         ECMA_BUILTIN_GLOBAL_OBJECT_ROUTINES_PROPERTY_LIST)
    (abort UNREACHABLE).

End GlobalObject.

Section GlobalProperties.

Context `{build_t, magic_strings_t, builtins_t, collaborators_t}.

(** How a case of the [switch] of
    [ecma_builtin_global_try_to_instantiate_property] ends: [break], with
    the value and the attributes it has set, or [return] of a property. *)
Inductive switch_exit_t : Type :=
| SWITCH_BREAK (value : ecma_value_t) (writable enumerable configurable : bool)
| SWITCH_RETURN (prop_p : ecma_property_ptr).

(** The case of a routine of the Global object. *)
Definition CASE_ROUTINE_PROP (fuel : nat) (id : Z) (entry : routine_property_t) : M switch_exit_t :=
  func_obj_p <- ecma_builtin_make_function_object_for_routine fuel ECMA_BUILTIN_ID_GLOBAL id
                  (ECMA_NUMBER_FINITE (routine_length entry)) ;;
  ret (SWITCH_BREAK (ecma_make_object_value func_obj_p)
         ECMA_PROPERTY_WRITABLE ECMA_PROPERTY_NOT_ENUMERABLE ECMA_PROPERTY_CONFIGURABLE).

(** The case of a constant: not writable, not enumerable, not configurable. *)
Definition CASE_CONSTANT (value : ecma_value_t) : M switch_exit_t :=
  ret (SWITCH_BREAK value
         ECMA_PROPERTY_NOT_WRITABLE ECMA_PROPERTY_NOT_ENUMERABLE ECMA_PROPERTY_NOT_CONFIGURABLE).

(** The case of a built-in object, with the attributes set before the
    [switch]. *)
Definition CASE_BUILTIN_OBJECT (fuel : nat) (builtin_id : nat) : M switch_exit_t :=
  object_obj_p <- ecma_builtin_get fuel builtin_id ;;
  ret (SWITCH_BREAK (ecma_make_object_value object_obj_p)
         ECMA_PROPERTY_WRITABLE ECMA_PROPERTY_NOT_ENUMERABLE ECMA_PROPERTY_CONFIGURABLE).

(** The case shared by Date, RegExp, the errors and JSON. *)
Definition CASE_NOT_IMPLEMENTED (fuel : nat) (obj_p : ecma_object_ptr)
    (prop_name_p : ecma_string_t) : M switch_exit_t :=
  if CONFIG_ECMA_COMPACT_PROFILE then
    get_set_p <- ecma_builtin_get fuel ECMA_BUILTIN_ID_COMPACT_PROFILE_ERROR ;;
    compact_profile_thrower_property_p <-
      ecma_create_named_accessor_property obj_p prop_name_p
        (Some get_set_p) (Some get_set_p) true false ;;
    ecma_deref_object get_set_p ;;;
    ret (SWITCH_RETURN compact_profile_thrower_property_p)
  else abort UNIMPLEMENTED.

(** The members of the Global object that the engine does not implement:
    the labels of the case shared by Date, RegExp, the errors and JSON. *)
Definition not_implemented_names : list Z :=
  [ ECMA_MAGIC_STRING_DATE_UL;
    ECMA_MAGIC_STRING_REG_EXP_UL;
    ECMA_MAGIC_STRING_ERROR_UL;
    ECMA_MAGIC_STRING_EVAL_ERROR_UL;
    ECMA_MAGIC_STRING_RANGE_ERROR_UL;
    ECMA_MAGIC_STRING_REFERENCE_ERROR_UL;
    ECMA_MAGIC_STRING_SYNTAX_ERROR_UL;
    ECMA_MAGIC_STRING_TYPE_ERROR_UL;
    ECMA_MAGIC_STRING_URI_ERROR_UL;
    ECMA_MAGIC_STRING_JSON_U ].

(** The case labels of the [switch (id)], in the order of the source. *)
Definition global_property_cases (fuel : nat) (obj_p : ecma_object_ptr)
    (prop_name_p : ecma_string_t) (id : Z) : list (Z * M switch_exit_t) :=
  map (fun entry => (routine_name entry, CASE_ROUTINE_PROP fuel id entry))
      ECMA_BUILTIN_GLOBAL_OBJECT_ROUTINES_PROPERTY_LIST
  ++ [ (ECMA_MAGIC_STRING_UNDEFINED,
         CASE_CONSTANT (ecma_make_simple_value ECMA_SIMPLE_VALUE_UNDEFINED));
       (ECMA_MAGIC_STRING_NAN,
         CASE_CONSTANT (ecma_make_number_value ecma_number_make_nan));
       (ECMA_MAGIC_STRING_INFINITY_UL,
         CASE_CONSTANT (ecma_make_number_value (ecma_number_make_infinity false)));
       (ECMA_MAGIC_STRING_OBJECT_UL, CASE_BUILTIN_OBJECT fuel ECMA_BUILTIN_ID_OBJECT);
       (ECMA_MAGIC_STRING_MATH_UL, CASE_BUILTIN_OBJECT fuel ECMA_BUILTIN_ID_MATH);
       (ECMA_MAGIC_STRING_STRING_UL, CASE_BUILTIN_OBJECT fuel ECMA_BUILTIN_ID_STRING);
       (ECMA_MAGIC_STRING_BOOLEAN_UL, CASE_BUILTIN_OBJECT fuel ECMA_BUILTIN_ID_BOOLEAN);
       (ECMA_MAGIC_STRING_NUMBER_UL, CASE_BUILTIN_OBJECT fuel ECMA_BUILTIN_ID_NUMBER);
       (ECMA_MAGIC_STRING_ARRAY_UL, CASE_BUILTIN_OBJECT fuel ECMA_BUILTIN_ID_ARRAY);
       (ECMA_MAGIC_STRING_FUNCTION_UL, CASE_BUILTIN_OBJECT fuel ECMA_BUILTIN_ID_FUNCTION) ]
  ++ (if CONFIG_ECMA_COMPACT_PROFILE
      then [ (ECMA_MAGIC_STRING_COMPACT_PROFILE_ERROR_UL,
               CASE_BUILTIN_OBJECT fuel ECMA_BUILTIN_ID_COMPACT_PROFILE_ERROR) ]
      else [])
  ++ map (fun label => (label, CASE_NOT_IMPLEMENTED fuel obj_p prop_name_p))
       not_implemented_names.

(** [ecma_builtin_global_try_to_instantiate_property]: the property
    instantiated, or [None] for [NULL].  The update of the garbage
    collector's may-reference-younger flag of the object, which neither the
    registry nor the properties observe, is left out. *)
Definition ecma_builtin_global_try_to_instantiate_property (fuel : nat)
    (obj_p : ecma_object_ptr) (prop_name_p : ecma_string_t) : M (option ecma_property_ptr) :=
  JERRY_ASSERT_M (ecma_builtin_is fuel obj_p ECMA_BUILTIN_ID_GLOBAL) ;;;
  JERRY_ASSERT_M (found <- ecma_find_named_property obj_p prop_name_p ;;
                  ret (bool_decide (found = None))) ;;;
  match ecma_is_string_magic prop_name_p with
  | None => ret None
  | Some id =>
      index <- lift (ecma_builtin_bin_search_for_magic_string_id_in_array
                       ecma_builtin_global_property_names id) ;;
      if index =? -1 then ret None
      else
        lift (JERRY_ASSERT ((index >=? 0) && (to_uint32 index <? 32))) ;;;
        let mask_prop_id := ECMA_INTERNAL_PROPERTY_NON_INSTANTIATED_BUILT_IN_MASK_0_31 in
        let bit := to_uint32 (Z.shiftl 1 index) in
        found_mask_prop_p <- ecma_find_internal_property obj_p mask_prop_id ;;
        mask_prop_p <-
          match found_mask_prop_p with
          | Some mask_prop_p => ret mask_prop_p
          | None =>
              mask_prop_p <- ecma_create_internal_property obj_p mask_prop_id ;;
              set_internal_property_value mask_prop_p (INTERNAL_UINT32 0) ;;;
              ret mask_prop_p
          end ;;
        bit_mask <- get_internal_property_uint32 mask_prop_p ;;
        if negb (Z.land bit_mask bit =? 0) then ret None
        else
          let bit_mask := Z.lor bit_mask bit in
          set_internal_property_value mask_prop_p (INTERNAL_UINT32 bit_mask) ;;;
          exit <- switch id (global_property_cases fuel obj_p prop_name_p id)
                    (abort UNREACHABLE) ;;
          match exit with
          | SWITCH_RETURN prop_p => ret (Some prop_p)
          | SWITCH_BREAK value writable enumerable configurable =>
              prop_p <- ecma_create_named_data_property obj_p prop_name_p
                          writable enumerable configurable ;;
              copied_value <- ecma_copy_value value false ;;
              set_named_data_property_value prop_p copied_value ;;;
              ecma_free_value value true ;;;
              ret (Some prop_p)
          end
  end.

End GlobalProperties.

Section Dispatch.

Context `{build_t, magic_strings_t, builtins_t, collaborators_t}.

(** ** Dispatch over the built-in objects ([ecma-builtins.c]) *)

(** [ecma_builtin_ ## lowercase_name ## _try_to_instantiate_property] and
    its like: the Global object's routines are those of this development,
    the other objects' are the collaborators'. *)
Definition ecma_builtin_variant_try_to_instantiate_property (fuel : nat) (lowercase_name : string)
    (object_p : ecma_object_ptr) (string_p : ecma_string_t) : M (option ecma_property_ptr) :=
  if decide (lowercase_name = "global")
  then ecma_builtin_global_try_to_instantiate_property fuel object_p string_p
  else ecma_builtin_other_try_to_instantiate_property lowercase_name object_p string_p.

Definition ecma_builtin_variant_dispatch_routine (lowercase_name : string)
    (builtin_routine_id : Z) (this_arg_value : ecma_value_t)
    (arguments_list : list ecma_value_t) : M ecma_completion_value_t :=
  if decide (lowercase_name = "global")
  then ecma_builtin_global_dispatch_routine builtin_routine_id this_arg_value arguments_list
  else ecma_builtin_other_dispatch_routine lowercase_name builtin_routine_id this_arg_value
         arguments_list.

(** The [default] of the dispatching switches. *)
Definition DISPATCH_DEFAULT {A : Type} : M A :=
  if CONFIG_ECMA_COMPACT_PROFILE then abort UNREACHABLE else abort UNIMPLEMENTED.

(** [ecma_builtin_try_to_instantiate_property]. *)
Definition ecma_builtin_try_to_instantiate_property (fuel : nat) (object_p : ecma_object_ptr)
    (string_p : ecma_string_t) : M (option ecma_property_ptr) :=
  JERRY_ASSERT_M (ecma_get_object_is_builtin object_p) ;;;
  built_in_id_prop_p <- ecma_get_internal_property object_p ECMA_INTERNAL_PROPERTY_BUILT_IN_ID ;;
  built_in_id_value <- get_internal_property_uint32 built_in_id_prop_p ;;
  let builtin_id := Z.to_nat built_in_id_value in
  JERRY_ASSERT_M (ecma_builtin_is fuel object_p builtin_id) ;;;
  switch builtin_id
    (map (fun entry =>
            (entry_builtin_id entry,
             ecma_builtin_variant_try_to_instantiate_property fuel (entry_lowercase_name entry)
               object_p string_p))
         ECMA_BUILTIN_LIST
     ++ [ (ECMA_BUILTIN_ID__COUNT, abort UNREACHABLE) ])
    DISPATCH_DEFAULT.

(** Dispatcher of built-in routines. *)
Definition ecma_builtin_dispatch_routine (builtin_object_id : nat) (builtin_routine_id : Z)
    (this_arg_value : ecma_value_t) (arguments_list : list ecma_value_t)
    : M ecma_completion_value_t :=
  switch builtin_object_id
    (map (fun entry =>
            (entry_builtin_id entry,
             ecma_builtin_variant_dispatch_routine (entry_lowercase_name entry) builtin_routine_id
               this_arg_value arguments_list))
         ECMA_BUILTIN_LIST
     ++ [ (ECMA_BUILTIN_ID__COUNT, abort UNREACHABLE) ])
    DISPATCH_DEFAULT.

(** Handle calling [[Call]] of built-in object.  The array of arguments
    and its length are one list here, so the assertion that the array is
    not [NULL] unless the length is zero holds of every call. *)
Definition ecma_builtin_dispatch_call (fuel : nat) (obj_p : ecma_object_ptr)
    (this_arg_value : ecma_value_t) (arguments_list_p : list ecma_value_t)
    : M ecma_completion_value_t :=
  JERRY_ASSERT_M (ecma_get_object_is_builtin obj_p) ;;;
  type <- ecma_get_object_type obj_p ;;
  if decide (type = ECMA_OBJECT_TYPE_BUILT_IN_FUNCTION) then
    id_prop_p <- ecma_get_internal_property obj_p ECMA_INTERNAL_PROPERTY_BUILT_IN_ROUTINE_ID ;;
    packed_built_in_and_routine_id <- get_internal_property_uint32 id_prop_p ;;
    let built_in_id_field := routine_id_built_in_id_field packed_built_in_and_routine_id in
    lift (JERRY_ASSERT (built_in_id_field <? Z.of_nat ECMA_BUILTIN_ID__COUNT)) ;;;
    let routine_id_field := routine_id_routine_id_field packed_built_in_and_routine_id in
    lift (JERRY_ASSERT (routine_id_field <? ECMA_MAGIC_STRING__COUNT)) ;;;
    let built_in_id := Z.to_nat built_in_id_field in
    let routine_id := routine_id_field in
    ecma_builtin_dispatch_routine built_in_id routine_id this_arg_value arguments_list_p
  else
    lift (JERRY_ASSERT (bool_decide (type = ECMA_OBJECT_TYPE_FUNCTION))) ;;;
    built_in_id_prop_p <- ecma_get_internal_property obj_p ECMA_INTERNAL_PROPERTY_BUILT_IN_ID ;;
    built_in_id_value <- get_internal_property_uint32 built_in_id_prop_p ;;
    let builtin_id := Z.to_nat built_in_id_value in
    JERRY_ASSERT_M (ecma_builtin_is fuel obj_p builtin_id) ;;;
    switch builtin_id
      (map (fun entry =>
              (entry_builtin_id entry,
               if decide (entry_object_type entry = ECMA_OBJECT_TYPE_FUNCTION)
               then ecma_builtin_other_dispatch_call (entry_lowercase_name entry) arguments_list_p
               else abort UNREACHABLE))
           ECMA_BUILTIN_LIST
       ++ [ (ECMA_BUILTIN_ID__COUNT, abort UNREACHABLE) ])
      DISPATCH_DEFAULT.

(** Handle calling [[Construct]] of built-in object; the arguments are one
    list, as in [ecma_builtin_dispatch_call]. *)
Definition ecma_builtin_dispatch_construct (fuel : nat) (obj_p : ecma_object_ptr)
    (arguments_list_p : list ecma_value_t) : M ecma_completion_value_t :=
  JERRY_ASSERT_M (type <- ecma_get_object_type obj_p ;;
                  ret (bool_decide (type = ECMA_OBJECT_TYPE_FUNCTION))) ;;;
  JERRY_ASSERT_M (ecma_get_object_is_builtin obj_p) ;;;
  built_in_id_prop_p <- ecma_get_internal_property obj_p ECMA_INTERNAL_PROPERTY_BUILT_IN_ID ;;
  built_in_id_value <- get_internal_property_uint32 built_in_id_prop_p ;;
  let builtin_id := Z.to_nat built_in_id_value in
  JERRY_ASSERT_M (ecma_builtin_is fuel obj_p builtin_id) ;;;
  switch builtin_id
    (map (fun entry =>
            (entry_builtin_id entry,
             if decide (entry_object_type entry = ECMA_OBJECT_TYPE_FUNCTION)
             then ecma_builtin_other_dispatch_construct (entry_lowercase_name entry) arguments_list_p
             else abort UNREACHABLE))
         ECMA_BUILTIN_LIST
     ++ [ (ECMA_BUILTIN_ID__COUNT, abort UNREACHABLE) ])
    DISPATCH_DEFAULT.

End Dispatch.

(** ** Well-formedness of the tables and of the state *)

Section WellFormed.

Context `{build_t, magic_strings_t, builtins_t}.

(** The entry of [ECMA_BUILTIN_LIST] that the [case] labels of a switch
    over the list select. *)
Definition find_builtin_entry (id : nat) : option builtin_descriptor_t :=
  switch id (map (fun entry => (entry_builtin_id entry, Some entry)) ECMA_BUILTIN_LIST) None.

(** The prototypes declared from [id] on reach an entry without prototype
    within [fuel] entries, every identifier met being below
    [ECMA_BUILTIN_ID__COUNT] and having an entry. *)
Fixpoint prototype_chain_ends (fuel : nat) (id : nat) : bool :=
  match fuel with
  | O => false
  | S fuel' =>
      match find_builtin_entry id with
      | None => false
      | Some entry =>
          bool_decide (id < ECMA_BUILTIN_ID__COUNT)%nat
          && (bool_decide (entry_object_prototype_builtin_id entry = ECMA_BUILTIN_ID__COUNT)
              || prototype_chain_ends fuel' (entry_object_prototype_builtin_id entry))
      end
  end.

(** The invariant of the static table: one entry per identifier below the
    count, and an acyclic prototype graph over these identifiers. *)
Definition builtin_list_wf : bool :=
  forallb (prototype_chain_ends ECMA_BUILTIN_ID__COUNT) (seq 0 ECMA_BUILTIN_ID__COUNT).

(** The invariant of the registry: one slot per identifier, and every
    instantiated slot designates an object of the heap. *)
Definition registry_wf (s : ecma_state_t) : Prop :=
  length (ecma_builtin_objects s) = ECMA_BUILTIN_ID__COUNT /\
  forall (id : nat) (obj_p : ecma_object_ptr),
    ecma_builtin_objects s !! id = Some (Some obj_p) -> (obj_p < length (heap s))%nat.

(** The layout of a routine identifier: two fields that do not overlap,
    that lie within 32 bits, and that are wide enough for the identifiers of
    the built-in objects and of the magic strings. *)
Definition routine_id_layout_wf : Prop :=
  0 <= ECMA_BUILTIN_ROUTINE_ID_BUILT_IN_OBJECT_ID_POS /\
  0 <= ECMA_BUILTIN_ROUTINE_ID_BUILT_IN_OBJECT_ID_WIDTH /\
  0 <= ECMA_BUILTIN_ROUTINE_ID_BUILT_IN_ROUTINE_ID_POS /\
  0 <= ECMA_BUILTIN_ROUTINE_ID_BUILT_IN_ROUTINE_ID_WIDTH /\
  (ECMA_BUILTIN_ROUTINE_ID_BUILT_IN_OBJECT_ID_POS
     + ECMA_BUILTIN_ROUTINE_ID_BUILT_IN_OBJECT_ID_WIDTH
     <= ECMA_BUILTIN_ROUTINE_ID_BUILT_IN_ROUTINE_ID_POS \/
   ECMA_BUILTIN_ROUTINE_ID_BUILT_IN_ROUTINE_ID_POS
     + ECMA_BUILTIN_ROUTINE_ID_BUILT_IN_ROUTINE_ID_WIDTH
     <= ECMA_BUILTIN_ROUTINE_ID_BUILT_IN_OBJECT_ID_POS) /\
  ECMA_BUILTIN_ROUTINE_ID_BUILT_IN_OBJECT_ID_POS
    + ECMA_BUILTIN_ROUTINE_ID_BUILT_IN_OBJECT_ID_WIDTH <= 32 /\
  ECMA_BUILTIN_ROUTINE_ID_BUILT_IN_ROUTINE_ID_POS
    + ECMA_BUILTIN_ROUTINE_ID_BUILT_IN_ROUTINE_ID_WIDTH <= 32 /\
  Z.of_nat ECMA_BUILTIN_ID__COUNT <= 2 ^ ECMA_BUILTIN_ROUTINE_ID_BUILT_IN_OBJECT_ID_WIDTH /\
  ECMA_MAGIC_STRING__COUNT <= 2 ^ ECMA_BUILTIN_ROUTINE_ID_BUILT_IN_ROUTINE_ID_WIDTH.

End WellFormed.

(** Two objects that differ at most in their reference counters. *)
Definition same_object (obj obj' : ecma_object_t) : Prop :=
  with_refs 0 obj = with_refs 0 obj'.

(** What every routine of the subsystem preserves: the objects of the heap
    stay where they are, up to their reference counters, and the
    instantiated slots of the registry keep their objects. *)
Definition state_extends (s s' : ecma_state_t) : Prop :=
  (forall (obj_p : ecma_object_ptr) (obj : ecma_object_t),
     heap s !! obj_p = Some obj ->
     exists obj', heap s' !! obj_p = Some obj' /\ same_object obj obj') /\
  length (ecma_builtin_objects s') = length (ecma_builtin_objects s) /\
  (forall (id : nat) (obj_p : ecma_object_ptr),
     ecma_builtin_objects s !! id = Some (Some obj_p) ->
     ecma_builtin_objects s' !! id = Some (Some obj_p)).

(** ** Vocabulary of the properties *)

(** The precondition of the search: the identifiers ascend strictly. *)
Definition strictly_ascending (ids : list Z) : Prop :=
  forall (i j : nat) (x y : Z),
    ids !! i = Some x -> ids !! j = Some y -> (i < j)%nat -> x < y.

(** [yields c s Q]: run from [s], the routine [c] returns a result and a
    state that satisfy [Q]. *)
Definition yields {A : Type} (c : M A) (s : ecma_state_t) (Q : A -> ecma_state_t -> Prop) : Prop :=
  exists (a : A) (s' : ecma_state_t), c s = Ok (a, s') /\ Q a s'.


(** A fresh built-in object: what [ecma_builtin_init_object] leaves at the
    end of the heap. *)
Definition fresh_builtin_object (id : nat) (proto : option ecma_object_ptr)
    (type : ecma_object_type_t) (obj : ecma_object_t) : Prop :=
  object_prototype obj = proto /\
  object_kind obj = type /\
  object_is_builtin obj = true /\
  object_is_lexical_environment obj = false /\
  find_property (KEY_INTERNAL ECMA_INTERNAL_PROPERTY_BUILT_IN_ID) (object_properties obj)
    = Some (ECMA_PROPERTY_INTERNAL ECMA_INTERNAL_PROPERTY_BUILT_IN_ID
              (INTERNAL_UINT32 (Z.of_nat id))) /\
  forall name, find_property (KEY_NAMED name) (object_properties obj) = None.


Section Instantiated.

Context `{builtins_t}.

(** What [ecma_instantiate_builtin] leaves behind for the identifier. *)
Definition instantiated (id : nat) (s0 s' : ecma_state_t) : Prop :=
  exists entry p obj,
    find_builtin_entry id = Some entry /\
    ecma_builtin_objects s' !! id = Some (Some p) /\
    (length (heap s0) <= p)%nat /\
    heap s' !! p = Some obj /\
    fresh_builtin_object id (object_prototype obj) (entry_object_type entry) obj /\
    (if decide (entry_object_prototype_builtin_id entry = ECMA_BUILTIN_ID__COUNT)
     then object_prototype obj = None
     else exists q,
            ecma_builtin_objects s' !! entry_object_prototype_builtin_id entry = Some (Some q) /\
            object_prototype obj = Some q).

End Instantiated.

(** The pointer designates an object of the heap that is not a lexical
    environment, as [ecma_builtin_is] asserts of its argument. *)
Definition is_object (s : ecma_state_t) (obj_p : ecma_object_ptr) : Prop :=
  exists obj, heap s !! obj_p = Some obj /\ object_is_lexical_environment obj = false.

Section RoutineVocabulary.

Context `{build_t, magic_strings_t, collaborators_t}.

(** The routine that the [case] labels of the Global object's dispatcher
    select for an identifier. *)
Definition find_global_routine (id : Z) : option routine_property_t :=
  switch id
    (map (fun entry => (routine_name entry, Some entry))
         ECMA_BUILTIN_GLOBAL_OBJECT_ROUTINES_PROPERTY_LIST)
    None.

End RoutineVocabulary.

(** The call of a routine's C function on a list of actual arguments, one
    per formal parameter. *)
Definition routine_call (f : routine_function_t) (actuals : list ecma_value_t)
    : option (M ecma_completion_value_t) :=
  match f, actuals with
  | ROUTINE_FUNCTION_1 f, [x] => Some (f x)
  | ROUTINE_FUNCTION_2 f, [x; y] => Some (f x y)
  | _, _ => None
  end.

Section GlobalVocabulary.

Context `{build_t, magic_strings_t, builtins_t, collaborators_t}.

(** What the code takes for granted of the headers: the invariant of
    [ECMA_BUILTIN_LIST], the layout of a routine identifier, the order of
    the Global object's property names among the magic strings, and the
    built-in identifiers it names being identifiers. *)
Definition headers_wf : Prop :=
  builtin_list_wf = true /\
  routine_id_layout_wf /\
  strictly_ascending ecma_builtin_global_property_names /\
  Forall (fun id => 0 <= id < ECMA_MAGIC_STRING__COUNT) ecma_builtin_global_property_names /\
  Forall (fun id => id < ECMA_BUILTIN_ID__COUNT)%nat
    [ ECMA_BUILTIN_ID_GLOBAL; ECMA_BUILTIN_ID_OBJECT; ECMA_BUILTIN_ID_MATH;
      ECMA_BUILTIN_ID_STRING; ECMA_BUILTIN_ID_BOOLEAN; ECMA_BUILTIN_ID_NUMBER;
      ECMA_BUILTIN_ID_ARRAY; ECMA_BUILTIN_ID_FUNCTION; ECMA_BUILTIN_ID_FUNCTION_PROTOTYPE ] /\
  (CONFIG_ECMA_COMPACT_PROFILE = true ->
   (ECMA_BUILTIN_ID_COMPACT_PROFILE_ERROR < ECMA_BUILTIN_ID__COUNT)%nat).

(** The object is the Global object of the registry, as the routine asserts
    of its argument. *)
Definition is_global_object (s : ecma_state_t) (obj_p : ecma_object_ptr) : Prop :=
  (ECMA_BUILTIN_ID_GLOBAL < ECMA_BUILTIN_ID__COUNT)%nat /\
  ecma_builtin_objects s !! ECMA_BUILTIN_ID_GLOBAL = Some (Some obj_p) /\
  is_object s obj_p.

End GlobalVocabulary.

(** The properties of an object of the heap. *)
Definition properties_of (s : ecma_state_t) (obj_p : ecma_object_ptr) : list ecma_property_t :=
  match heap s !! obj_p with
  | Some obj => object_properties obj
  | None => []
  end.

(** The named properties of a list that have the name. *)
Definition named_properties (name : ecma_string_t) (props : list ecma_property_t)
    : list ecma_property_t :=
  filter (fun prop => property_key prop = KEY_NAMED name) props.

(** The lazy-instantiation bitmask among the properties: the value of the
    internal property when the object has it, no bit otherwise. *)
Definition instantiated_mask (props : list ecma_property_t) : option Z :=
  match find_property (KEY_INTERNAL ECMA_INTERNAL_PROPERTY_NON_INSTANTIATED_BUILT_IN_MASK_0_31)
          props with
  | None => Some 0
  | Some (ECMA_PROPERTY_INTERNAL _ (INTERNAL_UINT32 bit_mask)) => Some bit_mask
  | Some _ => None
  end.

(** The bit of the property of index [index] is set in the bitmask. *)
Definition is_instantiated (props : list ecma_property_t) (index : nat) : bool :=
  match instantiated_mask props with
  | Some bit_mask => Z.testbit bit_mask (Z.of_nat index)
  | None => false
  end.

(** The function object of a built-in routine, as
    [ecma_builtin_make_function_object_for_routine] makes it. *)
Definition routine_function_object `{magic_strings_t, builtins_t} (builtin_id : nat) (routine_id : Z)
    (length_prop_num_value : ecma_number_t) (prototype_obj_p : ecma_object_ptr)
    (obj : ecma_object_t) : Prop :=
  object_kind obj = ECMA_OBJECT_TYPE_BUILT_IN_FUNCTION /\
  object_is_builtin obj = true /\
  object_prototype obj = Some prototype_obj_p /\
  object_properties obj
  = [ ECMA_PROPERTY_NAMEDDATA (ecma_get_magic_string ECMA_MAGIC_STRING_LENGTH)
        (ecma_make_number_value length_prop_num_value) false false false;
      ECMA_PROPERTY_INTERNAL ECMA_INTERNAL_PROPERTY_BUILT_IN_ROUTINE_ID
        (INTERNAL_UINT32 (to_uint32 (routine_id_packed_value builtin_id routine_id))) ].

(** The objects other than [obj_p] are in [s'] what they are in [s], up to
    their reference counters, and the registry is the same. *)
Definition frame_except (obj_p : ecma_object_ptr) (s s' : ecma_state_t) : Prop :=
  ecma_builtin_objects s' = ecma_builtin_objects s /\
  forall (q : ecma_object_ptr) (obj : ecma_object_t),
    q <> obj_p -> heap s !! q = Some obj ->
    exists obj', heap s' !! q = Some obj' /\ same_object obj obj'.

(** A case of the [switch] that ends in [break]: the registry invariant
    holds, the objects of the heap are as they were up to their reference
    counters, and an object value designates an object. *)
Definition break_post `{builtins_t} (s : ecma_state_t) (exit : switch_exit_t)
    (s' : ecma_state_t) : Prop :=
  exists value writable enumerable configurable,
    exit = SWITCH_BREAK value writable enumerable configurable /\
    registry_wf s' /\ state_extends s s' /\
    match value with
    | ECMA_TYPE_OBJECT value_obj_p => (value_obj_p < length (heap s'))%nat
    | _ => True
    end.

(** ** A configuration to run the model on *)

(** The headers of the engine are not among the files; the definitions
    below give the model one consistent choice of what they declare, on
    which the routines are evaluated. *)
Definition sample_build (ndebug compact_profile : bool) : build_t :=
  {| JERRY_NDEBUG := ndebug; CONFIG_ECMA_COMPACT_PROFILE := compact_profile |}.

Definition sample_magic_strings : magic_strings_t :=
  {| ECMA_MAGIC_STRING_EVAL := 1;
     ECMA_MAGIC_STRING_UNDEFINED := 6;
     ECMA_MAGIC_STRING_NAN := 16;
     ECMA_MAGIC_STRING_INFINITY_UL := 17;
     ECMA_MAGIC_STRING_OBJECT_UL := 20;
     ECMA_MAGIC_STRING_FUNCTION_UL := 21;
     ECMA_MAGIC_STRING_ARRAY_UL := 22;
     ECMA_MAGIC_STRING_STRING_UL := 24;
     ECMA_MAGIC_STRING_BOOLEAN_UL := 25;
     ECMA_MAGIC_STRING_NUMBER_UL := 26;
     ECMA_MAGIC_STRING_DATE_UL := 27;
     ECMA_MAGIC_STRING_REG_EXP_UL := 28;
     ECMA_MAGIC_STRING_ERROR_UL := 29;
     ECMA_MAGIC_STRING_EVAL_ERROR_UL := 30;
     ECMA_MAGIC_STRING_RANGE_ERROR_UL := 31;
     ECMA_MAGIC_STRING_REFERENCE_ERROR_UL := 32;
     ECMA_MAGIC_STRING_SYNTAX_ERROR_UL := 33;
     ECMA_MAGIC_STRING_TYPE_ERROR_UL := 34;
     ECMA_MAGIC_STRING_URI_ERROR_UL := 35;
     ECMA_MAGIC_STRING_MATH_UL := 36;
     ECMA_MAGIC_STRING_JSON_U := 37;
     ECMA_MAGIC_STRING_PARSE_INT := 38;
     ECMA_MAGIC_STRING_PARSE_FLOAT := 39;
     ECMA_MAGIC_STRING_IS_NAN := 40;
     ECMA_MAGIC_STRING_IS_FINITE := 41;
     ECMA_MAGIC_STRING_DECODE_URI := 42;
     ECMA_MAGIC_STRING_DECODE_URI_COMPONENT := 43;
     ECMA_MAGIC_STRING_ENCODE_URI := 44;
     ECMA_MAGIC_STRING_ENCODE_URI_COMPONENT := 45;
     ECMA_MAGIC_STRING_COMPACT_PROFILE_ERROR_UL := 46;
     ECMA_MAGIC_STRING_LENGTH := 15;
     ECMA_MAGIC_STRING__EMPTY := 47;
     ECMA_MAGIC_STRING__COUNT := 48 |}.

Definition sample_entry (id : nat) (type : ecma_object_type_t) (class : Z) (prototype : nat)
    (name : string) : builtin_descriptor_t :=
  {| entry_builtin_id := id;
     entry_object_type := type;
     entry_object_class := class;
     entry_object_prototype_builtin_id := prototype;
     entry_lowercase_name := name |}.

(** Fifteen built-in objects: the Global object, six constructors with
    their prototypes, Math and CompactProfileError. *)
Definition sample_builtins : builtins_t :=
  {| ECMA_BUILTIN_ID_GLOBAL := 0;
     ECMA_BUILTIN_ID_OBJECT := 1;
     ECMA_BUILTIN_ID_MATH := 13;
     ECMA_BUILTIN_ID_STRING := 7;
     ECMA_BUILTIN_ID_BOOLEAN := 9;
     ECMA_BUILTIN_ID_NUMBER := 11;
     ECMA_BUILTIN_ID_ARRAY := 5;
     ECMA_BUILTIN_ID_FUNCTION := 3;
     ECMA_BUILTIN_ID_FUNCTION_PROTOTYPE := 4;
     ECMA_BUILTIN_ID_STRING_PROTOTYPE := 8;
     ECMA_BUILTIN_ID_NUMBER_PROTOTYPE := 12;
     ECMA_BUILTIN_ID_BOOLEAN_PROTOTYPE := 10;
     ECMA_BUILTIN_ID_COMPACT_PROFILE_ERROR := 14;
     ECMA_BUILTIN_ID__COUNT := 15;
     ECMA_BUILTIN_LIST :=
       [ sample_entry 2 ECMA_OBJECT_TYPE_GENERAL 20 15 "object_prototype";
         sample_entry 4 ECMA_OBJECT_TYPE_FUNCTION 21 2 "function_prototype";
         sample_entry 6 ECMA_OBJECT_TYPE_GENERAL 22 2 "array_prototype";
         sample_entry 8 ECMA_OBJECT_TYPE_GENERAL 24 2 "string_prototype";
         sample_entry 10 ECMA_OBJECT_TYPE_GENERAL 25 2 "boolean_prototype";
         sample_entry 12 ECMA_OBJECT_TYPE_GENERAL 26 2 "number_prototype";
         sample_entry 1 ECMA_OBJECT_TYPE_FUNCTION 20 4 "object";
         sample_entry 13 ECMA_OBJECT_TYPE_GENERAL 36 2 "math";
         sample_entry 5 ECMA_OBJECT_TYPE_FUNCTION 22 4 "array";
         sample_entry 7 ECMA_OBJECT_TYPE_FUNCTION 24 4 "string";
         sample_entry 9 ECMA_OBJECT_TYPE_FUNCTION 25 4 "boolean";
         sample_entry 11 ECMA_OBJECT_TYPE_FUNCTION 26 4 "number";
         sample_entry 3 ECMA_OBJECT_TYPE_FUNCTION 21 4 "function";
         sample_entry 14 ECMA_OBJECT_TYPE_FUNCTION 46 4 "compact_profile_error";
         sample_entry 0 ECMA_OBJECT_TYPE_GENERAL 20 2 "global" ];
     ECMA_BUILTIN_ROUTINE_ID_BUILT_IN_OBJECT_ID_POS := 0;
     ECMA_BUILTIN_ROUTINE_ID_BUILT_IN_OBJECT_ID_WIDTH := 16;
     ECMA_BUILTIN_ROUTINE_ID_BUILT_IN_ROUTINE_ID_POS := 16;
     ECMA_BUILTIN_ROUTINE_ID_BUILT_IN_ROUTINE_ID_WIDTH := 16 |}.

(** Collaborators that convert the values this code makes and that leave
    every other built-in routine unimplemented. *)
Definition sample_collaborators : collaborators_t :=
  {| ecma_op_to_number := fun value =>
       match value with
       | ECMA_TYPE_NUMBER num =>
           ret {| completion_type := ECMA_COMPLETION_TYPE_NORMAL;
                  completion_value := ECMA_TYPE_NUMBER num |}
       | ECMA_TYPE_SIMPLE ECMA_SIMPLE_VALUE_UNDEFINED =>
           ret {| completion_type := ECMA_COMPLETION_TYPE_NORMAL;
                  completion_value := ECMA_TYPE_NUMBER ECMA_NUMBER_NAN |}
       | ECMA_TYPE_SIMPLE ECMA_SIMPLE_VALUE_TRUE =>
           ret {| completion_type := ECMA_COMPLETION_TYPE_NORMAL;
                  completion_value := ECMA_TYPE_NUMBER (ECMA_NUMBER_FINITE 1) |}
       | ECMA_TYPE_SIMPLE _ =>
           ret {| completion_type := ECMA_COMPLETION_TYPE_NORMAL;
                  completion_value := ECMA_TYPE_NUMBER ECMA_NUMBER_ZERO |}
       | _ =>
           ret {| completion_type := ECMA_COMPLETION_TYPE_THROW;
                  completion_value := value |}
       end;
     ECMA_BUILTIN_CP_UNIMPLEMENTED := fun _ => abort UNIMPLEMENTED;
     ecma_builtin_other_try_to_instantiate_property := fun _ _ _ => ret None;
     ecma_builtin_other_dispatch_call := fun _ _ => abort UNIMPLEMENTED;
     ecma_builtin_other_dispatch_construct := fun _ _ => abort UNIMPLEMENTED;
     ecma_builtin_other_dispatch_routine := fun _ _ _ _ => abort UNIMPLEMENTED |}.

(** The state of an engine in which one plain object exists and the
    registry has just been initialised. *)
Definition sample_state : ecma_state_t :=
  {| heap := [ {| object_prototype := None;
                  object_is_extensible := true;
                  object_kind := ECMA_OBJECT_TYPE_GENERAL;
                  object_is_builtin := false;
                  object_is_lexical_environment := false;
                  object_refs := 1;
                  object_properties := [] |} ];
     ecma_builtin_objects := replicate 15 None |}.

(** The registry invariant as a check. *)
Definition registry_wf_check `{builtins_t} (s : ecma_state_t) : bool :=
  bool_decide (length (ecma_builtin_objects s) = ECMA_BUILTIN_ID__COUNT)
  && forallb (fun slot => match slot with
                          | Some obj_p => bool_decide (obj_p < length (heap s))%nat
                          | None => true
                          end) (ecma_builtin_objects s).

(** The sample state once the Global object has been obtained from the
    registry, and the Global object in it (at pointer 2, after the object
    of the sample state and Object.prototype). *)
Definition sample_global_state : ecma_state_t :=
  Eval vm_compute in
    match @ecma_builtin_get (sample_build false false) sample_magic_strings sample_builtins
            15 0 sample_state with
    | Ok (_, s) => s
    | Abort _ => sample_state
    end.

Definition sample_global_object : ecma_object_t :=
  Eval vm_compute in
    match heap sample_global_state !! 2%nat with
    | Some obj => obj
    | None => {| object_prototype := None;
                 object_is_extensible := true;
                 object_kind := ECMA_OBJECT_TYPE_GENERAL;
                 object_is_builtin := false;
                 object_is_lexical_environment := false;
                 object_refs := 0;
                 object_properties := [] |}
    end.

(** ** Vocabulary of the registry's invariants *)

Section RegistryVocabulary.

Context `{builtins_t}.

(** Every object of the registry is the built-in object of its slot: a
    built-in object of the type its entry declares, which carries the
    identifier of the slot in its internal property. *)
Definition registry_tagged (s : ecma_state_t) : Prop :=
  forall (id : nat) (p : ecma_object_ptr),
    ecma_builtin_objects s !! id = Some (Some p) ->
    exists (entry : builtin_descriptor_t) (obj : ecma_object_t),
      find_builtin_entry id = Some entry /\
      heap s !! p = Some obj /\
      object_is_builtin obj = true /\
      object_is_lexical_environment obj = false /\
      object_kind obj = entry_object_type entry /\
      find_property (KEY_INTERNAL ECMA_INTERNAL_PROPERTY_BUILT_IN_ID) (object_properties obj)
      = Some (ECMA_PROPERTY_INTERNAL ECMA_INTERNAL_PROPERTY_BUILT_IN_ID
                (INTERNAL_UINT32 (Z.of_nat id))).

(** The number of slots of the registry that hold the object. *)
Definition registry_references (s : ecma_state_t) (p : ecma_object_ptr) : nat :=
  length (filter (fun id => ecma_builtin_objects s !! id = Some (Some p))
            (seq 0 ECMA_BUILTIN_ID__COUNT)).

(** The registry owns one reference to an object for each slot that holds
    it: every object of the heap has at least that many references. *)
Definition registry_references_owned (s : ecma_state_t) : Prop :=
  forall (p : ecma_object_ptr) (obj : ecma_object_t),
    heap s !! p = Some obj -> (registry_references s p <= object_refs obj)%nat.

(** The [for] loop of [ecma_init_builtins], statement by statement: the
    slot of every identifier below [ECMA_BUILTIN_ID__COUNT] is assigned
    [NULL], in ascending order.  The assignment is [set_builtin_object],
    which is out of bounds on an array that has no such slot. *)
Definition ecma_init_builtins_loop : M unit :=
  foldr (fun id rest => set_builtin_object id None ;;; rest) (ret tt)
    (seq 0 ECMA_BUILTIN_ID__COUNT).

(** What [ecma_instantiate_builtin] does to the engine: it appends objects
    with one reference each to the heap, fills slots that were empty with
    these objects, and keeps the invariants of the registry. *)
Definition instantiation (s s' : ecma_state_t) : Prop :=
  registry_wf s' /\
  registry_tagged s' /\
  (exists new : list ecma_object_t,
     heap s' = heap s ++ new /\ Forall (fun obj => object_refs obj = 1%nat) new) /\
  (forall (id : nat) (p : ecma_object_ptr),
     ecma_builtin_objects s !! id = Some (Some p) ->
     ecma_builtin_objects s' !! id = Some (Some p)) /\
  (forall (id : nat) (p : ecma_object_ptr),
     ecma_builtin_objects s' !! id = Some (Some p) ->
     ecma_builtin_objects s !! id = Some (Some p) \/ (length (heap s) <= p)%nat).

End RegistryVocabulary.

(** The object [ecma_builtin_init_object] leaves at the end of the heap:
    extensible, marked built-in, with one reference, the class and the
    identifier in its internal properties, no named property, and a
    primitive value for String.prototype, Number.prototype and
    Boolean.prototype only. *)
Definition builtin_object_initialised `{magic_strings_t, builtins_t} (id : nat)
    (proto : option ecma_object_ptr) (type : ecma_object_type_t) (cls : Z)
    (obj : ecma_object_t) : Prop :=
  object_prototype obj = proto /\
  object_is_extensible obj = true /\
  object_kind obj = type /\
  object_is_builtin obj = true /\
  object_is_lexical_environment obj = false /\
  object_refs obj = 1%nat /\
  (forall name : ecma_string_t,
     find_property (KEY_NAMED name) (object_properties obj) = None) /\
  find_property (KEY_INTERNAL ECMA_INTERNAL_PROPERTY_CLASS) (object_properties obj)
  = Some (ECMA_PROPERTY_INTERNAL ECMA_INTERNAL_PROPERTY_CLASS (INTERNAL_UINT32 cls)) /\
  find_property (KEY_INTERNAL ECMA_INTERNAL_PROPERTY_BUILT_IN_ID) (object_properties obj)
  = Some (ECMA_PROPERTY_INTERNAL ECMA_INTERNAL_PROPERTY_BUILT_IN_ID
            (INTERNAL_UINT32 (Z.of_nat id))) /\
  find_property (KEY_INTERNAL ECMA_INTERNAL_PROPERTY_PRIMITIVE_STRING_VALUE)
    (object_properties obj)
  = (if decide (id = ECMA_BUILTIN_ID_STRING_PROTOTYPE)
     then Some (ECMA_PROPERTY_INTERNAL ECMA_INTERNAL_PROPERTY_PRIMITIVE_STRING_VALUE
                  (INTERNAL_STRING (ecma_get_magic_string ECMA_MAGIC_STRING__EMPTY)))
     else None) /\
  find_property (KEY_INTERNAL ECMA_INTERNAL_PROPERTY_PRIMITIVE_NUMBER_VALUE)
    (object_properties obj)
  = (if decide (id = ECMA_BUILTIN_ID_NUMBER_PROTOTYPE)
     then Some (ECMA_PROPERTY_INTERNAL ECMA_INTERNAL_PROPERTY_PRIMITIVE_NUMBER_VALUE
                  (INTERNAL_NUMBER ECMA_NUMBER_ZERO))
     else None) /\
  find_property (KEY_INTERNAL ECMA_INTERNAL_PROPERTY_PRIMITIVE_BOOLEAN_VALUE)
    (object_properties obj)
  = (if decide (id = ECMA_BUILTIN_ID_BOOLEAN_PROTOTYPE)
     then Some (ECMA_PROPERTY_INTERNAL ECMA_INTERNAL_PROPERTY_PRIMITIVE_BOOLEAN_VALUE
                  (INTERNAL_SIMPLE ECMA_SIMPLE_VALUE_FALSE))
     else None).

(** ** More states of the sample configuration *)

(** The sample state once the Object constructor has been obtained from
    the registry (at pointer 3, after Object.prototype and
    Function.prototype). *)
Definition sample_object_state : ecma_state_t :=
  Eval vm_compute in
    match @ecma_builtin_get (sample_build false false) sample_magic_strings sample_builtins
            15 1 sample_state with
    | Ok (_, s) => s
    | Abort _ => sample_state
    end.

(** The state of the Global object once a function object has been made for
    its routine parseInt (at pointer 4), and that function object. *)
Definition sample_function_state : ecma_state_t :=
  Eval vm_compute in
    match @ecma_builtin_make_function_object_for_routine (sample_build false false)
            sample_magic_strings sample_builtins 15 0 38 (ECMA_NUMBER_FINITE 2)
            sample_global_state with
    | Ok (_, s) => s
    | Abort _ => sample_state
    end.

Definition sample_function_object : ecma_object_t :=
  Eval vm_compute in
    match heap sample_function_state !! 4%nat with
    | Some obj => obj
    | None => sample_global_object
    end.

(** ** The CompactProfileError built-in *)

Section CompactProfileError.

Context `{builtins_t, collaborators_t}.

(** Modelled from the spec: the CompactProfileError built-in, whose entry of
    [ECMA_BUILTIN_LIST] (in [ecma-builtins.inc]) and whose [[Call]] handler
    [ecma_builtin_compact_profile_error_dispatch_call] are not among the
    sources.  The spec has it as the function that throws on use, which the
    Global object's slots of the omitted members get as getter and setter:
    it is a function object of its own, other than the Global object, and
    its handler, run with any arguments in a state whose registry holds the
    object, returns a throw completion. *)
Definition compact_profile_error_throws : Prop :=
  ECMA_BUILTIN_ID_COMPACT_PROFILE_ERROR <> ECMA_BUILTIN_ID_GLOBAL /\
  exists entry : builtin_descriptor_t,
    find_builtin_entry ECMA_BUILTIN_ID_COMPACT_PROFILE_ERROR = Some entry /\
    entry_object_type entry = ECMA_OBJECT_TYPE_FUNCTION /\
    forall (arguments_list : list ecma_value_t) (s : ecma_state_t) (error_p : ecma_object_ptr),
      registry_wf s ->
      ecma_builtin_objects s !! ECMA_BUILTIN_ID_COMPACT_PROFILE_ERROR = Some (Some error_p) ->
      exists (completion : ecma_completion_value_t) (s' : ecma_state_t),
        ecma_builtin_other_dispatch_call (entry_lowercase_name entry) arguments_list s
        = Ok (completion, s') /\
        ecma_is_completion_value_throw completion = true.

End CompactProfileError.

(** The sample collaborators with a CompactProfileError handler that throws
    the CompactProfileError object of the registry. *)
Definition sample_throwing_collaborators : collaborators_t :=
  {| ecma_op_to_number := @ecma_op_to_number sample_collaborators;
     ECMA_BUILTIN_CP_UNIMPLEMENTED := @ECMA_BUILTIN_CP_UNIMPLEMENTED sample_collaborators;
     ecma_builtin_other_try_to_instantiate_property :=
       @ecma_builtin_other_try_to_instantiate_property sample_collaborators;
     ecma_builtin_other_dispatch_call := fun lowercase_name _ =>
       if decide (lowercase_name = "compact_profile_error")
       then error_p <- @ecma_builtin_get (sample_build false true) sample_magic_strings
                         sample_builtins 15 14 ;;
            ret {| completion_type := ECMA_COMPLETION_TYPE_THROW;
                   completion_value := ecma_make_object_value error_p |}
       else abort UNIMPLEMENTED;
     ecma_builtin_other_dispatch_construct :=
       @ecma_builtin_other_dispatch_construct sample_collaborators;
     ecma_builtin_other_dispatch_routine :=
       @ecma_builtin_other_dispatch_routine sample_collaborators |}.

(** * Properties *)

(** ** Machine integers *)

Lemma to_int32_id (z : Z) : - 2 ^ 31 <= z < 2 ^ 31 -> to_int32 z = z.
Proof.
  intros Hz. unfold to_int32.
  rewrite Z.mod_small by lia. lia.
Qed.

Lemma to_uint32_id (z : Z) : 0 <= z < 2 ^ 32 -> to_uint32 z = z.
Proof. intros Hz. unfold to_uint32. now rewrite Z.mod_small. Qed.

Lemma to_uint64_id (z : Z) : 0 <= z < 2 ^ 64 -> to_uint64 z = z.
Proof. intros Hz. unfold to_uint64. now rewrite Z.mod_small. Qed.

Lemma array_get_nat {A : Type} (a : list A) (i : nat) : array_get a (Z.of_nat i) = a !! i.
Proof.
  unfold array_get. destruct (Z.ltb_spec (Z.of_nat i) 0); [lia|].
  now rewrite Nat2Z.id.
Qed.

Lemma array_get_Some {A : Type} (a : list A) (i : Z) (x : A) :
  array_get a i = Some x -> 0 <= i < Z.of_nat (length a) /\ a !! Z.to_nat i = Some x.
Proof.
  unfold array_get. destruct (Z.ltb_spec i 0); [discriminate|].
  intros Hx. split; [|exact Hx].
  apply lookup_lt_Some in Hx. lia.
Qed.

(** ** Binary search *)

Lemma strictly_ascending_tail (x : Z) (ids : list Z) :
  strictly_ascending (x :: ids) -> strictly_ascending ids.
Proof.
  intros Hs i j a b Hi Hj Hij.
  apply (Hs (S i) (S j) a b); simpl; auto with lia.
Qed.

Lemma ids_are_sorted_ascending (ids : list Z) :
  ids_are_sorted ids = true <-> strictly_ascending ids.
Proof.
  induction ids as [|x rest IH].
  - split; [|reflexivity]. intros _ i j a b Hi. now rewrite lookup_nil in Hi.
  - destruct rest as [|y rest'].
    + split; [|reflexivity]. intros _ i j a b Hi Hj Hij.
      destruct j as [|j]; [lia|]. simpl in Hj. now rewrite lookup_nil in Hj.
    + change (ids_are_sorted (x :: y :: rest'))
        with ((x <? y) && ids_are_sorted (y :: rest')).
      rewrite andb_true_iff, Z.ltb_lt, IH. split.
      * intros [Hxy Hrest] i j a b Hi Hj Hij.
        destruct i as [|i], j as [|j]; try lia; simpl in Hi, Hj.
        -- injection Hi as <-.
           destruct j as [|j]; simpl in Hj.
           ++ injection Hj as <-. exact Hxy.
           ++ assert (y < b) by (apply (Hrest 0%nat (S j) y b); simpl; auto with lia).
              lia.
        -- apply (Hrest i j a b); auto with lia.
      * intros Hs. split.
        -- apply (Hs 0%nat 1%nat x y); simpl; auto with lia.
        -- eapply strictly_ascending_tail, Hs.
Qed.

Lemma strictly_ascending_unique (ids : list Z) (i j : nat) (x : Z) :
  strictly_ascending ids -> ids !! i = Some x -> ids !! j = Some x -> i = j.
Proof.
  intros Hs Hi Hj.
  destruct (Nat.lt_trichotomy i j) as [Hlt|[Heq|Hgt]]; [|exact Heq|].
  - pose proof (Hs i j x x Hi Hj Hlt). lia.
  - pose proof (Hs j i x x Hj Hi Hgt). lia.
Qed.

Section BinSearchProofs.

Context `{build_t}.

Lemma JERRY_ASSERT_true : JERRY_ASSERT true = Ok tt.
Proof. unfold JERRY_ASSERT. now destruct JERRY_NDEBUG. Qed.

(** The loop, started on a window [min .. max] outside of which the key
    does not occur, ends within the fuel on the index of the key or on -1. *)
Lemma bin_search_loop_spec (ids : list Z) (key : Z) :
  strictly_ascending ids ->
  Z.of_nat (length ids) <= 2 ^ 30 ->
  forall (fuel : nat) (min max : Z),
    0 <= min -> max < Z.of_nat (length ids) -> min <= max + 1 ->
    max - min + 1 <= Z.of_nat fuel ->
    (forall i : nat, ids !! i = Some key -> min <= Z.of_nat i <= max) ->
    exists r : Z,
      bin_search_loop fuel ids key min max = Ok r /\
      ((r = -1 /\ forall i : nat, ids !! i <> Some key) \/
       (0 <= r /\ ids !! Z.to_nat r = Some key)).
Proof.
  intros Hsorted Hlen fuel.
  induction fuel as [|fuel IH]; intros min max Hmin Hmax Hle Hfuel Hwin.
  - exists (-1). simpl. destruct (Z.leb_spec min max); [lia|].
    split; [reflexivity|]. left. split; [reflexivity|].
    intros i Hi. specialize (Hwin i Hi). lia.
  - simpl. destruct (Z.leb_spec min max) as [Hmm|Hmm].
    2:{ exists (-1). split; [reflexivity|]. left. split; [reflexivity|].
        intros i Hi. specialize (Hwin i Hi). lia. }
    rewrite (to_int32_id (min + max)) by lia.
    assert (Hmid : min <= (min + max) ÷ 2 <= max).
    { rewrite Z.quot_div_nonneg by lia.
      split; [apply Z.div_le_lower_bound|apply Z.div_le_upper_bound]; lia. }
    set (mid := (min + max) ÷ 2) in *.
    unfold array_get. destruct (Z.ltb_spec mid 0); [lia|].
    destruct (lookup_lt_is_Some_2 ids (Z.to_nat mid)) as [id_mid Hid]; [lia|].
    rewrite Hid.
    destruct (Z.eqb_spec id_mid key) as [->|Hne].
    { exists mid. split; [reflexivity|]. right. split; [lia|exact Hid]. }
    destruct (Z.gtb_spec id_mid key) as [Hgt|Hngt].
    + rewrite (to_int32_id (mid - 1)) by lia.
      apply IH; try lia.
      intros i Hi. specialize (Hwin i Hi).
      destruct (Z.le_gt_cases (Z.of_nat i) (mid - 1)); [lia|].
      assert (Z.to_nat mid <> i) by (intros <-; congruence).
      assert (id_mid < key); [|lia].
      apply (Hsorted (Z.to_nat mid) i); auto with lia.
    + assert (Hlt : id_mid < key) by lia.
      apply Z.ltb_lt in Hlt. rewrite Hlt, JERRY_ASSERT_true. simpl.
      apply Z.ltb_lt in Hlt.
      rewrite (to_int32_id (mid + 1)) by lia.
      apply IH; try lia.
      intros i Hi. specialize (Hwin i Hi).
      destruct (Z.le_gt_cases (mid + 1) (Z.of_nat i)); [lia|].
      assert (Z.to_nat mid <> i) by (intros <-; congruence).
      assert (key < id_mid); [|lia].
      apply (Hsorted i (Z.to_nat mid)); auto with lia.
Qed.

(** The search on a strictly ascending array: it returns, and its result is
    the index of the key, or -1 when the array does not hold the key. *)
Lemma bin_search_spec (ids : list Z) (key : Z) :
  strictly_ascending ids ->
  Z.of_nat (length ids) <= 2 ^ 30 ->
  exists r : Z,
    ecma_builtin_bin_search_for_magic_string_id_in_array ids key = Ok r /\
    (forall i : nat, ids !! i = Some key -> r = Z.of_nat i) /\
    (r = -1 <-> forall i : nat, ids !! i <> Some key) /\
    (r <> -1 -> 0 <= r /\ ids !! Z.to_nat r = Some key).
Proof.
  intros Hsorted Hlen.
  unfold ecma_builtin_bin_search_for_magic_string_id_in_array.
  assert (Hs : ids_are_sorted ids = true) by now apply ids_are_sorted_ascending.
  rewrite Hs, JERRY_ASSERT_true. simpl.
  rewrite to_int32_id by lia.
  destruct (bin_search_loop_spec ids key Hsorted Hlen (length ids) 0
              (Z.of_nat (length ids) - 1)) as (r & Hr & Hcases); try lia.
  { intros i Hi. apply lookup_lt_Some in Hi. lia. }
  exists r. split; [exact Hr|].
  destruct Hcases as [[-> Hnone]|[Hr0 Hfound]].
  - split; [|split].
    + intros i Hi. now destruct (Hnone i).
    + tauto.
    + congruence.
  - split; [|split].
    + intros i Hi.
      rewrite <- (strictly_ascending_unique ids _ _ key Hsorted Hfound Hi). lia.
    + split; [lia|]. intros Hnone. now destruct (Hnone (Z.to_nat r)).
    + auto.
Qed.

(** C4.  For every strictly ascending array of identifiers (of any length
    the 32-bit indices of the routine can address, the empty array included)
    and every key, the search returns a result; the result is the one index
    at which the array holds the key when there is such an index, and it is
    -1 exactly when no element equals the key. *)
Theorem bin_search_finds_unique_index (ids : list Z) (key : Z) :
  strictly_ascending ids ->
  Z.of_nat (length ids) <= 2 ^ 30 ->
  exists r : Z,
    ecma_builtin_bin_search_for_magic_string_id_in_array ids key = Ok r /\
    (forall i : nat, ids !! i = Some key -> r = Z.of_nat i) /\
    (r = -1 <-> forall i : nat, ids !! i <> Some key) /\
    (r <> -1 -> 0 <= r /\ ids !! Z.to_nat r = Some key).
Proof. exact (bin_search_spec ids key). Qed.

End BinSearchProofs.

Lemma bin_search_finds_unique_index_witness :
  exists r : Z,
    @ecma_builtin_bin_search_for_magic_string_id_in_array (sample_build false false)
      [1; 6; 16; 17; 20] 16 = Ok r /\
    (forall i : nat, [1; 6; 16; 17; 20] !! i = Some 16 -> r = Z.of_nat i) /\
    (r = -1 <-> forall i : nat, [1; 6; 16; 17; 20] !! i <> Some 16) /\
    (r <> -1 -> 0 <= r /\ [1; 6; 16; 17; 20] !! Z.to_nat r = Some 16).
Proof.
  apply (@bin_search_finds_unique_index (sample_build false false) [1; 6; 16; 17; 20] 16).
  - apply ids_are_sorted_ascending. reflexivity.
  - simpl. lia.
Defined.

(** ** Total correctness of routines *)

Lemma yields_ret {A : Type} (a : A) s (Q : A -> ecma_state_t -> Prop) :
  Q a s -> yields (ret a) s Q.
Proof. intros HQ. now exists a, s. Qed.

Lemma yields_bind {A B : Type} (c : M A) (k : A -> M B) s (Q : B -> ecma_state_t -> Prop) :
  yields c s (fun a s' => yields (k a) s' Q) -> yields (bind c k) s Q.
Proof.
  intros (a & s' & Hc & b & s'' & Hk & HQ).
  exists b, s''. unfold bind. now rewrite Hc.
Qed.

Lemma yields_weaken {A : Type} (c : M A) s (Q Q' : A -> ecma_state_t -> Prop) :
  yields c s Q -> (forall a s', Q a s' -> Q' a s') -> yields c s Q'.
Proof. intros (a & s' & Hc & HQ) Himp. exists a, s'. auto. Qed.

Lemma yields_run {A : Type} (c : M A) s a s' (Q : A -> ecma_state_t -> Prop) :
  c s = Ok (a, s') -> Q a s' -> yields c s Q.
Proof. intros Hc HQ. now exists a, s'. Qed.

Lemma yields_lift {A : Type} (c : outcome A) (a : A) s (Q : A -> ecma_state_t -> Prop) :
  c = Ok a -> Q a s -> yields (lift c) s Q.
Proof. intros -> HQ. now exists a, s. Qed.

Lemma yields_get_object p s o (Q : ecma_object_t -> ecma_state_t -> Prop) :
  heap s !! p = Some o -> Q o s -> yields (get_object p) s Q.
Proof. intros Hp HQ. exists o, s. unfold get_object. now rewrite Hp. Qed.

Lemma yields_modify_object p f s o (Q : unit -> ecma_state_t -> Prop) :
  heap s !! p = Some o ->
  Q tt {| heap := <[p := f o]> (heap s); ecma_builtin_objects := ecma_builtin_objects s |} ->
  yields (modify_object p f) s Q.
Proof. intros Hp HQ. eexists tt, _. unfold modify_object. rewrite Hp. eauto. Qed.

Lemma yields_create_object proto ext type s (Q : ecma_object_ptr -> ecma_state_t -> Prop) :
  Q (length (heap s))
    {| heap := heap s ++ [ {| object_prototype := proto;
                              object_is_extensible := ext;
                              object_kind := type;
                              object_is_builtin := false;
                              object_is_lexical_environment := false;
                              object_refs := 1;
                              object_properties := [] |} ];
       ecma_builtin_objects := ecma_builtin_objects s |} ->
  yields (ecma_create_object proto ext type) s Q.
Proof. intros HQ. eexists _, _. split; [reflexivity|exact HQ]. Qed.

Lemma yields_get_builtin_object id s slot (Q : option ecma_object_ptr -> ecma_state_t -> Prop) :
  ecma_builtin_objects s !! id = Some slot -> Q slot s -> yields (get_builtin_object id) s Q.
Proof. intros Hid HQ. exists slot, s. unfold get_builtin_object. now rewrite Hid. Qed.

Lemma yields_set_builtin_object id new s slot (Q : unit -> ecma_state_t -> Prop) :
  ecma_builtin_objects s !! id = Some slot ->
  Q tt {| heap := heap s; ecma_builtin_objects := <[id := new]> (ecma_builtin_objects s) |} ->
  yields (set_builtin_object id new) s Q.
Proof. intros Hid HQ. eexists tt, _. unfold set_builtin_object. rewrite Hid. eauto. Qed.

Lemma yields_add_property p prop s o (Q : ecma_property_ptr -> ecma_state_t -> Prop) :
  heap s !! p = Some o ->
  Q {| property_owner := p; property_ptr_key := property_key prop |}
    {| heap := <[p := with_properties (prop :: object_properties o) o]> (heap s);
       ecma_builtin_objects := ecma_builtin_objects s |} ->
  yields (add_property p prop) s Q.
Proof.
  intros Hp HQ. unfold add_property. apply yields_bind.
  eapply yields_modify_object; [exact Hp|]. now apply yields_ret.
Qed.

Lemma yields_load_property p key s o prop (Q : ecma_property_t -> ecma_state_t -> Prop) :
  heap s !! p = Some o ->
  find_property key (object_properties o) = Some prop ->
  Q prop s ->
  yields (load_property {| property_owner := p; property_ptr_key := key |}) s Q.
Proof.
  intros Hp Hfind HQ. unfold load_property. apply yields_bind. simpl.
  eapply yields_get_object; [exact Hp|]. rewrite Hfind. now apply yields_ret.
Qed.

Lemma yields_store_property p key f s o prop (Q : unit -> ecma_state_t -> Prop) :
  heap s !! p = Some o ->
  find_property key (object_properties o) = Some prop ->
  Q tt {| heap := <[p := with_properties (replace_property key f (object_properties o)) o]> (heap s);
          ecma_builtin_objects := ecma_builtin_objects s |} ->
  yields (store_property {| property_owner := p; property_ptr_key := key |} f) s Q.
Proof.
  intros Hp Hfind HQ. unfold store_property. apply yields_bind.
  eapply yields_load_property; [exact Hp|exact Hfind|]. simpl.
  eapply yields_modify_object; [exact Hp|exact HQ].
Qed.

Section AssertRules.

Context `{build_t}.

Lemma yields_JERRY_ASSERT (cond : bool) s (Q : unit -> ecma_state_t -> Prop) :
  (JERRY_NDEBUG = false -> cond = true) -> Q tt s -> yields (lift (JERRY_ASSERT cond)) s Q.
Proof.
  intros Hc HQ. apply yields_lift with tt; [|exact HQ].
  unfold JERRY_ASSERT. destruct JERRY_NDEBUG; [reflexivity|]. now rewrite Hc.
Qed.

Lemma yields_JERRY_ASSERT_M (cond : M bool) s (Q : unit -> ecma_state_t -> Prop) :
  (JERRY_NDEBUG = true -> Q tt s) ->
  (JERRY_NDEBUG = false -> yields cond s (fun b s' => b = true /\ Q tt s')) ->
  yields (JERRY_ASSERT_M cond) s Q.
Proof.
  intros Hrel Hdbg. unfold JERRY_ASSERT_M. destruct JERRY_NDEBUG.
  - apply yields_ret. auto.
  - apply yields_bind. eapply yields_weaken; [now apply Hdbg|].
    intros b s' [-> HQ]. now apply yields_ret.
Qed.
End AssertRules.

(** ** The object layer on the most recent object *)

Lemma lookup_snoc_last {A : Type} (l : list A) (x : A) : (l ++ [x]) !! length l = Some x.
Proof. now apply list_lookup_middle. Qed.

Lemma insert_snoc_last {A : Type} (l : list A) (x y : A) :
  <[length l := y]> (l ++ [x]) = l ++ [y].
Proof. rewrite insert_app_r_alt by lia. now rewrite Nat.sub_diag. Qed.

Lemma yields_modify_last p h r o f (Q : unit -> ecma_state_t -> Prop) :
  p = length h ->
  Q tt {| heap := h ++ [f o]; ecma_builtin_objects := r |} ->
  yields (modify_object p f) {| heap := h ++ [o]; ecma_builtin_objects := r |} Q.
Proof.
  intros -> HQ. eapply yields_modify_object; simpl.
  - apply lookup_snoc_last.
  - now rewrite insert_snoc_last.
Qed.

Lemma yields_add_property_last p h r o prop (Q : ecma_property_ptr -> ecma_state_t -> Prop) :
  p = length h ->
  Q {| property_owner := p; property_ptr_key := property_key prop |}
    {| heap := h ++ [with_properties (prop :: object_properties o) o];
       ecma_builtin_objects := r |} ->
  yields (add_property p prop) {| heap := h ++ [o]; ecma_builtin_objects := r |} Q.
Proof.
  intros -> HQ. eapply yields_add_property; simpl.
  - apply lookup_snoc_last.
  - now rewrite insert_snoc_last.
Qed.

Lemma yields_store_property_last p h r o key f prop (Q : unit -> ecma_state_t -> Prop) :
  p = length h ->
  find_property key (object_properties o) = Some prop ->
  Q tt {| heap := h ++ [with_properties (replace_property key f (object_properties o)) o];
          ecma_builtin_objects := r |} ->
  yields (store_property {| property_owner := p; property_ptr_key := key |} f)
    {| heap := h ++ [o]; ecma_builtin_objects := r |} Q.
Proof.
  intros -> Hfind HQ. eapply yields_store_property; simpl.
  - apply lookup_snoc_last.
  - exact Hfind.
  - now rewrite insert_snoc_last.
Qed.

(** ** The registry *)

Section RegistryProofs.

Context `{build_t, magic_strings_t, builtins_t}.

Lemma ecma_builtin_init_object_spec id proto type cls s :
  yields (ecma_builtin_init_object id proto type cls) s
    (fun p s' =>
       p = length (heap s) /\
       ecma_builtin_objects s' = ecma_builtin_objects s /\
       exists obj, heap s' = heap s ++ [obj] /\ fresh_builtin_object id proto type obj).
Proof.
  destruct s as [h r].
  unfold ecma_builtin_init_object, ecma_create_internal_property,
    set_internal_property_value, ecma_set_object_is_builtin, switch.
  repeat case_decide;
    repeat first
      [ apply yields_create_object
      | (apply yields_add_property_last; [reflexivity|])
      | (eapply yields_store_property_last; [reflexivity|reflexivity|])
      | (apply yields_modify_last; [reflexivity|])
      | apply yields_ret
      | apply yields_bind ];
    cbn;
    (split; [reflexivity|]; split; [reflexivity|]);
    eexists; (split; [reflexivity|]);
    unfold fresh_builtin_object; cbn; repeat split; auto.
Qed.

Lemma switch_map {K B A : Type} `{EqDecision K} (key : B -> K) (f : B -> A) (id : K)
    (l : list B) (d : A) :
  switch id (map (fun e => (key e, f e)) l) d
  = match switch id (map (fun e => (key e, Some e)) l) None with
    | Some e => f e
    | None => d
    end.
Proof.
  induction l as [|e l IH]; simpl; [reflexivity|].
  now case_decide.
Qed.

Lemma switch_map_Some {K B : Type} `{EqDecision K} (key : B -> K) (id : K) (l : list B) (e : B) :
  switch id (map (fun e => (key e, Some e)) l) None = Some e -> key e = id /\ e ∈ l.
Proof.
  induction l as [|e' l IH]; simpl; [discriminate|].
  case_decide as Hk.
  - intros [= <-]. split; [now symmetry|]. apply list_elem_of_here.
  - intros He. destruct (IH He). split; [assumption|]. now apply list_elem_of_further.
Qed.

Lemma find_builtin_entry_id id e : find_builtin_entry id = Some e -> entry_builtin_id e = id.
Proof. intros He. now apply switch_map_Some in He. Qed.

Lemma ecma_instantiate_builtin_unfold fuel id :
  ecma_instantiate_builtin (S fuel) id
  = match find_builtin_entry id with
    | Some entry => CASE_BUILTIN (ecma_instantiate_builtin fuel) entry
    | None => abort UNREACHABLE
    end.
Proof.
  simpl. unfold find_builtin_entry.
  now rewrite (switch_map entry_builtin_id
                 (fun entry => CASE_BUILTIN (ecma_instantiate_builtin fuel) entry)).
Qed.

Lemma prototype_chain_ends_S fuel id :
  prototype_chain_ends (S fuel) id = true ->
  exists entry,
    find_builtin_entry id = Some entry /\
    (id < ECMA_BUILTIN_ID__COUNT)%nat /\
    (entry_object_prototype_builtin_id entry = ECMA_BUILTIN_ID__COUNT \/
     prototype_chain_ends fuel (entry_object_prototype_builtin_id entry) = true).
Proof.
  simpl. destruct (find_builtin_entry id) as [entry|]; [|discriminate].
  rewrite andb_true_iff, orb_true_iff, !bool_decide_eq_true.
  intros [Hid Hproto]. exists entry. auto.
Qed.

Lemma prototype_chain_ends_lt fuel id :
  prototype_chain_ends fuel id = true -> (id < ECMA_BUILTIN_ID__COUNT)%nat.
Proof.
  destruct fuel; [discriminate|].
  intros Hc. apply prototype_chain_ends_S in Hc. now destruct Hc as (? & ? & ? & ?).
Qed.

Lemma prototype_chain_ends_mono fuel fuel' id :
  (fuel <= fuel')%nat ->
  prototype_chain_ends fuel id = true -> prototype_chain_ends fuel' id = true.
Proof.
  revert fuel' id. induction fuel as [|fuel IH]; intros fuel' id Hle; [discriminate|].
  destruct fuel' as [|fuel']; [lia|].
  simpl. destruct (find_builtin_entry id) as [entry|]; [|discriminate].
  rewrite !andb_true_iff, !orb_true_iff.
  intros [Hid [Hp|Hp]]; split; auto.
  right. apply IH; [lia|assumption].
Qed.

(** No entry of a chain that ends is its own prototype. *)
Lemma prototype_chain_ends_irrefl fuel id entry :
  find_builtin_entry id = Some entry ->
  prototype_chain_ends fuel id = true ->
  entry_object_prototype_builtin_id entry <> id.
Proof.
  intros Hentry Hends Hself.
  induction fuel as [|fuel IH]; [discriminate|].
  apply prototype_chain_ends_S in Hends.
  destruct Hends as (entry' & Hentry' & Hid & [Hcount|Hrec]).
  - rewrite Hentry in Hentry'. injection Hentry' as <-. lia.
  - rewrite Hentry in Hentry'. injection Hentry' as <-.
    rewrite Hself in Hrec. auto.
Qed.

Lemma same_object_refl obj : same_object obj obj.
Proof. reflexivity. Qed.

Lemma same_object_trans o1 o2 o3 : same_object o1 o2 -> same_object o2 o3 -> same_object o1 o3.
Proof. unfold same_object. congruence. Qed.

Lemma same_object_with_refs refs obj : same_object obj (with_refs refs obj).
Proof. reflexivity. Qed.

Lemma same_object_properties o1 o2 :
  same_object o1 o2 -> object_properties o1 = object_properties o2.
Proof. intros Hs. apply (f_equal object_properties) in Hs. exact Hs. Qed.

Lemma same_object_prototype o1 o2 :
  same_object o1 o2 -> object_prototype o1 = object_prototype o2.
Proof. intros Hs. apply (f_equal object_prototype) in Hs. exact Hs. Qed.

Lemma state_extends_refl s : state_extends s s.
Proof.
  split; [|split]; auto.
  intros p o Hp. exists o. split; [assumption|apply same_object_refl].
Qed.

Lemma state_extends_trans s1 s2 s3 :
  state_extends s1 s2 -> state_extends s2 s3 -> state_extends s1 s3.
Proof.
  intros (Hh12 & Hl12 & Hr12) (Hh23 & Hl23 & Hr23). split; [|split].
  - intros p o Hp. destruct (Hh12 p o Hp) as (o2 & Hp2 & Hs2).
    destruct (Hh23 p o2 Hp2) as (o3 & Hp3 & Hs3).
    exists o3. split; [assumption|]. now apply same_object_trans with o2.
  - congruence.
  - auto.
Qed.

Lemma state_extends_length s s' : state_extends s s' -> (length (heap s) <= length (heap s'))%nat.
Proof.
  intros (Hh & _ & _).
  destruct (Nat.le_gt_cases (length (heap s)) (length (heap s'))) as [Hle|Hgt]; [assumption|].
  destruct (lookup_lt_is_Some_2 (heap s) (length (heap s'))) as [o Ho]; [lia|].
  destruct (Hh _ _ Ho) as (o' & Ho' & _).
  apply lookup_lt_Some in Ho'. lia.
Qed.

(** A modification of one object that leaves it the same up to its
    reference counter. *)
Lemma state_extends_modify s p o o' :
  heap s !! p = Some o -> same_object o o' ->
  state_extends s {| heap := <[p := o']> (heap s);
                     ecma_builtin_objects := ecma_builtin_objects s |}.
Proof.
  intros Hp Hsame. split; [|split]; simpl; auto.
  intros q oq Hq. destruct (decide (p = q)) as [<-|Hne].
  - exists o'. rewrite list_lookup_insert_eq by (now apply lookup_lt_Some in Hp).
    split; [reflexivity|]. congruence.
  - exists oq. rewrite list_lookup_insert_ne by assumption.
    split; [assumption|apply same_object_refl].
Qed.

Lemma registry_wf_modify s p o' :
  registry_wf s ->
  registry_wf {| heap := <[p := o']> (heap s);
                 ecma_builtin_objects := ecma_builtin_objects s |}.
Proof.
  intros [Hlen Hptr]. split; simpl; [assumption|].
  intros id q Hq. rewrite length_insert. eauto.
Qed.

(** The read-only assertions: in a debug build the condition is evaluated
    and leaves the state as it was. *)
Lemma yields_JERRY_ASSERT_M_pure (cond : M bool) s (Q : unit -> ecma_state_t -> Prop) :
  (JERRY_NDEBUG = false -> cond s = Ok (true, s)) ->
  Q tt s -> yields (JERRY_ASSERT_M cond) s Q.
Proof.
  intros Hcond HQ. apply yields_JERRY_ASSERT_M; [auto|].
  intros Hdbg. exists true, s. auto.
Qed.


Lemma ecma_instantiate_builtin_spec fuel :
  forall id s,
    prototype_chain_ends fuel id = true ->
    registry_wf s ->
    ecma_builtin_objects s !! id = Some None ->
    yields (ecma_instantiate_builtin fuel id) s
      (fun _ s' => registry_wf s' /\ state_extends s s' /\ instantiated id s s').
Proof.
  induction fuel as [|fuel IH]; intros id s Hends Hwf Hslot; [discriminate|].
  pose proof (prototype_chain_ends_S _ _ Hends) as (entry & Hentry & Hid & Hproto).
  pose proof (find_builtin_entry_id _ _ Hentry) as Heid.
  pose proof (prototype_chain_ends_irrefl _ _ _ Hentry Hends) as Hirrefl.
  rewrite ecma_instantiate_builtin_unfold, Hentry.
  unfold CASE_BUILTIN. rewrite Heid.
  set (proto := entry_object_prototype_builtin_id entry) in *.
  apply yields_bind, yields_JERRY_ASSERT_M_pure.
  { intros _. unfold bind, get_builtin_object, ret. now rewrite Hslot. }
  apply yields_bind.
  (* the prototype *)
  apply yields_weaken with
    (Q := fun r s1 =>
            registry_wf s1 /\ state_extends s s1 /\
            if decide (proto = ECMA_BUILTIN_ID__COUNT) then r = None
            else exists q, r = Some q /\ ecma_builtin_objects s1 !! proto = Some (Some q)).
  { case_decide as Hcount.
    - apply yields_ret. split; [assumption|]. split; [apply state_extends_refl|reflexivity].
    - destruct Hproto as [Hproto|Hproto]; [contradiction|].
      pose proof (prototype_chain_ends_lt _ _ Hproto) as Hlt.
      destruct Hwf as [Hlen Hptr].
      destruct (lookup_lt_is_Some_2 (ecma_builtin_objects s) proto) as [slot Hpslot]; [lia|].
      apply yields_bind. eapply yields_get_builtin_object; [exact Hpslot|].
      apply yields_bind.
      apply yields_weaken with
        (Q := fun _ s1 =>
                registry_wf s1 /\ state_extends s s1 /\
                exists q, ecma_builtin_objects s1 !! proto = Some (Some q)).
      + case_decide as Hnone.
        * subst slot. eapply yields_weaken; [apply IH; [assumption|now split|assumption]|].
          intros _ s1 (Hwf1 & Hext1 & (e1 & q & o1 & _ & Hq & _)). eauto.
        * apply yields_ret. split; [now split|]. split; [apply state_extends_refl|].
          destruct slot as [q|]; [eauto|contradiction].
      + intros _ s1 (Hwf1 & Hext1 & q & Hq).
        apply yields_bind. eapply yields_get_builtin_object; [exact Hq|].
        apply yields_bind, yields_JERRY_ASSERT; [intros _; now apply bool_decide_eq_true|].
        apply yields_ret. eauto. }
  intros r s1 (Hwf1 & Hext1 & Hr).
  apply yields_bind.
  eapply yields_weaken; [apply ecma_builtin_init_object_spec|].
  intros p s2 (-> & Hreg2 & obj & Hheap2 & Hfresh).
  destruct Hwf1 as [Hlen1 Hptr1].
  destruct (lookup_lt_is_Some_2 (ecma_builtin_objects s2) id) as [slot2 Hslot2];
    [rewrite Hreg2; lia|].
  eapply yields_set_builtin_object; [exact Hslot2|].
  destruct Hext1 as (Hobjs1 & Hlen01 & Hslots1).
  pose proof (state_extends_length s s1 (conj Hobjs1 (conj Hlen01 Hslots1))) as Hle.
  split; [|split].
  - split; simpl.
    + rewrite length_insert. congruence.
    + intros id' q. rewrite Hheap2, length_app. simpl.
      destruct (decide (id = id')) as [<-|Hne].
      * rewrite list_lookup_insert_eq by (now apply lookup_lt_Some in Hslot2).
        intros [= <-]. lia.
      * rewrite list_lookup_insert_ne, Hreg2 by assumption.
        intros Hq. apply Hptr1 in Hq. lia.
  - split; [|split]; simpl.
    + intros q o Hq. destruct (Hobjs1 q o Hq) as (o' & Hq' & Hsame).
      exists o'. split; [|assumption].
      rewrite Hheap2. now apply lookup_app_l_Some.
    + rewrite length_insert. congruence.
    + intros id' q Hq. destruct (decide (id = id')) as [<-|Hne]; [congruence|].
      rewrite list_lookup_insert_ne, Hreg2 by assumption. auto.
  - exists entry, (length (heap s1)), obj. simpl.
    split; [assumption|]. split.
    { apply list_lookup_insert_eq. now apply lookup_lt_Some in Hslot2. }
    split; [assumption|]. split.
    { rewrite Hheap2. apply lookup_snoc_last. }
    destruct Hfresh as (Hp & Hk & Hrest).
    split.
    { unfold fresh_builtin_object. rewrite Hp. auto. }
    fold proto. case_decide as Hcount.
    + congruence.
    + destruct Hr as (q & -> & Hq). exists q. split; [|assumption].
      rewrite list_lookup_insert_ne, Hreg2 by auto. assumption.
Qed.

Lemma builtin_list_wf_chain id :
  builtin_list_wf = true -> (id < ECMA_BUILTIN_ID__COUNT)%nat ->
  prototype_chain_ends ECMA_BUILTIN_ID__COUNT id = true.
Proof.
  unfold builtin_list_wf. rewrite forallb_forall. intros Hall Hid.
  apply Hall, in_seq. lia.
Qed.

Lemma yields_assert_below_count id s (Q : unit -> ecma_state_t -> Prop) :
  (id < ECMA_BUILTIN_ID__COUNT)%nat -> Q tt s ->
  yields (lift (JERRY_ASSERT (bool_decide (id < ECMA_BUILTIN_ID__COUNT)%nat))) s Q.
Proof. intros Hid HQ. apply yields_JERRY_ASSERT; [|exact HQ]. intros _. now apply bool_decide_eq_true. Qed.

(** The object pointer handed to [ecma_builtin_is] designates an object
    that is no lexical environment. *)
Lemma is_object_extends s s' obj_p :
  state_extends s s' -> is_object s obj_p -> is_object s' obj_p.
Proof.
  intros (Hobjs & _) (obj & Hobj & Hlex).
  destruct (Hobjs _ _ Hobj) as (obj' & Hobj' & Hsame).
  exists obj'. split; [assumption|].
  apply (f_equal object_is_lexical_environment) in Hsame. simpl in Hsame. congruence.
Qed.

Lemma is_lexical_environment_check s obj_p :
  is_object s obj_p ->
  (is_lex_env <- ecma_is_lexical_environment obj_p ;; ret (negb is_lex_env)) s = Ok (true, s).
Proof.
  intros (obj & Hobj & Hlex).
  unfold bind, ecma_is_lexical_environment, bind, get_object, ret.
  now rewrite Hobj, Hlex.
Qed.

(** [ecma_builtin_get] on an instantiated slot: the singleton, with one
    more reference, and nothing else changes. *)
Lemma ecma_builtin_get_instantiated fuel id s p obj :
  (id < ECMA_BUILTIN_ID__COUNT)%nat ->
  ecma_builtin_objects s !! id = Some (Some p) ->
  heap s !! p = Some obj ->
  ecma_builtin_get fuel id s
  = Ok (p, {| heap := <[p := with_refs (S (object_refs obj)) obj]> (heap s);
              ecma_builtin_objects := ecma_builtin_objects s |}).
Proof.
  intros Hid Hslot Hobj.
  assert (Hy : yields (ecma_builtin_get fuel id) s
                 (fun a s' => a = p /\
                    s' = {| heap := <[p := with_refs (S (object_refs obj)) obj]> (heap s);
                            ecma_builtin_objects := ecma_builtin_objects s |})).
  { unfold ecma_builtin_get.
    apply yields_bind, yields_assert_below_count; [assumption|].
    apply yields_bind. eapply yields_get_builtin_object; [exact Hslot|].
    apply yields_bind. rewrite decide_False by discriminate. apply yields_ret.
    apply yields_bind. eapply yields_get_builtin_object; [exact Hslot|].
    apply yields_bind. unfold ecma_ref_object.
    eapply yields_modify_object; [exact Hobj|]. now apply yields_ret. }
  destruct Hy as (a & s' & Hrun & -> & ->). exact Hrun.
Qed.

(** [ecma_builtin_is] on an instantiated slot: the comparison of the two
    pointers, and nothing changes. *)
Lemma ecma_builtin_is_instantiated fuel obj_p id s p :
  (id < ECMA_BUILTIN_ID__COUNT)%nat ->
  ecma_builtin_objects s !! id = Some (Some p) ->
  is_object s obj_p ->
  ecma_builtin_is fuel obj_p id s = Ok (bool_decide (obj_p = p), s).
Proof.
  intros Hid Hslot Hobj.
  assert (Hy : yields (ecma_builtin_is fuel obj_p id) s
                 (fun b s' => b = bool_decide (obj_p = p) /\ s' = s)).
  { unfold ecma_builtin_is.
    apply yields_bind, yields_JERRY_ASSERT_M_pure;
      [intros _; now apply is_lexical_environment_check|].
    apply yields_bind, yields_assert_below_count; [assumption|].
    apply yields_bind. eapply yields_get_builtin_object; [exact Hslot|].
    apply yields_bind. rewrite decide_False by discriminate. apply yields_ret.
    apply yields_bind. eapply yields_get_builtin_object; [exact Hslot|].
    apply yields_ret. split; [|reflexivity].
    apply bool_decide_ext. split; congruence. }
  destruct Hy as (b & s' & Hrun & -> & ->). exact Hrun.
Qed.

(** [ecma_builtin_get] and [ecma_builtin_is] on an empty slot: both
    instantiate the built-in, and then behave as on the instantiated slot. *)
Lemma ecma_builtin_get_empty fuel id s s' p obj :
  (id < ECMA_BUILTIN_ID__COUNT)%nat ->
  ecma_builtin_objects s !! id = Some None ->
  ecma_instantiate_builtin fuel id s = Ok (tt, s') ->
  ecma_builtin_objects s' !! id = Some (Some p) ->
  heap s' !! p = Some obj ->
  ecma_builtin_get fuel id s
  = Ok (p, {| heap := <[p := with_refs (S (object_refs obj)) obj]> (heap s');
              ecma_builtin_objects := ecma_builtin_objects s' |}).
Proof.
  intros Hid Hslot Hinst Hslot' Hobj.
  assert (Hy : yields (ecma_builtin_get fuel id) s
                 (fun a s2 => a = p /\
                    s2 = {| heap := <[p := with_refs (S (object_refs obj)) obj]> (heap s');
                            ecma_builtin_objects := ecma_builtin_objects s' |})).
  { unfold ecma_builtin_get.
    apply yields_bind, yields_assert_below_count; [assumption|].
    apply yields_bind. eapply yields_get_builtin_object; [exact Hslot|].
    apply yields_bind. rewrite decide_True by reflexivity.
    eapply yields_run; [exact Hinst|].
    apply yields_bind. eapply yields_get_builtin_object; [exact Hslot'|].
    apply yields_bind. unfold ecma_ref_object.
    eapply yields_modify_object; [exact Hobj|]. now apply yields_ret. }
  destruct Hy as (a & s2 & Hrun & -> & ->). exact Hrun.
Qed.

Lemma ecma_builtin_is_empty fuel obj_p id s s' p :
  (id < ECMA_BUILTIN_ID__COUNT)%nat ->
  ecma_builtin_objects s !! id = Some None ->
  ecma_instantiate_builtin fuel id s = Ok (tt, s') ->
  ecma_builtin_objects s' !! id = Some (Some p) ->
  is_object s obj_p ->
  ecma_builtin_is fuel obj_p id s = Ok (bool_decide (obj_p = p), s').
Proof.
  intros Hid Hslot Hinst Hslot' Hobj.
  assert (Hy : yields (ecma_builtin_is fuel obj_p id) s
                 (fun b s2 => b = bool_decide (obj_p = p) /\ s2 = s')).
  { unfold ecma_builtin_is.
    apply yields_bind, yields_JERRY_ASSERT_M_pure;
      [intros _; now apply is_lexical_environment_check|].
    apply yields_bind, yields_assert_below_count; [assumption|].
    apply yields_bind. eapply yields_get_builtin_object; [exact Hslot|].
    apply yields_bind. rewrite decide_True by reflexivity.
    eapply yields_run; [exact Hinst|].
    apply yields_bind. eapply yields_get_builtin_object; [exact Hslot'|].
    apply yields_ret. split; [|reflexivity].
    apply bool_decide_ext. split; congruence. }
  destruct Hy as (b & s2 & Hrun & -> & ->). exact Hrun.
Qed.

(** [ecma_builtin_get] in general: the singleton of the identifier, which
    the registry holds from then on. *)
Lemma ecma_builtin_get_spec fuel id s :
  prototype_chain_ends fuel id = true ->
  registry_wf s ->
  yields (ecma_builtin_get fuel id) s
    (fun p s' =>
       registry_wf s' /\ state_extends s s' /\
       ecma_builtin_objects s' !! id = Some (Some p)).
Proof.
  intros Hends Hwf.
  pose proof (prototype_chain_ends_lt _ _ Hends) as Hid.
  pose proof Hwf as [Hlen Hptr].
  destruct (lookup_lt_is_Some_2 (ecma_builtin_objects s) id) as [[p|] Hslot]; [lia| |].
  - destruct (lookup_lt_is_Some_2 (heap s) p) as [obj Hobj]; [eauto|].
    eapply yields_run; [exact (ecma_builtin_get_instantiated fuel id s p obj Hid Hslot Hobj)|].
    split; [now apply registry_wf_modify|].
    split; [|assumption].
    eapply state_extends_modify; [exact Hobj|apply same_object_with_refs].
  - destruct (ecma_instantiate_builtin_spec fuel id s Hends Hwf Hslot)
      as ([] & s' & Hinst & Hwf' & Hext & (entry & p & obj & _ & Hslot' & _ & Hobj & _)).
    eapply yields_run;
      [exact (ecma_builtin_get_empty fuel id s s' p obj Hid Hslot Hinst Hslot' Hobj)|].
    split; [now apply registry_wf_modify|].
    split; [|assumption].
    eapply state_extends_trans; [exact Hext|].
    eapply state_extends_modify; [exact Hobj|apply same_object_with_refs].
Qed.

Lemma registry_wf_check_correct s : registry_wf_check s = true -> registry_wf s.
Proof.
  unfold registry_wf_check. rewrite andb_true_iff, bool_decide_eq_true, forallb_forall.
  intros [Hlen Hall]. split; [assumption|].
  intros id p Hp. apply list_elem_of_lookup_2, list_elem_of_In in Hp.
  apply Hall in Hp. now apply bool_decide_eq_true in Hp.
Qed.

(** C2.  Instantiating an identifier whose entry declares a prototype other
    than the count leaves that prototype instantiated in the registry, and
    the prototype pointer of the created object is the registry's object for
    it; an entry that declares the count as its prototype gets a null
    prototype. *)
Theorem prototype_before_dependent (fuel id : nat) (s : ecma_state_t) :
  builtin_list_wf = true ->
  (ECMA_BUILTIN_ID__COUNT <= fuel)%nat ->
  (id < ECMA_BUILTIN_ID__COUNT)%nat ->
  registry_wf s ->
  ecma_builtin_objects s !! id = Some None ->
  exists (s' : ecma_state_t) (entry : builtin_descriptor_t) (p : ecma_object_ptr)
         (obj : ecma_object_t),
    ecma_instantiate_builtin fuel id s = Ok (tt, s') /\
    find_builtin_entry id = Some entry /\
    ecma_builtin_objects s' !! id = Some (Some p) /\
    heap s' !! p = Some obj /\
    (entry_object_prototype_builtin_id entry = ECMA_BUILTIN_ID__COUNT ->
     object_prototype obj = None) /\
    (entry_object_prototype_builtin_id entry <> ECMA_BUILTIN_ID__COUNT ->
     exists q : ecma_object_ptr,
       ecma_builtin_objects s' !! entry_object_prototype_builtin_id entry = Some (Some q) /\
       object_prototype obj = Some q).
Proof.
  intros Hlist Hfuel Hid Hwf Hslot.
  pose proof (prototype_chain_ends_mono _ _ _ Hfuel (builtin_list_wf_chain id Hlist Hid))
    as Hends.
  destruct (ecma_instantiate_builtin_spec fuel id s Hends Hwf Hslot)
    as ([] & s' & Hrun & _ & _ & (entry & p & obj & Hentry & Hslot' & _ & Hp & _ & Hproto)).
  exists s', entry, p, obj.
  repeat (split; [assumption|]).
  case_decide as Hcount; split; intros Hc; try contradiction; assumption.
Qed.

End RegistryProofs.

Lemma prototype_before_dependent_witness :
  exists (s' : ecma_state_t) (entry : builtin_descriptor_t) (p : ecma_object_ptr)
         (obj : ecma_object_t),
    @ecma_instantiate_builtin (sample_build false false) sample_magic_strings sample_builtins
      15 1 sample_state = Ok (tt, s') /\
    @find_builtin_entry sample_builtins 1 = Some entry /\
    ecma_builtin_objects s' !! 1%nat = Some (Some p) /\
    heap s' !! p = Some obj /\
    (entry_object_prototype_builtin_id entry = 15%nat -> object_prototype obj = None) /\
    (entry_object_prototype_builtin_id entry <> 15%nat ->
     exists q : ecma_object_ptr,
       ecma_builtin_objects s' !! entry_object_prototype_builtin_id entry = Some (Some q) /\
       object_prototype obj = Some q).
Proof.
  apply (@prototype_before_dependent (sample_build false false) sample_magic_strings
           sample_builtins 15 1 sample_state).
  - reflexivity.
  - simpl. lia.
  - simpl. lia.
  - apply registry_wf_check_correct. reflexivity.
  - reflexivity.
Defined.

(** ** Bit fields *)

Lemma to_uint64_testbit (x i : Z) :
  0 <= i -> Z.testbit (to_uint64 x) i = (i <? 64) && Z.testbit x i.
Proof.
  intros Hi. unfold to_uint64.
  destruct (Z.ltb_spec i 64).
  - now rewrite Z.mod_pow2_bits_low.
  - now rewrite Z.mod_pow2_bits_high by lia.
Qed.

Lemma bit_field_mask_testbit (width i : Z) :
  0 <= width -> 0 <= i ->
  Z.testbit (to_uint64 (Z.shiftl 1 width - 1)) i = (i <? 64) && (i <? width).
Proof.
  intros Hw Hi. rewrite to_uint64_testbit by assumption.
  rewrite Z.sub_1_r. change (Z.pred (Z.shiftl 1 width)) with (Z.ones width).
  destruct (Z.ltb_spec i width).
  - now rewrite Z.ones_spec_low by lia.
  - now rewrite Z.ones_spec_high by lia.
Qed.

Lemma below_pow2_testbit (x n i : Z) : 0 <= x < 2 ^ n -> n <= i -> Z.testbit x i = false.
Proof.
  intros Hx Hi.
  destruct (Z.eq_dec x 0) as [->|Hne]; [apply Z.bits_0|].
  apply Z.bits_above_log2; [lia|].
  assert (0 <= n) by (destruct (Z.le_gt_cases 0 n); [assumption|rewrite Z.pow_neg_r in Hx; lia]).
  apply Z.lt_le_trans with n; [|assumption].
  apply Z.log2_lt_pow2; lia.
Qed.

Lemma testbit_below_pow2 (x n : Z) :
  0 <= x -> 0 <= n -> (forall i, n <= i -> Z.testbit x i = false) -> x < 2 ^ n.
Proof.
  intros Hx Hn Hbits.
  assert (Hmod : x mod 2 ^ n = x).
  { apply Z.bits_inj'. intros i Hi.
    destruct (Z.lt_ge_cases i n).
    - now rewrite Z.mod_pow2_bits_low.
    - rewrite Z.mod_pow2_bits_high by lia. symmetry. now apply Hbits. }
  rewrite <- Hmod. apply Z.mod_pos_bound. lia.
Qed.

(** The bits of a container after [jrt_set_bit_field_value]: those of the
    new value inside the field, those of the container outside. *)
Lemma jrt_set_bit_field_value_testbit (container value lsb width i : Z) :
  0 <= lsb -> 0 <= width -> lsb + width <= 64 ->
  0 <= container < 2 ^ 64 -> 0 <= value < 2 ^ width ->
  0 <= i ->
  Z.testbit (jrt_set_bit_field_value container value lsb width) i
  = if (lsb <=? i) && (i <? lsb + width)
    then Z.testbit value (i - lsb)
    else Z.testbit container i.
Proof.
  intros Hlsb Hw Hfit Hc Hv Hi. unfold jrt_set_bit_field_value.
  rewrite Z.lor_spec, Z.land_spec, !to_uint64_testbit, Z.lnot_spec by assumption.
  rewrite to_uint64_testbit, !Z.shiftl_spec by assumption.
  destruct (Z.leb_spec lsb i) as [Hle|Hgt]; simpl.
  - rewrite bit_field_mask_testbit by lia.
    destruct (Z.ltb_spec i (lsb + width)) as [Hin|Hout].
    + destruct (Z.ltb_spec i 64); [|lia].
      destruct (Z.ltb_spec (i - lsb) 64); [|lia].
      destruct (Z.ltb_spec (i - lsb) width); [|lia]. simpl.
      now rewrite andb_false_r.
    + destruct (Z.ltb_spec (i - lsb) width); [lia|].
      rewrite (below_pow2_testbit value width (i - lsb)) by lia.
      rewrite !andb_false_r, orb_false_r. simpl.
      destruct (Z.ltb_spec i 64); [now rewrite andb_true_r|].
      rewrite (below_pow2_testbit container 64 i) by lia. reflexivity.
  - rewrite (Z.testbit_neg_r _ (i - lsb)) by lia.
    rewrite (Z.testbit_neg_r value (i - lsb)) by lia.
    rewrite !andb_false_r, orb_false_r. simpl.
    destruct (Z.ltb_spec i 64); [now rewrite andb_true_r|].
    rewrite (below_pow2_testbit container 64 i) by lia. reflexivity.
Qed.

Lemma jrt_extract_bit_field_testbit (container lsb width i : Z) :
  0 <= lsb -> 0 <= width <= 64 -> 0 <= i ->
  Z.testbit (jrt_extract_bit_field container lsb width) i
  = (i <? width) && Z.testbit container (i + lsb).
Proof.
  intros Hlsb Hw Hi. unfold jrt_extract_bit_field.
  rewrite Z.land_spec, Z.shiftr_spec, bit_field_mask_testbit by lia.
  destruct (Z.ltb_spec i width); simpl.
  - destruct (Z.ltb_spec i 64); [|lia]. now rewrite andb_true_r.
  - now rewrite !andb_false_r.
Qed.

Lemma jrt_set_bit_field_value_bound (container value lsb width n : Z) :
  0 <= lsb -> 0 <= width -> lsb + width <= n -> n <= 64 ->
  0 <= container < 2 ^ n -> 0 <= value < 2 ^ width ->
  0 <= jrt_set_bit_field_value container value lsb width < 2 ^ n.
Proof.
  intros Hlsb Hw Hfit Hn Hc Hv.
  assert (Hc64 : 0 <= container < 2 ^ 64).
  { split; [lia|]. apply Z.lt_le_trans with (2 ^ n); [lia|].
    apply Z.pow_le_mono_r; lia. }
  split.
  - unfold jrt_set_bit_field_value. apply Z.lor_nonneg. split.
    + apply Z.land_nonneg. left. lia.
    + unfold to_uint64. apply Z.mod_pos_bound. lia.
  - apply testbit_below_pow2; [|lia|].
    + unfold jrt_set_bit_field_value. apply Z.lor_nonneg. split.
      * apply Z.land_nonneg. left. lia.
      * unfold to_uint64. apply Z.mod_pos_bound. lia.
    + intros i Hi. rewrite jrt_set_bit_field_value_testbit by lia.
      destruct (Z.leb_spec lsb i); destruct (Z.ltb_spec i (lsb + width)); simpl; try lia;
        now apply (below_pow2_testbit container n).
Qed.

(** A field that was set is extracted unchanged. *)
Lemma jrt_extract_set_same (container value lsb width : Z) :
  0 <= lsb -> 0 <= width -> lsb + width <= 64 ->
  0 <= container < 2 ^ 64 -> 0 <= value < 2 ^ width ->
  jrt_extract_bit_field (jrt_set_bit_field_value container value lsb width) lsb width = value.
Proof.
  intros Hlsb Hw Hfit Hc Hv. apply Z.bits_inj'. intros i Hi.
  rewrite jrt_extract_bit_field_testbit, jrt_set_bit_field_value_testbit by lia.
  replace (i + lsb - lsb) with i by lia.
  destruct (Z.ltb_spec i width); simpl.
  - destruct (Z.leb_spec lsb (i + lsb)); [|lia].
    destruct (Z.ltb_spec (i + lsb) (lsb + width)); [|lia]. reflexivity.
  - symmetry. now apply (below_pow2_testbit value width).
Qed.

(** Setting a field leaves a field that does not overlap it as it was. *)
Lemma jrt_extract_set_other (container value lsb width lsb' width' : Z) :
  0 <= lsb -> 0 <= width -> lsb + width <= 64 ->
  0 <= lsb' -> 0 <= width' <= 64 ->
  lsb + width <= lsb' \/ lsb' + width' <= lsb ->
  0 <= container < 2 ^ 64 -> 0 <= value < 2 ^ width ->
  jrt_extract_bit_field (jrt_set_bit_field_value container value lsb width) lsb' width'
  = jrt_extract_bit_field container lsb' width'.
Proof.
  intros Hlsb Hw Hfit Hlsb' Hw' Hdisj Hc Hv. apply Z.bits_inj'. intros i Hi.
  rewrite !jrt_extract_bit_field_testbit, jrt_set_bit_field_value_testbit by lia.
  destruct (Z.ltb_spec i width'); simpl; [|reflexivity].
  destruct (Z.leb_spec lsb (i + lsb')); destruct (Z.ltb_spec (i + lsb') (lsb + width));
    simpl; try reflexivity; lia.
Qed.

Section RoutineIdProofs.

Context `{magic_strings_t, builtins_t}.

(** The packed value of two identifiers within their ranges: it fits 32
    bits and its two fields are the identifiers. *)
Lemma routine_id_packed_value_spec (builtin_id : nat) (routine_id : Z) :
  routine_id_layout_wf ->
  (builtin_id < ECMA_BUILTIN_ID__COUNT)%nat ->
  0 <= routine_id < ECMA_MAGIC_STRING__COUNT ->
  to_uint32 (routine_id_packed_value builtin_id routine_id)
    = routine_id_packed_value builtin_id routine_id /\
  Z.to_nat (routine_id_built_in_id_field
              (to_uint32 (routine_id_packed_value builtin_id routine_id))) = builtin_id /\
  routine_id_routine_id_field
    (to_uint32 (routine_id_packed_value builtin_id routine_id)) = routine_id /\
  routine_id_built_in_id_field
    (to_uint32 (routine_id_packed_value builtin_id routine_id))
    < Z.of_nat ECMA_BUILTIN_ID__COUNT.
Proof.
  intros (Hp1 & Hw1 & Hp2 & Hw2 & Hdisj & Hfit1 & Hfit2 & Hcount & Hmagic) Hid Hrid.
  unfold routine_id_packed_value, routine_id_built_in_id_field, routine_id_routine_id_field.
  set (p1 := ECMA_BUILTIN_ROUTINE_ID_BUILT_IN_OBJECT_ID_POS) in *.
  set (w1 := ECMA_BUILTIN_ROUTINE_ID_BUILT_IN_OBJECT_ID_WIDTH) in *.
  set (p2 := ECMA_BUILTIN_ROUTINE_ID_BUILT_IN_ROUTINE_ID_POS) in *.
  set (w2 := ECMA_BUILTIN_ROUTINE_ID_BUILT_IN_ROUTINE_ID_WIDTH) in *.
  assert (Hv1 : 0 <= Z.of_nat builtin_id < 2 ^ w1) by lia.
  assert (Hv2 : 0 <= routine_id < 2 ^ w2) by lia.
  pose proof (jrt_set_bit_field_value_bound 0 (Z.of_nat builtin_id) p1 w1 32) as Hb1.
  specialize (Hb1 Hp1 Hw1 Hfit1 ltac:(lia) ltac:(lia) Hv1).
  set (packed1 := jrt_set_bit_field_value 0 (Z.of_nat builtin_id) p1 w1) in *.
  pose proof (jrt_set_bit_field_value_bound packed1 routine_id p2 w2 32) as Hb2.
  specialize (Hb2 Hp2 Hw2 Hfit2 ltac:(lia) Hb1 Hv2).
  set (packed := jrt_set_bit_field_value packed1 routine_id p2 w2) in *.
  assert (H64 : (2 : Z) ^ 32 < 2 ^ 64) by (apply Z.pow_lt_mono_r; lia).
  rewrite (to_uint32_id packed) by exact Hb2.
  assert (Hfield1 : jrt_extract_bit_field packed p1 w1 = Z.of_nat builtin_id).
  { unfold packed. rewrite jrt_extract_set_other by lia.
    unfold packed1. apply jrt_extract_set_same; lia. }
  assert (Hfield2 : jrt_extract_bit_field packed p2 w2 = routine_id).
  { unfold packed. apply jrt_extract_set_same; lia. }
  rewrite Hfield1, Hfield2.
  split; [reflexivity|]. split; [apply Nat2Z.id|]. split; [reflexivity|lia].
Qed.

(** C5.  For every owner below the count and every routine identifier below
    the number of magic strings, the packed value fits the 32-bit internal
    property (the narrowing loses nothing), the two fields extracted from
    the stored value are the owner and the routine, and the extracted owner
    is below the count. *)
Theorem routine_id_round_trip (builtin_id : nat) (routine_id : Z) :
  routine_id_layout_wf ->
  (builtin_id < ECMA_BUILTIN_ID__COUNT)%nat ->
  0 <= routine_id < ECMA_MAGIC_STRING__COUNT ->
  to_uint32 (routine_id_packed_value builtin_id routine_id)
    = routine_id_packed_value builtin_id routine_id /\
  Z.to_nat (routine_id_built_in_id_field
              (to_uint32 (routine_id_packed_value builtin_id routine_id))) = builtin_id /\
  routine_id_routine_id_field
    (to_uint32 (routine_id_packed_value builtin_id routine_id)) = routine_id /\
  routine_id_built_in_id_field
    (to_uint32 (routine_id_packed_value builtin_id routine_id))
    < Z.of_nat ECMA_BUILTIN_ID__COUNT.
Proof. exact (routine_id_packed_value_spec builtin_id routine_id). Qed.

End RoutineIdProofs.

Lemma routine_id_round_trip_witness :
  to_uint32 (@routine_id_packed_value sample_builtins 0 38)
    = @routine_id_packed_value sample_builtins 0 38 /\
  Z.to_nat (@routine_id_built_in_id_field sample_builtins
              (to_uint32 (@routine_id_packed_value sample_builtins 0 38))) = 0%nat /\
  @routine_id_routine_id_field sample_builtins
    (to_uint32 (@routine_id_packed_value sample_builtins 0 38)) = 38 /\
  @routine_id_built_in_id_field sample_builtins
    (to_uint32 (@routine_id_packed_value sample_builtins 0 38)) < 15.
Proof.
  apply (@routine_id_round_trip sample_magic_strings sample_builtins 0 38).
  - unfold routine_id_layout_wf. simpl. lia.
  - simpl. lia.
  - simpl. lia.
Defined.

(** ** Dispatch of the Global object's routines *)

Section GlobalDispatchProofs.

Context `{build_t, magic_strings_t, builtins_t, collaborators_t}.

Lemma find_global_routine_In id entry :
  find_global_routine id = Some entry ->
  routine_name entry = id /\ entry ∈ ECMA_BUILTIN_GLOBAL_OBJECT_ROUTINES_PROPERTY_LIST.
Proof. apply switch_map_Some. Qed.

Lemma ecma_builtin_global_dispatch_routine_unfold id this_arg_value arguments_list :
  ecma_builtin_global_dispatch_routine id this_arg_value arguments_list
  = match find_global_routine id with
    | Some entry => CASE_ROUTINE_PROP_LIST arguments_list entry
    | None => abort UNREACHABLE
    end.
Proof.
  unfold ecma_builtin_global_dispatch_routine, find_global_routine.
  now rewrite (switch_map routine_name (CASE_ROUTINE_PROP_LIST arguments_list)).
Qed.

(** C8.  For the routine the dispatcher selects, of formal arity [n], and an
    argument list of length [m < n], the dispatcher is the call of the
    routine's handler on the [m] arguments in order followed by [n - m]
    undefined values: the short list alone raises no error. *)
Theorem missing_arguments_are_undefined (id : Z) (entry : routine_property_t)
    (this_arg_value : ecma_value_t) (arguments_list : list ecma_value_t) :
  find_global_routine id = Some entry ->
  (length arguments_list < routine_args_number entry)%nat ->
  routine_call (routine_c_function_name entry)
    (arguments_list
     ++ replicate (routine_args_number entry - length arguments_list)
          (ecma_make_simple_value ECMA_SIMPLE_VALUE_UNDEFINED))
  = Some (ecma_builtin_global_dispatch_routine id this_arg_value arguments_list).
Proof.
  intros Hfind Hshort.
  rewrite ecma_builtin_global_dispatch_routine_unfold, Hfind.
  apply find_global_routine_In in Hfind. destruct Hfind as [_ Hin].
  unfold ECMA_BUILTIN_GLOBAL_OBJECT_ROUTINES_PROPERTY_LIST in Hin.
  repeat (apply elem_of_cons in Hin; destruct Hin as [->|Hin]);
    [..|now apply elem_of_nil in Hin];
    simpl in Hshort |- *;
    repeat (destruct arguments_list as [|? arguments_list]; simpl in Hshort; try lia);
    reflexivity.
Qed.

(** C10.  The dispatcher returns the same completion, and leaves the same
    state, whatever the 'this' value: no handler is given it. *)
Theorem this_value_is_irrelevant (id : Z) (this_arg_value this_arg_value' : ecma_value_t)
    (arguments_list : list ecma_value_t) (s : ecma_state_t) :
  ecma_builtin_global_dispatch_routine id this_arg_value arguments_list s
  = ecma_builtin_global_dispatch_routine id this_arg_value' arguments_list s.
Proof.
  rewrite !ecma_builtin_global_dispatch_routine_unfold.
  destruct (find_global_routine id) as [entry|]; reflexivity.
Qed.

End GlobalDispatchProofs.

Lemma missing_arguments_are_undefined_witness :
  @routine_call
    (ROUTINE_FUNCTION_2
       (@ecma_builtin_global_object_parse_int sample_collaborators))
    ([ECMA_TYPE_NUMBER (ECMA_NUMBER_FINITE 7)]
     ++ replicate (2 - 1) (ecma_make_simple_value ECMA_SIMPLE_VALUE_UNDEFINED))
  = Some (@ecma_builtin_global_dispatch_routine (sample_build false false)
            sample_magic_strings sample_collaborators 38
            (ECMA_TYPE_SIMPLE ECMA_SIMPLE_VALUE_NULL)
            [ECMA_TYPE_NUMBER (ECMA_NUMBER_FINITE 7)]).
Proof.
  apply (@missing_arguments_are_undefined (sample_build false false) sample_magic_strings
           sample_collaborators 38
           {| routine_name := 38;
              routine_c_function_name :=
                ROUTINE_FUNCTION_2 (@ecma_builtin_global_object_parse_int sample_collaborators);
              routine_args_number := 2;
              routine_length := 2 |}).
  - reflexivity.
  - simpl. lia.
Defined.

(** ** Function objects of routines *)

Lemma state_extends_modify_snoc s p o o' l :
  heap s !! p = Some o -> same_object o o' ->
  state_extends s {| heap := <[p := o']> (heap s) ++ l;
                     ecma_builtin_objects := ecma_builtin_objects s |}.
Proof.
  intros Hp Hsame. split; [|split]; simpl; auto.
  intros q oq Hq. destruct (decide (p = q)) as [<-|Hne].
  - exists o'. split; [|congruence].
    apply lookup_app_l_Some, list_lookup_insert_eq. now apply lookup_lt_Some in Hp.
  - exists oq. split; [|apply same_object_refl].
    apply lookup_app_l_Some. now rewrite list_lookup_insert_ne.
Qed.

Lemma find_property_head prop rest :
  find_property (property_key prop) (prop :: rest) = Some prop.
Proof. simpl. now rewrite decide_True. Qed.

Lemma replace_property_head prop f rest :
  replace_property (property_key prop) f (prop :: rest) = f prop :: rest.
Proof. simpl. now rewrite decide_True. Qed.

Section MakeFunctionProofs.

Context `{build_t, magic_strings_t, builtins_t}.

Lemma ecma_builtin_make_function_object_for_routine_spec fuel builtin_id routine_id len s :
  prototype_chain_ends fuel ECMA_BUILTIN_ID_FUNCTION_PROTOTYPE = true ->
  registry_wf s ->
  (JERRY_NDEBUG = false ->
   to_uint32 (routine_id_packed_value builtin_id routine_id)
   = routine_id_packed_value builtin_id routine_id) ->
  yields (ecma_builtin_make_function_object_for_routine fuel builtin_id routine_id len) s
    (fun func_obj_p s' =>
       registry_wf s' /\ state_extends s s' /\
       (length (heap s) <= func_obj_p)%nat /\
       exists obj prototype_obj_p,
         heap s' !! func_obj_p = Some obj /\
         ecma_builtin_objects s' !! ECMA_BUILTIN_ID_FUNCTION_PROTOTYPE
           = Some (Some prototype_obj_p) /\
         routine_function_object builtin_id routine_id len prototype_obj_p obj).
Proof.
  intros Hends Hwf Hpacked.
  unfold ecma_builtin_make_function_object_for_routine.
  apply yields_bind. eapply yields_weaken; [apply ecma_builtin_get_spec; assumption|].
  intros proto [h1 r1] (Hwf1 & Hext1 & Hslot1). simpl in Hslot1.
  pose proof Hwf1 as [Hlen1 Hptr1]. simpl in Hlen1, Hptr1.
  pose proof (Hptr1 _ _ Hslot1) as Hproto.
  destruct (lookup_lt_is_Some_2 h1 proto Hproto) as [pobj Hpobj].
  apply yields_bind, yields_create_object. simpl.
  apply yields_bind. unfold ecma_deref_object.
  eapply yields_modify_object; [simpl; apply lookup_app_l_Some; exact Hpobj|]. simpl.
  rewrite insert_app_l by assumption.
  set (h1' := <[proto := with_refs (Nat.pred (object_refs pobj)) pobj]> h1).
  assert (Hlen' : length h1 = length h1') by (unfold h1'; now rewrite length_insert).
  unfold ecma_set_object_is_builtin, ecma_create_internal_property,
    set_internal_property_value, ecma_create_named_data_property,
    set_named_data_property_value.
  apply yields_bind, yields_modify_last; [assumption|].
  apply yields_bind, yields_add_property_last; [assumption|].
  apply yields_bind, yields_JERRY_ASSERT; [intros Hdbg; apply Z.eqb_eq; auto|].
  apply yields_bind. eapply yields_store_property_last; [assumption|reflexivity|].
  apply yields_bind, yields_add_property_last; [assumption|].
  apply yields_bind.
  eapply yields_store_property_last; [assumption|apply find_property_head|].
  cbn [object_properties with_properties]. rewrite replace_property_head.
  apply yields_ret. cbn.
  split; [|split; [|split]].
  - split; simpl; [assumption|]. intros id q Hq. rewrite length_app, <- Hlen'. simpl.
    apply Hptr1 in Hq. lia.
  - eapply state_extends_trans; [exact Hext1|].
    apply (state_extends_modify_snoc {| heap := h1; ecma_builtin_objects := r1 |} proto pobj);
      [assumption|apply same_object_with_refs].
  - apply state_extends_length in Hext1. assumption.
  - eexists _, proto. split; [rewrite Hlen'; apply lookup_snoc_last|].
    split; [assumption|]. repeat split.
Qed.

End MakeFunctionProofs.

(** ** Lazy instantiation of the Global object's properties *)

Lemma switch_In {K A : Type} `{EqDecision K} (id : K) (cases : list (K * A)) (d : A) :
  id ∈ map fst cases -> (id, switch id cases d) ∈ cases.
Proof.
  induction cases as [|[label body] cases IH]; simpl.
  - intros Hin. now apply elem_of_nil in Hin.
  - intros Hin. case_decide as Heq.
    + subst. apply list_elem_of_here.
    + apply list_elem_of_further, IH.
      apply elem_of_cons in Hin. destruct Hin; [congruence|assumption].
Qed.

Lemma switch_not_In {K A : Type} `{EqDecision K} (id : K) (cases : list (K * A)) (d : A) :
  id ∉ map fst cases -> switch id cases d = d.
Proof.
  induction cases as [|[label body] cases IH]; simpl; [reflexivity|].
  intros Hin. rewrite not_elem_of_cons in Hin. destruct Hin as [Hne Hin].
  rewrite decide_False by assumption. auto.
Qed.

Lemma switch_NoDup {K A : Type} `{EqDecision K} (id : K) (body : A) (cases : list (K * A))
    (d : A) :
  NoDup (map fst cases) -> (id, body) ∈ cases -> switch id cases d = body.
Proof.
  induction cases as [|[label body'] cases IH]; simpl; intros Hnd Hin.
  - now apply elem_of_nil in Hin.
  - apply NoDup_cons in Hnd. destruct Hnd as [Hfresh Hnd].
    apply elem_of_cons in Hin. destruct Hin as [Heq|Hin].
    + injection Heq as <- <-. now rewrite decide_True.
    + rewrite decide_False; [auto|].
      intros <-. apply Hfresh. apply list_elem_of_fmap. now exists (id, body).
Qed.

(** *** Properties and the bitmask *)

Lemma find_property_key key props prop :
  find_property key props = Some prop -> property_key prop = key.
Proof.
  induction props as [|p props IH]; simpl; [discriminate|].
  case_decide; [congruence|auto].
Qed.

Lemma find_property_replace key f props prop :
  find_property key props = Some prop ->
  property_key (f prop) = key ->
  find_property key (replace_property key f props) = Some (f prop).
Proof.
  intros Hfind Hkey. induction props as [|p props IH]; simpl in *; [discriminate|].
  case_decide as Hp.
  - injection Hfind as ->. simpl. now rewrite decide_True.
  - simpl. rewrite decide_False by assumption. auto.
Qed.

Lemma find_property_replace_ne key key' f props :
  key' <> key ->
  (forall prop, property_key prop = key -> property_key (f prop) = key) ->
  find_property key' (replace_property key f props) = find_property key' props.
Proof.
  intros Hne Hf. induction props as [|p props IH]; simpl; [reflexivity|].
  case_decide as Hp; simpl.
  - rewrite !decide_False; [reflexivity|congruence|].
    rewrite (Hf p Hp). congruence.
  - case_decide; [reflexivity|assumption].
Qed.

Lemma named_properties_replace name key f props :
  key <> KEY_NAMED name ->
  (forall prop, property_key prop = key -> property_key (f prop) = key) ->
  named_properties name (replace_property key f props) = named_properties name props.
Proof.
  intros Hne Hf. unfold named_properties.
  induction props as [|p props IH]; simpl; [reflexivity|].
  case_decide as Hp.
  - rewrite !filter_cons, !decide_False; [reflexivity|congruence|].
    rewrite (Hf p Hp). congruence.
  - rewrite !filter_cons, IH. reflexivity.
Qed.

Lemma named_properties_absent name props :
  find_property (KEY_NAMED name) props = None -> named_properties name props = [].
Proof.
  unfold named_properties. induction props as [|p props IH]; simpl; [reflexivity|].
  case_decide as Hp; [discriminate|].
  intros Hfind. rewrite filter_cons, decide_False by assumption. auto.
Qed.

Lemma with_internal_value_key value prop :
  property_key (with_internal_value value prop) = property_key prop.
Proof. now destruct prop. Qed.

Lemma with_named_data_value_key value prop :
  property_key (with_named_data_value value prop) = property_key prop.
Proof. now destruct prop. Qed.

Lemma instantiated_mask_find props bit_mask :
  let mask_key := KEY_INTERNAL ECMA_INTERNAL_PROPERTY_NON_INSTANTIATED_BUILT_IN_MASK_0_31 in
  instantiated_mask props = Some bit_mask ->
  find_property mask_key props = None /\ bit_mask = 0 \/
  find_property mask_key props
  = Some (ECMA_PROPERTY_INTERNAL ECMA_INTERNAL_PROPERTY_NON_INSTANTIATED_BUILT_IN_MASK_0_31
            (INTERNAL_UINT32 bit_mask)).
Proof.
  intros mask_key. unfold instantiated_mask. fold mask_key.
  destruct (find_property mask_key props) as [prop|] eqn:Hfind.
  - pose proof (find_property_key _ _ _ Hfind) as Hkey.
    destruct prop as [id value| |]; try discriminate.
    destruct value; try discriminate.
    injection Hkey as ->. intros [= ->]. now right.
  - intros [= <-]. now left.
Qed.

Lemma land_bit_testbit (bit_mask index : Z) :
  0 <= index ->
  (Z.land bit_mask (2 ^ index) =? 0) = negb (Z.testbit bit_mask index).
Proof.
  intros Hindex.
  destruct (Z.testbit bit_mask index) eqn:Hbit; simpl.
  - apply Z.eqb_neq. intros Hzero.
    apply (f_equal (fun z => Z.testbit z index)) in Hzero.
    rewrite Z.land_spec, Hbit, Z.pow2_bits_true, Z.bits_0 in Hzero by assumption.
    discriminate.
  - apply Z.eqb_eq, Z.bits_inj'. intros i Hi.
    rewrite Z.land_spec, Z.bits_0, Z.pow2_bits_eqb by assumption.
    destruct (Z.eqb_spec index i) as [->|]; [now rewrite Hbit|apply andb_false_r].
Qed.

Lemma lor_bit_testbit (bit_mask index : Z) :
  0 <= index -> Z.testbit (Z.lor bit_mask (2 ^ index)) index = true.
Proof.
  intros Hindex. rewrite Z.lor_spec, Z.pow2_bits_true by assumption. apply orb_true_r.
Qed.

Lemma bit_of_index (index : Z) : 0 <= index < 32 -> to_uint32 (Z.shiftl 1 index) = 2 ^ index.
Proof.
  intros Hindex. rewrite Z.shiftl_1_l. apply to_uint32_id.
  split; [apply Z.pow_nonneg; lia|apply Z.pow_lt_mono_r; lia].
Qed.

Section GlobalPropertyProofs.

Context `{build_t, magic_strings_t, builtins_t, collaborators_t}.

Lemma global_property_names_length : (length ecma_builtin_global_property_names <= 30)%nat.
Proof.
  unfold ecma_builtin_global_property_names. rewrite length_app.
  destruct CONFIG_ECMA_COMPACT_PROFILE; simpl; lia.
Qed.

Lemma global_bin_search_found id index :
  strictly_ascending ecma_builtin_global_property_names ->
  ecma_builtin_global_property_names !! index = Some id ->
  ecma_builtin_bin_search_for_magic_string_id_in_array ecma_builtin_global_property_names id
  = Ok (Z.of_nat index).
Proof.
  intros Hsorted Hindex.
  pose proof global_property_names_length as Hlen.
  destruct (bin_search_spec ecma_builtin_global_property_names id Hsorted)
    as (r & Hr & Hunique & _); [lia|].
  now rewrite Hr, (Hunique index Hindex).
Qed.

Lemma global_bin_search_missing id :
  strictly_ascending ecma_builtin_global_property_names ->
  id ∉ ecma_builtin_global_property_names ->
  ecma_builtin_bin_search_for_magic_string_id_in_array ecma_builtin_global_property_names id
  = Ok (-1).
Proof.
  intros Hsorted Hmissing.
  pose proof global_property_names_length as Hlen.
  destruct (bin_search_spec ecma_builtin_global_property_names id Hsorted)
    as (r & Hr & _ & Hminus & _); [lia|].
  rewrite Hr. f_equal. apply Hminus.
  intros i Hi. apply Hmissing. now apply list_elem_of_lookup_2 in Hi.
Qed.

Lemma properties_of_lookup s obj_p obj :
  heap s !! obj_p = Some obj -> properties_of s obj_p = object_properties obj.
Proof. unfold properties_of. now intros ->. Qed.

(** The two assertions at the entry of the routine hold of the Global
    object when the named property is not among its properties, and leave
    the state as it is. *)
Lemma yields_entry_assertions {A : Type} fuel obj_p name (k : M A) s
    (Q : A -> ecma_state_t -> Prop) :
  (JERRY_NDEBUG = false ->
   is_global_object s obj_p /\
   find_property (KEY_NAMED name) (properties_of s obj_p) = None) ->
  yields k s Q ->
  yields (JERRY_ASSERT_M (ecma_builtin_is fuel obj_p ECMA_BUILTIN_ID_GLOBAL) ;;;
          JERRY_ASSERT_M (found <- ecma_find_named_property obj_p name ;;
                          ret (bool_decide (found = None))) ;;;
          k) s Q.
Proof.
  intros Hpre HQ.
  apply yields_bind, yields_JERRY_ASSERT_M_pure.
  { intros Hdbg. destruct (Hpre Hdbg) as [(Hid & Hslot & Hobj) _].
    rewrite (ecma_builtin_is_instantiated fuel obj_p _ s obj_p Hid Hslot Hobj).
    now rewrite bool_decide_eq_true_2. }
  apply yields_bind, yields_JERRY_ASSERT_M_pure; [|exact HQ].
  intros Hdbg. destruct (Hpre Hdbg) as [(_ & _ & obj & Hobj & _) Habsent].
  rewrite (properties_of_lookup _ _ _ Hobj) in Habsent.
  unfold bind, ecma_find_named_property, find_property_ptr, bind, get_object, ret.
  now rewrite Hobj, Habsent.
Qed.

(** C7.  For a property name that is no magic string, or whose identifier is
    not in the table of the Global object, the routine returns [NULL] and
    leaves the whole state, the bitmask and the properties of the object
    included, as it was. *)
Theorem lookup_miss_changes_nothing (fuel : nat) (obj_p : ecma_object_ptr)
    (prop_name_p : ecma_string_t) (s : ecma_state_t) :
  strictly_ascending ecma_builtin_global_property_names ->
  (JERRY_NDEBUG = false ->
   is_global_object s obj_p /\
   find_property (KEY_NAMED prop_name_p) (properties_of s obj_p) = None) ->
  (forall id : Z,
     ecma_is_string_magic prop_name_p = Some id -> id ∉ ecma_builtin_global_property_names) ->
  ecma_builtin_global_try_to_instantiate_property fuel obj_p prop_name_p s = Ok (None, s).
Proof.
  intros Hsorted Hpre Hmiss.
  assert (Hy : yields (ecma_builtin_global_try_to_instantiate_property fuel obj_p prop_name_p) s
                 (fun r s' => r = None /\ s' = s)).
  { unfold ecma_builtin_global_try_to_instantiate_property.
    apply yields_entry_assertions; [exact Hpre|].
    destruct (ecma_is_string_magic prop_name_p) as [id|]; [|now apply yields_ret].
    apply yields_bind.
    eapply yields_lift; [apply global_bin_search_missing; auto|].
    simpl. now apply yields_ret. }
  destruct Hy as (r & s' & Hrun & -> & ->). exact Hrun.
Qed.


Lemma index_in_range (index : nat) id :
  ecma_builtin_global_property_names !! index = Some id -> 0 <= Z.of_nat index < 30.
Proof.
  intros Hindex. apply lookup_lt_Some in Hindex.
  pose proof global_property_names_length. lia.
Qed.

Lemma yields_index_assertion (index : nat) id s (Q : unit -> ecma_state_t -> Prop) :
  ecma_builtin_global_property_names !! index = Some id ->
  Q tt s ->
  yields (lift (JERRY_ASSERT ((Z.of_nat index >=? 0) && (to_uint32 (Z.of_nat index) <? 32)))) s Q.
Proof.
  intros Hindex HQ. apply index_in_range in Hindex.
  apply yields_JERRY_ASSERT; [|exact HQ]. intros _.
  rewrite to_uint32_id by lia.
  apply andb_true_iff. split; [apply Z.geb_le|apply Z.ltb_lt]; lia.
Qed.

(** A name whose bit is set in the bitmask of the object is not
    instantiated again: the routine returns [NULL] and changes nothing. *)
Lemma already_instantiated fuel obj_p name id index s obj :
  strictly_ascending ecma_builtin_global_property_names ->
  (JERRY_NDEBUG = false ->
   is_global_object s obj_p /\
   find_property (KEY_NAMED name) (properties_of s obj_p) = None) ->
  ecma_is_string_magic name = Some id ->
  ecma_builtin_global_property_names !! index = Some id ->
  heap s !! obj_p = Some obj ->
  is_instantiated (object_properties obj) index = true ->
  ecma_builtin_global_try_to_instantiate_property fuel obj_p name s = Ok (None, s).
Proof.
  intros Hsorted Hpre Hmagic Hindex Hobj Hbit.
  pose proof (index_in_range _ _ Hindex) as Hrange.
  unfold is_instantiated in Hbit.
  destruct (instantiated_mask (object_properties obj)) as [bit_mask|] eqn:Hmask;
    [|discriminate].
  apply instantiated_mask_find in Hmask.
  destruct Hmask as [[_ ->]|Hfind]; [now rewrite Z.bits_0 in Hbit|].
  assert (Hy : yields (ecma_builtin_global_try_to_instantiate_property fuel obj_p name) s
                 (fun r s' => r = None /\ s' = s)).
  { unfold ecma_builtin_global_try_to_instantiate_property.
    apply yields_entry_assertions; [exact Hpre|].
    rewrite Hmagic.
    apply yields_bind.
    eapply yields_lift; [exact (global_bin_search_found id index Hsorted Hindex)|].
    destruct (Z.eqb_spec (Z.of_nat index) (-1)); [lia|].
    apply yields_bind. eapply yields_index_assertion; [exact Hindex|].
    apply yields_bind. unfold ecma_find_internal_property, find_property_ptr.
    apply yields_bind. eapply yields_get_object; [exact Hobj|].
    rewrite Hfind. apply yields_ret.
    apply yields_bind, yields_ret.
    apply yields_bind. unfold get_internal_property_uint32, get_internal_property_value.
    apply yields_bind, yields_bind.
    eapply yields_load_property; [exact Hobj|exact Hfind|].
    apply yields_ret, yields_ret.
    rewrite bit_of_index, land_bit_testbit, Hbit by lia. simpl.
    now apply yields_ret. }
  destruct Hy as (r & s' & Hrun & -> & ->). exact Hrun.
Qed.

End GlobalPropertyProofs.

Lemma state_extends_properties s s' p obj :
  state_extends s s' -> heap s !! p = Some obj ->
  exists obj', heap s' !! p = Some obj' /\ object_properties obj' = object_properties obj.
Proof.
  intros (Hobjs & _) Hp. destruct (Hobjs _ _ Hp) as (obj' & Hp' & Hsame).
  exists obj'. split; [assumption|]. symmetry. now apply same_object_properties.
Qed.

Section CaseProofs.

Context `{build_t, magic_strings_t, builtins_t, collaborators_t}.

Lemma registry_wf_same s s' :
  registry_wf s ->
  ecma_builtin_objects s' = ecma_builtin_objects s ->
  (length (heap s) <= length (heap s'))%nat ->
  registry_wf s'.
Proof.
  intros [Hlen Hptr] Hreg Hheap. split; [congruence|].
  intros id p. rewrite Hreg. intros Hp. apply Hptr in Hp. lia.
Qed.

(** Dropping or taking a reference: only the counter of the object moves. *)
Lemma yields_deref_object p s (Q : unit -> ecma_state_t -> Prop) :
  (p < length (heap s))%nat ->
  (forall s',
     state_extends s s' ->
     ecma_builtin_objects s' = ecma_builtin_objects s ->
     length (heap s') = length (heap s) ->
     Q tt s') ->
  yields (ecma_deref_object p) s Q.
Proof.
  intros Hp HQ. destruct (lookup_lt_is_Some_2 _ _ Hp) as [obj Hobj].
  unfold ecma_deref_object. eapply yields_modify_object; [exact Hobj|].
  apply HQ; simpl.
  - eapply state_extends_modify; [exact Hobj|apply same_object_with_refs].
  - reflexivity.
  - apply length_insert.
Qed.

Lemma CASE_CONSTANT_spec value s :
  registry_wf s ->
  match value with ECMA_TYPE_OBJECT _ => False | _ => True end ->
  yields (CASE_CONSTANT value) s (break_post s).
Proof.
  intros Hwf Hvalue. apply yields_ret. exists value, false, false, false.
  split; [reflexivity|]. split; [assumption|]. split; [apply state_extends_refl|].
  now destruct value.
Qed.

Lemma CASE_BUILTIN_OBJECT_spec fuel id s :
  prototype_chain_ends fuel id = true ->
  registry_wf s ->
  yields (CASE_BUILTIN_OBJECT fuel id) s (break_post s).
Proof.
  intros Hends Hwf. unfold CASE_BUILTIN_OBJECT.
  apply yields_bind. eapply yields_weaken; [apply ecma_builtin_get_spec; assumption|].
  intros p s' (Hwf' & Hext & Hslot). apply yields_ret.
  exists (ecma_make_object_value p), true, false, true.
  split; [reflexivity|]. split; [assumption|]. split; [assumption|].
  destruct Hwf' as [_ Hptr]. exact (Hptr _ _ Hslot).
Qed.

Lemma CASE_ROUTINE_PROP_spec fuel id entry s :
  prototype_chain_ends fuel ECMA_BUILTIN_ID_FUNCTION_PROTOTYPE = true ->
  routine_id_layout_wf ->
  (ECMA_BUILTIN_ID_GLOBAL < ECMA_BUILTIN_ID__COUNT)%nat ->
  0 <= id < ECMA_MAGIC_STRING__COUNT ->
  registry_wf s ->
  yields (CASE_ROUTINE_PROP fuel id entry) s (break_post s).
Proof.
  intros Hends Hlayout Hglobal Hid Hwf. unfold CASE_ROUTINE_PROP.
  apply yields_bind.
  eapply yields_weaken;
    [apply ecma_builtin_make_function_object_for_routine_spec; [assumption|assumption|]|].
  { intros _. now apply routine_id_packed_value_spec. }
  intros f s' (Hwf' & Hext & _ & obj & proto & Hf & _). apply yields_ret.
  exists (ecma_make_object_value f), true, false, true.
  split; [reflexivity|]. split; [assumption|]. split; [assumption|].
  apply lookup_lt_Some in Hf. exact Hf.
Qed.

(** The case shared by the members that are not implemented, in the compact
    profile: an accessor whose getter and setter are the CompactProfileError
    object of the registry. *)
Lemma CASE_NOT_IMPLEMENTED_spec fuel obj_p name s obj :
  CONFIG_ECMA_COMPACT_PROFILE = true ->
  prototype_chain_ends fuel ECMA_BUILTIN_ID_COMPACT_PROFILE_ERROR = true ->
  registry_wf s ->
  heap s !! obj_p = Some obj ->
  yields (CASE_NOT_IMPLEMENTED fuel obj_p name) s
    (fun exit s' =>
       exit = SWITCH_RETURN {| property_owner := obj_p; property_ptr_key := KEY_NAMED name |} /\
       registry_wf s' /\
       (forall id q, ecma_builtin_objects s !! id = Some (Some q) ->
                     ecma_builtin_objects s' !! id = Some (Some q)) /\
       exists get_set_p obj',
         heap s' !! obj_p = Some obj' /\
         object_properties obj'
         = ECMA_PROPERTY_NAMEDACCESSOR name (Some get_set_p) (Some get_set_p) true false
           :: object_properties obj /\
         ecma_builtin_objects s' !! ECMA_BUILTIN_ID_COMPACT_PROFILE_ERROR
         = Some (Some get_set_p) /\
         exists s_get,
           ecma_builtin_get fuel ECMA_BUILTIN_ID_COMPACT_PROFILE_ERROR s = Ok (get_set_p, s_get) /\
           frame_except obj_p s_get s').
Proof.
  intros Hcompact Hends Hwf Hobj. unfold CASE_NOT_IMPLEMENTED. rewrite Hcompact.
  destruct (ecma_builtin_get_spec fuel ECMA_BUILTIN_ID_COMPACT_PROFILE_ERROR s Hends Hwf)
    as (p & s1 & Hget & Hwf1 & Hext1 & Hslot1).
  apply yields_bind. eapply yields_run; [exact Hget|].
  destruct (state_extends_properties _ _ _ _ Hext1 Hobj) as (obj1 & Hobj1 & Hprops1).
  apply yields_bind. unfold ecma_create_named_accessor_property.
  eapply yields_add_property; [exact Hobj1|].
  set (obj2 := with_properties _ obj1).
  set (s2 := {| heap := <[obj_p := obj2]> (heap s1);
                ecma_builtin_objects := ecma_builtin_objects s1 |}).
  assert (Hobj2 : heap s2 !! obj_p = Some obj2).
  { apply list_lookup_insert_eq. now apply lookup_lt_Some in Hobj1. }
  assert (Hwf2 : registry_wf s2) by now apply registry_wf_modify.
  apply yields_bind, yields_deref_object.
  { destruct Hwf2 as [_ Hptr2]. exact (Hptr2 _ _ Hslot1). }
  intros s3 Hext3 Hreg3 Hlen3. apply yields_ret. simpl.
  split; [reflexivity|]. split; [|split].
  - apply (registry_wf_same s2); [assumption|assumption|lia].
  - intros id q Hq. rewrite Hreg3. simpl. destruct Hext1 as (_ & _ & Hslots1). auto.
  - destruct (state_extends_properties _ _ _ _ Hext3 Hobj2) as (obj3 & Hobj3 & Hprops3).
    exists p, obj3. split; [assumption|]. split; [|split].
    + rewrite Hprops3. unfold obj2. simpl. now rewrite Hprops1.
    + now rewrite Hreg3.
    + exists s1. split; [exact Hget|]. split; [now rewrite Hreg3|].
      intros q o Hq Ho. destruct Hext3 as (Hobjs3 & _). apply Hobjs3. simpl.
      now rewrite list_lookup_insert_ne by auto.
Qed.


Lemma headers_wf_chain fuel id :
  headers_wf -> (ECMA_BUILTIN_ID__COUNT <= fuel)%nat ->
  (id < ECMA_BUILTIN_ID__COUNT)%nat ->
  prototype_chain_ends fuel id = true.
Proof.
  intros (Hlist & _) Hfuel Hid.
  eapply prototype_chain_ends_mono; [exact Hfuel|]. now apply builtin_list_wf_chain.
Qed.

(** Every case of the [switch] either is the case of the members that are
    not implemented, or ends in [break]. *)
Lemma case_body_spec fuel obj_p name id body s :
  headers_wf -> (ECMA_BUILTIN_ID__COUNT <= fuel)%nat ->
  registry_wf s ->
  0 <= id < ECMA_MAGIC_STRING__COUNT ->
  (id, body) ∈ global_property_cases fuel obj_p name id ->
  (body = CASE_NOT_IMPLEMENTED fuel obj_p name /\ id ∈ not_implemented_names) \/
  yields body s (break_post s).
Proof.
  intros Hwf Hfuel Hreg Hid Hin.
  pose proof Hwf as (Hlist & Hlayout & Hsorted & Hvalid & Hids & Hcpe).
  repeat (apply Forall_cons in Hids; destruct Hids as [? Hids]).
  unfold global_property_cases in Hin.
  rewrite !elem_of_app in Hin. destruct Hin as [Hin|[Hin|[Hin|Hin]]].
  - apply list_elem_of_fmap in Hin. destruct Hin as (entry & [= _ ->] & _).
    right. apply CASE_ROUTINE_PROP_spec; auto using headers_wf_chain.
  - right.
    repeat (apply elem_of_cons in Hin; destruct Hin as [[= _ ->]|Hin]);
      [..|now apply elem_of_nil in Hin];
      first [ now apply CASE_CONSTANT_spec
            | apply CASE_BUILTIN_OBJECT_spec; auto using headers_wf_chain ].
  - right. destruct CONFIG_ECMA_COMPACT_PROFILE; [|now apply elem_of_nil in Hin].
    apply elem_of_cons in Hin. destruct Hin as [[= _ ->]|Hin]; [|now apply elem_of_nil in Hin].
    apply CASE_BUILTIN_OBJECT_spec; auto using headers_wf_chain.
  - left. apply list_elem_of_fmap in Hin. destruct Hin as (label & [= -> ->] & Hlabel).
    auto.
Qed.

Lemma global_property_names_NoDup :
  strictly_ascending ecma_builtin_global_property_names ->
  NoDup ecma_builtin_global_property_names.
Proof.
  intros Hsorted. apply NoDup_alt. intros i j x. now apply strictly_ascending_unique.
Qed.

Lemma global_property_case_labels fuel obj_p name id :
  map fst (global_property_cases fuel obj_p name id) ≡ₚ ecma_builtin_global_property_names.
Proof.
  unfold global_property_cases, ecma_builtin_global_property_names, not_implemented_names.
  destruct CONFIG_ECMA_COMPACT_PROFILE; simpl; solve_Permutation.
Qed.

Lemma global_property_case_labels_NoDup fuel obj_p name id :
  strictly_ascending ecma_builtin_global_property_names ->
  NoDup (map fst (global_property_cases fuel obj_p name id)).
Proof.
  intros Hsorted. rewrite global_property_case_labels.
  now apply global_property_names_NoDup.
Qed.

End CaseProofs.

Section InstantiateProofs.

Context `{build_t, magic_strings_t, builtins_t, collaborators_t}.

Lemma yields_copy_value_no_ref value s (Q : ecma_value_t -> ecma_state_t -> Prop) :
  Q value s -> yields (ecma_copy_value value false) s Q.
Proof.
  intros HQ. destruct value; simpl; now apply yields_ret.
Qed.

Lemma yields_free_value value s (Q : unit -> ecma_state_t -> Prop) :
  match value with
  | ECMA_TYPE_OBJECT value_obj_p => (value_obj_p < length (heap s))%nat
  | _ => True
  end ->
  (forall s',
     state_extends s s' ->
     ecma_builtin_objects s' = ecma_builtin_objects s ->
     length (heap s') = length (heap s) ->
     Q tt s') ->
  yields (ecma_free_value value true) s Q.
Proof.
  intros Hvalue HQ.
  destruct value; simpl; try (apply yields_ret, HQ; auto using state_extends_refl).
  now apply yields_deref_object.
Qed.

(** The [switch] and what follows it: the property of the name is put in
    front of the properties of the object. *)
Lemma instantiate_tail fuel obj_p name id s obj :
  headers_wf -> (ECMA_BUILTIN_ID__COUNT <= fuel)%nat ->
  registry_wf s ->
  id ∈ ecma_builtin_global_property_names ->
  heap s !! obj_p = Some obj ->
  CONFIG_ECMA_COMPACT_PROFILE = true \/ id ∉ not_implemented_names ->
  yields
    (exit <- switch id (global_property_cases fuel obj_p name id) (abort UNREACHABLE) ;;
     match exit with
     | SWITCH_RETURN prop_p => ret (Some prop_p)
     | SWITCH_BREAK value writable enumerable configurable =>
         prop_p <- ecma_create_named_data_property obj_p name
                     writable enumerable configurable ;;
         copied_value <- ecma_copy_value value false ;;
         set_named_data_property_value prop_p copied_value ;;;
         ecma_free_value value true ;;;
         ret (Some prop_p)
     end) s
    (fun r s' =>
       r = Some {| property_owner := obj_p; property_ptr_key := KEY_NAMED name |} /\
       registry_wf s' /\
       (forall id' q, ecma_builtin_objects s !! id' = Some (Some q) ->
                      ecma_builtin_objects s' !! id' = Some (Some q)) /\
       exists obj' new_prop,
         heap s' !! obj_p = Some obj' /\
         object_properties obj' = new_prop :: object_properties obj /\
         (id ∈ not_implemented_names ->
          exists get_set_p,
            new_prop = ECMA_PROPERTY_NAMEDACCESSOR name (Some get_set_p) (Some get_set_p)
                         true false /\
            ecma_builtin_objects s' !! ECMA_BUILTIN_ID_COMPACT_PROFILE_ERROR
            = Some (Some get_set_p) /\
            exists s_get,
              ecma_builtin_get fuel ECMA_BUILTIN_ID_COMPACT_PROFILE_ERROR s
              = Ok (get_set_p, s_get) /\
              frame_except obj_p s_get s') /\
         (id ∉ not_implemented_names ->
          exists s_sw value writable enumerable configurable,
            switch id (global_property_cases fuel obj_p name id) (abort UNREACHABLE) s
            = Ok (SWITCH_BREAK value writable enumerable configurable, s_sw) /\
            new_prop = ECMA_PROPERTY_NAMEDDATA name value writable enumerable configurable /\
            frame_except obj_p s_sw s')).
Proof.
  intros Hwf Hfuel Hreg Hid Hobj Himpl.
  pose proof Hwf as (Hlist & Hlayout & Hsorted & Hvalid & Hids & Hcpe).
  assert (Hrange : 0 <= id < ECMA_MAGIC_STRING__COUNT).
  { rewrite Forall_forall in Hvalid. auto. }
  apply yields_bind.
  destruct (decide (id ∈ not_implemented_names)) as [Hni|Hni].
  - destruct Himpl as [Hcompact|]; [|contradiction].
    assert (Hcase : switch id (global_property_cases fuel obj_p name id) (abort UNREACHABLE)
                    = CASE_NOT_IMPLEMENTED fuel obj_p name).
    { apply switch_NoDup; [now apply global_property_case_labels_NoDup|].
      unfold global_property_cases. rewrite !elem_of_app. do 3 right.
      apply list_elem_of_fmap. exists id. split; [reflexivity|assumption]. }
    rewrite Hcase.
    eapply yields_weaken.
    { apply (CASE_NOT_IMPLEMENTED_spec fuel obj_p name s obj); try assumption.
      apply headers_wf_chain; auto. }
    intros exit s' (-> & Hreg' & Hslots & p & obj' & Hobj' & Hprops' & Hslot' & Hget').
    apply yields_ret. split; [reflexivity|]. split; [assumption|]. split; [assumption|].
    exists obj', (ECMA_PROPERTY_NAMEDACCESSOR name (Some p) (Some p) true false).
    split; [assumption|]. split; [assumption|]. split; [|contradiction].
    intros _. now exists p.
  - pose proof (switch_In id (global_property_cases fuel obj_p name id) (abort UNREACHABLE))
      as Hin.
    rewrite global_property_case_labels in Hin. specialize (Hin Hid).
    destruct (case_body_spec _ _ _ _ _ s Hwf Hfuel Hreg Hrange Hin) as [[_ ?]|Hbody];
      [contradiction|].
    destruct Hbody as (exit & s1 & Hrun & value & w & e & c & -> & Hreg1 & Hext1 & Hvalue).
    eapply yields_run; [exact Hrun|].
    destruct (state_extends_properties _ _ _ _ Hext1 Hobj) as (obj1 & Hobj1 & Hprops1).
    apply yields_bind. unfold ecma_create_named_data_property.
    eapply yields_add_property; [exact Hobj1|].
    set (data0 := ECMA_PROPERTY_NAMEDDATA name _ w e c).
    set (s2 := {| heap := <[obj_p := with_properties (data0 :: object_properties obj1) obj1]>
                            (heap s1);
                  ecma_builtin_objects := ecma_builtin_objects s1 |}).
    assert (Hlt1 : (obj_p < length (heap s1))%nat) by now apply lookup_lt_Some in Hobj1.
    assert (Hobj2 : heap s2 !! obj_p
                    = Some (with_properties (data0 :: object_properties obj1) obj1)).
    { now apply list_lookup_insert_eq. }
    apply yields_bind, yields_copy_value_no_ref.
    apply yields_bind. unfold set_named_data_property_value.
    change (KEY_NAMED name) with (property_key data0).
    eapply yields_store_property; [exact Hobj2|apply find_property_head|].
    cbn [object_properties with_properties]. rewrite replace_property_head.
    set (data := with_named_data_value value data0).
    set (obj3 := with_properties (data :: object_properties obj1) _).
    set (s3 := {| heap := <[obj_p := obj3]> (heap s2);
                  ecma_builtin_objects := ecma_builtin_objects s2 |}).
    assert (Hobj3 : heap s3 !! obj_p = Some obj3).
    { apply list_lookup_insert_eq. simpl. now rewrite length_insert. }
    assert (Hlen3 : length (heap s3) = length (heap s1)).
    { simpl. now rewrite !length_insert. }
    apply yields_bind, yields_free_value.
    { destruct value; try exact I. now rewrite Hlen3. }
    intros s4 Hext4 Hreg4 Hlen4. apply yields_ret.
    split; [reflexivity|]. split; [|split].
    + apply (registry_wf_same s1); [assumption|now rewrite Hreg4|lia].
    + intros id' q Hq. rewrite Hreg4. simpl. destruct Hext1 as (_ & _ & Hslots1). auto.
    + destruct (state_extends_properties _ _ _ _ Hext4 Hobj3) as (obj4 & Hobj4 & Hprops4).
      exists obj4, data. split; [assumption|]. split.
      * rewrite Hprops4. unfold obj3. simpl. now rewrite Hprops1.
      * split; [contradiction|]. intros _.
        exists s1, value, w, e, c. split; [exact Hrun|]. split; [reflexivity|].
        split; [now rewrite Hreg4|].
        intros q o Hq Ho. destruct Hext4 as (Hobjs4 & _). apply Hobjs4. simpl.
        now rewrite !list_lookup_insert_ne by auto.
Qed.


(** The first instantiation of a name of the table: the bit of its index
    is set in the bitmask and its property is put in front of the
    properties of the object. *)
Lemma first_instantiation fuel obj_p name id index bit_mask s obj :
  headers_wf -> (ECMA_BUILTIN_ID__COUNT <= fuel)%nat ->
  registry_wf s ->
  is_global_object s obj_p ->
  heap s !! obj_p = Some obj ->
  find_property (KEY_NAMED name) (object_properties obj) = None ->
  ecma_is_string_magic name = Some id ->
  ecma_builtin_global_property_names !! index = Some id ->
  instantiated_mask (object_properties obj) = Some bit_mask ->
  Z.testbit bit_mask (Z.of_nat index) = false ->
  CONFIG_ECMA_COMPACT_PROFILE = true \/ id ∉ not_implemented_names ->
  yields (ecma_builtin_global_try_to_instantiate_property fuel obj_p name) s
    (fun r s' =>
       r = Some {| property_owner := obj_p; property_ptr_key := KEY_NAMED name |} /\
       registry_wf s' /\
       (forall id' q, ecma_builtin_objects s !! id' = Some (Some q) ->
                      ecma_builtin_objects s' !! id' = Some (Some q)) /\
       exists obj' new_prop props,
         heap s' !! obj_p = Some obj' /\
         object_properties obj' = new_prop :: props /\
         instantiated_mask props = Some (Z.lor bit_mask (2 ^ Z.of_nat index)) /\
         (forall name', named_properties name' props
                        = named_properties name' (object_properties obj)) /\
         (id ∈ not_implemented_names ->
          exists get_set_p,
            new_prop = ECMA_PROPERTY_NAMEDACCESSOR name (Some get_set_p) (Some get_set_p)
                         true false /\
            ecma_builtin_objects s' !! ECMA_BUILTIN_ID_COMPACT_PROFILE_ERROR
            = Some (Some get_set_p) /\
            exists s_in s_get,
              registry_wf s_in /\
              (obj_p < length (heap s_in))%nat /\
              ecma_builtin_objects s_in = ecma_builtin_objects s /\
              (forall q, q <> obj_p -> heap s_in !! q = heap s !! q) /\
              ecma_builtin_get fuel ECMA_BUILTIN_ID_COMPACT_PROFILE_ERROR s_in
              = Ok (get_set_p, s_get) /\
              frame_except obj_p s_get s') /\
         (id ∉ not_implemented_names ->
          exists s_in s_sw value writable enumerable configurable,
            registry_wf s_in /\
            (obj_p < length (heap s_in))%nat /\
            ecma_builtin_objects s_in = ecma_builtin_objects s /\
            switch id (global_property_cases fuel obj_p name id) (abort UNREACHABLE) s_in
            = Ok (SWITCH_BREAK value writable enumerable configurable, s_sw) /\
            new_prop = ECMA_PROPERTY_NAMEDDATA name value writable enumerable configurable /\
            frame_except obj_p s_sw s')).
Proof.
  intros Hwf Hfuel Hreg Hglobal Hobj Habsent Hmagic Hindex Hmask Hbit Himpl.
  pose proof Hwf as (Hlist & Hlayout & Hsorted & Hvalid & Hids & Hcpe).
  pose proof (index_in_range _ _ Hindex) as Hrange.
  set (mask_id := ECMA_INTERNAL_PROPERTY_NON_INSTANTIATED_BUILT_IN_MASK_0_31) in *.
  unfold ecma_builtin_global_try_to_instantiate_property. fold mask_id.
  apply yields_entry_assertions.
  { intros _. split; [assumption|]. now rewrite (properties_of_lookup _ _ _ Hobj). }
  rewrite Hmagic.
  apply yields_bind.
  eapply yields_lift; [exact (global_bin_search_found id index Hsorted Hindex)|].
  destruct (Z.eqb_spec (Z.of_nat index) (-1)); [lia|].
  apply yields_bind. eapply yields_index_assertion; [exact Hindex|].
  rewrite bit_of_index by lia.
  apply yields_bind. unfold ecma_find_internal_property, find_property_ptr.
  apply yields_bind. eapply yields_get_object; [exact Hobj|]. apply yields_ret.
  apply yields_bind.
  (* the bitmask property, found or created *)
  apply yields_weaken with
    (Q := fun mask_prop_p s0 =>
            mask_prop_p = {| property_owner := obj_p; property_ptr_key := KEY_INTERNAL mask_id |} /\
            registry_wf s0 /\
            ecma_builtin_objects s0 = ecma_builtin_objects s /\
            (forall q, q <> obj_p -> heap s0 !! q = heap s !! q) /\
            exists obj0,
              heap s0 !! obj_p = Some obj0 /\
              find_property (KEY_INTERNAL mask_id) (object_properties obj0)
              = Some (ECMA_PROPERTY_INTERNAL mask_id (INTERNAL_UINT32 bit_mask)) /\
              forall name', named_properties name' (object_properties obj0)
                            = named_properties name' (object_properties obj)).
  { apply instantiated_mask_find in Hmask. fold mask_id in Hmask.
    destruct Hmask as [[Hnone ->]|Hfound].
    - rewrite Hnone.
      apply yields_bind. unfold ecma_create_internal_property.
      eapply yields_add_property; [exact Hobj|].
      set (mask0 := ECMA_PROPERTY_INTERNAL mask_id (INTERNAL_UINT32 0)).
      set (obj1 := with_properties (mask0 :: object_properties obj) obj).
      set (s1 := {| heap := <[obj_p := obj1]> (heap s);
                    ecma_builtin_objects := ecma_builtin_objects s |}).
      assert (Hlt : (obj_p < length (heap s))%nat) by now apply lookup_lt_Some in Hobj.
      assert (Hobj1 : heap s1 !! obj_p = Some obj1) by now apply list_lookup_insert_eq.
      apply yields_bind. unfold set_internal_property_value.
      change (property_key mask0) with (KEY_INTERNAL mask_id).
      eapply yields_store_property; [exact Hobj1|reflexivity|].
      apply yields_ret. simpl.
      split; [reflexivity|]. split.
      { apply (registry_wf_same s); [assumption|reflexivity|].
        simpl. rewrite !length_insert. lia. }
      split; [reflexivity|].
      split; [intros q Hq; now rewrite !list_lookup_insert_ne by auto|].
      eexists. split.
      { apply list_lookup_insert_eq. now rewrite length_insert. }
      split; [reflexivity|].
      intros name'. reflexivity.
    - rewrite Hfound. apply yields_ret.
      split; [reflexivity|]. split; [assumption|]. split; [reflexivity|].
      split; [reflexivity|].
      exists obj. auto. }
  intros mask_prop_p s0 (-> & Hreg0 & Hslots0 & Hframe0 & obj0 & Hobj0 & Hfind0 & Hnamed0).
  apply yields_bind. unfold get_internal_property_uint32, get_internal_property_value.
  apply yields_bind, yields_bind.
  eapply yields_load_property; [exact Hobj0|exact Hfind0|].
  apply yields_ret, yields_ret.
  rewrite land_bit_testbit, Hbit by lia. simpl.
  apply yields_bind. unfold set_internal_property_value.
  eapply yields_store_property; [exact Hobj0|exact Hfind0|].
  set (new_mask := INTERNAL_UINT32 (Z.lor bit_mask (2 ^ Z.of_nat index))).
  set (props1 := replace_property (KEY_INTERNAL mask_id) (with_internal_value new_mask)
                   (object_properties obj0)).
  set (obj1 := with_properties props1 obj0).
  set (s1 := {| heap := <[obj_p := obj1]> (heap s0);
                ecma_builtin_objects := ecma_builtin_objects s0 |}).
  assert (Hobj1 : heap s1 !! obj_p = Some obj1).
  { apply list_lookup_insert_eq. now apply lookup_lt_Some in Hobj0. }
  assert (Hreg1 : registry_wf s1) by now apply registry_wf_modify.
  eapply yields_weaken.
  { apply (instantiate_tail fuel obj_p name id s1 obj1); try assumption.
    now apply list_elem_of_lookup_2 in Hindex. }
  intros r s' (-> & Hreg' & Hslots' & obj' & new_prop & Hobj' & Hprops' & Haccessor & Hdata).
  split; [reflexivity|]. split; [assumption|]. split.
  { intros id' q Hq. apply Hslots'. simpl. now rewrite Hslots0. }
  exists obj', new_prop, props1.
  split; [assumption|]. split; [assumption|]. split; [|split; [|split]].
  3:{ intros Hni. destruct (Haccessor Hni) as (get_set_p & Hnew & Hslot & s_get & Hget & Hframe).
      exists get_set_p. split; [assumption|]. split; [assumption|].
      exists s1, s_get.
      split; [assumption|]. split; [now apply lookup_lt_Some in Hobj1|].
      split; [exact Hslots0|]. split; [|auto].
      intros q Hq. simpl. rewrite list_lookup_insert_ne by auto. now apply Hframe0. }
  3:{ intros Hni. destruct (Hdata Hni) as (s_sw & value & w & e & c & Hrun & Hnew & Hframe).
      exists s1, s_sw, value, w, e, c.
      split; [assumption|]. split; [now apply lookup_lt_Some in Hobj1|].
      split; [exact Hslots0|]. auto. }
  - unfold instantiated_mask. fold mask_id. unfold props1.
    rewrite (find_property_replace _ _ _ _ Hfind0) by reflexivity. reflexivity.
  - intros name'. rewrite <- Hnamed0. unfold props1.
    apply named_properties_replace; [discriminate|].
    intros prop Hkey. now rewrite with_internal_value_key.
Qed.


Lemma is_instantiated_object s obj_p index :
  is_instantiated (properties_of s obj_p) index = true ->
  exists obj, heap s !! obj_p = Some obj /\ is_instantiated (object_properties obj) index = true.
Proof.
  unfold properties_of. destruct (heap s !! obj_p) as [obj|]; [eauto|].
  unfold is_instantiated, instantiated_mask. simpl. now rewrite Z.bits_0.
Qed.

(** C3, as the code has it.  For a name of the table that the build
    implements (every name in the compact profile, every name but Date,
    RegExp, the errors and JSON otherwise) and whose property is not yet
    instantiated, the first call creates the property, the only one of that
    name, and sets the bit of the name in the bitmask.  From then on a call
    for the name returns [NULL] and changes nothing, in every state in which
    the bit is set and, when assertions are compiled in, the object has no
    property of that name again; without assertions this is so for the call
    that follows the first at once. *)
Theorem lazy_property_instantiated_once (fuel : nat) (obj_p : ecma_object_ptr)
    (prop_name_p : ecma_string_t) (id : Z) (index : nat) (bit_mask : Z)
    (s : ecma_state_t) (obj : ecma_object_t) :
  headers_wf -> (ECMA_BUILTIN_ID__COUNT <= fuel)%nat ->
  registry_wf s ->
  is_global_object s obj_p ->
  heap s !! obj_p = Some obj ->
  find_property (KEY_NAMED prop_name_p) (object_properties obj) = None ->
  ecma_is_string_magic prop_name_p = Some id ->
  ecma_builtin_global_property_names !! index = Some id ->
  instantiated_mask (object_properties obj) = Some bit_mask ->
  Z.testbit bit_mask (Z.of_nat index) = false ->
  CONFIG_ECMA_COMPACT_PROFILE = true \/ id ∉ not_implemented_names ->
  exists (prop_p : ecma_property_ptr) (s1 : ecma_state_t),
    ecma_builtin_global_try_to_instantiate_property fuel obj_p prop_name_p s
    = Ok (Some prop_p, s1) /\
    length (named_properties prop_name_p (properties_of s1 obj_p)) = 1%nat /\
    is_instantiated (properties_of s1 obj_p) index = true /\
    (JERRY_NDEBUG = true ->
     ecma_builtin_global_try_to_instantiate_property fuel obj_p prop_name_p s1
     = Ok (None, s1)) /\
    (forall s2 : ecma_state_t,
       is_instantiated (properties_of s2 obj_p) index = true ->
       (JERRY_NDEBUG = false ->
        is_global_object s2 obj_p /\
        find_property (KEY_NAMED prop_name_p) (properties_of s2 obj_p) = None) ->
       ecma_builtin_global_try_to_instantiate_property fuel obj_p prop_name_p s2
       = Ok (None, s2)).
Proof.
  intros Hwf Hfuel Hreg Hglobal Hobj Habsent Hmagic Hindex Hmask Hbit Himpl.
  pose proof Hwf as (_ & _ & Hsorted & _).
  pose proof (index_in_range _ _ Hindex) as Hrange.
  destruct (first_instantiation fuel obj_p prop_name_p id index bit_mask s obj
              Hwf Hfuel Hreg Hglobal Hobj Habsent Hmagic Hindex Hmask Hbit Himpl)
    as (r & s1 & Hrun & -> & Hreg1 & Hslots1 & obj1 & new_prop & props & Hobj1 & Hprops1
        & Hmask1 & Hnamed1 & Haccessor & Hdata).
  assert (Hkey : property_key new_prop = KEY_NAMED prop_name_p).
  { destruct (decide (id ∈ not_implemented_names)) as [Hni|Hni].
    - destruct (Haccessor Hni) as (p & -> & _). reflexivity.
    - destruct (Hdata Hni) as (? & ? & v & w & e & c & _ & _ & _ & _ & -> & _). reflexivity. }
  assert (Hmask1' : is_instantiated (object_properties obj1) index = true).
  { unfold is_instantiated, instantiated_mask. rewrite Hprops1. simpl.
    rewrite decide_False by (rewrite Hkey; discriminate).
    unfold instantiated_mask in Hmask1.
    destruct (find_property _ props) as [[? []| |]|]; try discriminate;
      injection Hmask1 as ->; now apply lor_bit_testbit. }
  assert (Hagain : forall s2 : ecma_state_t,
             is_instantiated (properties_of s2 obj_p) index = true ->
             (JERRY_NDEBUG = false ->
              is_global_object s2 obj_p /\
              find_property (KEY_NAMED prop_name_p) (properties_of s2 obj_p) = None) ->
             ecma_builtin_global_try_to_instantiate_property fuel obj_p prop_name_p s2
             = Ok (None, s2)).
  { intros s2 Hbit2 Hpre2.
    destruct (is_instantiated_object _ _ _ Hbit2) as (obj2 & Hobj2 & Hbit2').
    now apply (already_instantiated fuel obj_p prop_name_p id index s2 obj2). }
  exists {| property_owner := obj_p; property_ptr_key := KEY_NAMED prop_name_p |}, s1.
  split; [exact Hrun|].
  rewrite (properties_of_lookup _ _ _ Hobj1).
  split; [|split; [exact Hmask1'|split; [|exact Hagain]]].
  - rewrite Hprops1. unfold named_properties.
    rewrite filter_cons, decide_True by assumption.
    fold (named_properties prop_name_p props).
    rewrite Hnamed1, (named_properties_absent _ _ Habsent). reflexivity.
  - intros Hrelease. apply Hagain.
    + now rewrite (properties_of_lookup _ _ _ Hobj1).
    + intros Hdbg. congruence.
Qed.

End InstantiateProofs.

(** ** The order check, the initial registry *)

Section DebugOrderCheck.

Context `{build_t}.

(** With assertions compiled in, the search checks the order of the array
    before it looks for the key: it returns only on an array that ascends
    strictly, and fails the assertion on any other. *)
Theorem search_checks_the_order (ids : list Z) (key : Z) :
  JERRY_NDEBUG = false ->
  (forall r, ecma_builtin_bin_search_for_magic_string_id_in_array ids key = Ok r ->
             strictly_ascending ids) /\
  (~ strictly_ascending ids ->
   ecma_builtin_bin_search_for_magic_string_id_in_array ids key = Abort ASSERTION).
Proof.
  intros Hdbg.
  unfold ecma_builtin_bin_search_for_magic_string_id_in_array, JERRY_ASSERT.
  rewrite Hdbg.
  destruct (ids_are_sorted ids) eqn:Hsorted; simpl.
  - apply ids_are_sorted_ascending in Hsorted. split; [auto|contradiction].
  - split; [discriminate|reflexivity].
Qed.

End DebugOrderCheck.



(** ** The property each name of the table stands for *)

Lemma routine_function_object_same `{magic_strings_t, builtins_t} builtin_id routine_id len
    proto obj obj' :
  same_object obj obj' ->
  routine_function_object builtin_id routine_id len proto obj ->
  routine_function_object builtin_id routine_id len proto obj'.
Proof.
  intros Hsame (Hkind & Hbuiltin & Hproto & Hprops).
  pose proof (f_equal object_kind Hsame) as Hk.
  pose proof (f_equal object_is_builtin Hsame) as Hb.
  pose proof (f_equal object_prototype Hsame) as Hp.
  pose proof (f_equal object_properties Hsame) as Hq.
  simpl in Hk, Hb, Hp, Hq.
  repeat split; congruence.
Qed.

Section PropertyProofs.

Context `{build_t, magic_strings_t, builtins_t, collaborators_t}.

(** The [[Call]] of the function object of a routine goes to the routine
    dispatcher with the two identifiers the object was made for. *)
Lemma routine_function_call_dispatches fuel builtin_id routine_id len prototype_obj_p
    func_obj_p obj this_arg_value arguments_list s :
  routine_id_layout_wf ->
  (builtin_id < ECMA_BUILTIN_ID__COUNT)%nat ->
  0 <= routine_id < ECMA_MAGIC_STRING__COUNT ->
  heap s !! func_obj_p = Some obj ->
  routine_function_object builtin_id routine_id len prototype_obj_p obj ->
  ecma_builtin_dispatch_call fuel func_obj_p this_arg_value arguments_list s
  = ecma_builtin_dispatch_routine builtin_id routine_id this_arg_value arguments_list s.
Proof.
  intros Hlayout Hid Hrid Hobj (Hkind & Hbuiltin & _ & Hprops).
  destruct (routine_id_packed_value_spec builtin_id routine_id Hlayout Hid Hrid)
    as (_ & Hfield1 & Hfield2 & Hbound).
  apply Z.ltb_lt in Hbound.
  assert (Hbound2 : (routine_id <? ECMA_MAGIC_STRING__COUNT) = true) by (apply Z.ltb_lt; lia).
  unfold ecma_builtin_dispatch_call, JERRY_ASSERT_M, ecma_get_object_is_builtin,
    ecma_get_object_type, ecma_get_internal_property, ecma_find_internal_property,
    find_property_ptr, get_internal_property_uint32, get_internal_property_value,
    load_property, get_object, bind, ret, lift.
  unfold JERRY_ASSERT.
  destruct JERRY_NDEBUG;
    repeat first [ rewrite Hobj | rewrite Hprops | rewrite Hbuiltin | rewrite Hkind
                 | rewrite decide_True by reflexivity
                 | rewrite decide_False by discriminate
                 | progress cbn ].
  - now rewrite Hfield1, Hfield2.
  - rewrite Hbound, Hfield2, Hbound2, Hfield1. reflexivity.
Qed.

(** *** The cases that end in [break] *)

Lemma CASE_BUILTIN_OBJECT_run fuel id s :
  prototype_chain_ends fuel id = true ->
  registry_wf s ->
  exists p s',
    CASE_BUILTIN_OBJECT fuel id s
    = Ok (SWITCH_BREAK (ecma_make_object_value p) true false true, s') /\
    ecma_builtin_objects s' !! id = Some (Some p).
Proof.
  intros Hends Hwf.
  destruct (ecma_builtin_get_spec fuel id s Hends Hwf) as (p & s' & Hrun & _ & _ & Hslot).
  exists p, s'. split; [|exact Hslot].
  unfold CASE_BUILTIN_OBJECT, bind. now rewrite Hrun.
Qed.

Lemma CASE_ROUTINE_PROP_run fuel id entry s :
  prototype_chain_ends fuel ECMA_BUILTIN_ID_FUNCTION_PROTOTYPE = true ->
  routine_id_layout_wf ->
  (ECMA_BUILTIN_ID_GLOBAL < ECMA_BUILTIN_ID__COUNT)%nat ->
  0 <= id < ECMA_MAGIC_STRING__COUNT ->
  registry_wf s ->
  exists f s' func proto,
    CASE_ROUTINE_PROP fuel id entry s
    = Ok (SWITCH_BREAK (ecma_make_object_value f) true false true, s') /\
    (length (heap s) <= f)%nat /\
    heap s' !! f = Some func /\
    routine_function_object ECMA_BUILTIN_ID_GLOBAL id (ECMA_NUMBER_FINITE (routine_length entry))
      proto func.
Proof.
  intros Hends Hlayout Hglobal Hid Hwf.
  destruct (ecma_builtin_make_function_object_for_routine_spec fuel ECMA_BUILTIN_ID_GLOBAL id
              (ECMA_NUMBER_FINITE (routine_length entry)) s Hends Hwf)
    as (f & s' & Hrun & _ & _ & Hfresh & func & proto & Hf & _ & Hfunc).
  { intros _. now apply routine_id_packed_value_spec. }
  exists f, s', func, proto. split; [|auto].
  unfold CASE_ROUTINE_PROP, bind. now rewrite Hrun.
Qed.

Lemma CASE_NOT_IMPLEMENTED_returns fuel obj_p name s exit s' :
  CASE_NOT_IMPLEMENTED fuel obj_p name s = Ok (exit, s') ->
  exists prop_p, exit = SWITCH_RETURN prop_p.
Proof.
  unfold CASE_NOT_IMPLEMENTED. destruct CONFIG_ECMA_COMPACT_PROFILE; [|discriminate].
  unfold bind, ret.
  destruct (ecma_builtin_get _ _ s) as [[p s1]|]; [|discriminate].
  destruct (ecma_create_named_accessor_property _ _ _ _ _ _ s1) as [[q s2]|]; [|discriminate].
  destruct (ecma_deref_object p s2) as [[[] s3]|]; [|discriminate].
  intros [= <- <-]. eauto.
Qed.

(** A case that ends in [break] is not the case of the members that are
    not implemented. *)
Lemma break_case_is_implemented fuel obj_p name id body s value w e c s' :
  strictly_ascending ecma_builtin_global_property_names ->
  (id, body) ∈ global_property_cases fuel obj_p name id ->
  body s = Ok (SWITCH_BREAK value w e c, s') ->
  id ∉ not_implemented_names.
Proof.
  intros Hsorted Hin Hrun Hni.
  pose proof (global_property_case_labels_NoDup fuel obj_p name id Hsorted) as Hnd.
  assert (Hin' : (id, CASE_NOT_IMPLEMENTED fuel obj_p name)
                 ∈ global_property_cases fuel obj_p name id).
  { unfold global_property_cases. rewrite !elem_of_app. do 3 right.
    apply list_elem_of_fmap. exists id. split; [reflexivity|assumption]. }
  pose proof (switch_NoDup id _ _ (abort UNREACHABLE) Hnd Hin) as Hbody.
  rewrite (switch_NoDup id _ _ (abort UNREACHABLE) Hnd Hin') in Hbody. subst body.
  apply CASE_NOT_IMPLEMENTED_returns in Hrun. destruct Hrun as [? [=]].
Qed.

(** The first instantiation of a name whose case ends in [break]: the case
    is run once the bit is set, and the property of the name is the data
    property of the value and the attributes the case has set. *)
Lemma data_property_instantiation fuel obj_p name id index bit_mask s obj body :
  headers_wf -> (ECMA_BUILTIN_ID__COUNT <= fuel)%nat ->
  registry_wf s ->
  is_global_object s obj_p ->
  heap s !! obj_p = Some obj ->
  find_property (KEY_NAMED name) (object_properties obj) = None ->
  ecma_is_string_magic name = Some id ->
  ecma_builtin_global_property_names !! index = Some id ->
  instantiated_mask (object_properties obj) = Some bit_mask ->
  Z.testbit bit_mask (Z.of_nat index) = false ->
  (id, body) ∈ global_property_cases fuel obj_p name id ->
  (exists value w e c s', body s = Ok (SWITCH_BREAK value w e c, s')) ->
  exists s_in s_sw s' value w e c,
    ecma_builtin_global_try_to_instantiate_property fuel obj_p name s
    = Ok (Some {| property_owner := obj_p; property_ptr_key := KEY_NAMED name |}, s') /\
    registry_wf s_in /\
    (obj_p < length (heap s_in))%nat /\
    body s_in = Ok (SWITCH_BREAK value w e c, s_sw) /\
    find_property (KEY_NAMED name) (properties_of s' obj_p)
    = Some (ECMA_PROPERTY_NAMEDDATA name value w e c) /\
    frame_except obj_p s_sw s'.
Proof.
  intros Hwf Hfuel Hreg Hglobal Hobj Habsent Hmagic Hindex Hmask Hbit Hin
    (value0 & w0 & e0 & c0 & s0 & Hrun0).
  pose proof Hwf as (_ & _ & Hsorted & _).
  pose proof (break_case_is_implemented _ _ _ _ _ _ _ _ _ _ _ Hsorted Hin Hrun0) as Hni.
  destruct (first_instantiation fuel obj_p name id index bit_mask s obj
              Hwf Hfuel Hreg Hglobal Hobj Habsent Hmagic Hindex Hmask Hbit (or_intror Hni))
    as (r & s' & Hrun & -> & Hreg' & Hslots' & obj' & new_prop & props & Hobj' & Hprops'
        & _ & _ & _ & Hdata).
  destruct (Hdata Hni) as (s_in & s_sw & value & w & e & c & Hreg_in & Hlt & _ & Hsw & -> & Hframe).
  rewrite (switch_NoDup id body) in Hsw;
    [|now apply global_property_case_labels_NoDup|assumption].
  exists s_in, s_sw, s', value, w, e, c.
  split; [exact Hrun|]. split; [assumption|]. split; [assumption|]. split; [assumption|].
  split; [|assumption].
  rewrite (properties_of_lookup _ _ _ Hobj'), Hprops'. apply find_property_head.
Qed.


(** The constants of the Global object. *)
Theorem global_constant_property (fuel : nat) (obj_p : ecma_object_ptr) (name : ecma_string_t)
    (id : Z) (value : ecma_value_t) (index : nat) (bit_mask : Z) (s : ecma_state_t)
    (obj : ecma_object_t) :
  headers_wf -> (ECMA_BUILTIN_ID__COUNT <= fuel)%nat ->
  registry_wf s ->
  is_global_object s obj_p ->
  heap s !! obj_p = Some obj ->
  find_property (KEY_NAMED name) (object_properties obj) = None ->
  ecma_is_string_magic name = Some id ->
  ecma_builtin_global_property_names !! index = Some id ->
  instantiated_mask (object_properties obj) = Some bit_mask ->
  Z.testbit bit_mask (Z.of_nat index) = false ->
  (id, value) ∈ [ (ECMA_MAGIC_STRING_UNDEFINED,
                    ecma_make_simple_value ECMA_SIMPLE_VALUE_UNDEFINED);
                  (ECMA_MAGIC_STRING_NAN, ecma_make_number_value ecma_number_make_nan);
                  (ECMA_MAGIC_STRING_INFINITY_UL,
                    ecma_make_number_value (ecma_number_make_infinity false)) ] ->
  exists s' : ecma_state_t,
    ecma_builtin_global_try_to_instantiate_property fuel obj_p name s
    = Ok (Some {| property_owner := obj_p; property_ptr_key := KEY_NAMED name |}, s') /\
    find_property (KEY_NAMED name) (properties_of s' obj_p)
    = Some (ECMA_PROPERTY_NAMEDDATA name value false false false).
Proof.
  intros Hwf Hfuel Hreg Hglobal Hobj Habsent Hmagic Hindex Hmask Hbit Hconst.
  assert (Hin : (id, CASE_CONSTANT value) ∈ global_property_cases fuel obj_p name id).
  { unfold global_property_cases. rewrite !elem_of_app. right. left.
    repeat (apply elem_of_cons in Hconst; destruct Hconst as [[= -> ->]|Hconst]);
      [..|now apply elem_of_nil in Hconst]; rewrite !elem_of_cons; tauto. }
  destruct (data_property_instantiation fuel obj_p name id index bit_mask s obj
              (CASE_CONSTANT value) Hwf Hfuel Hreg Hglobal Hobj Habsent Hmagic Hindex Hmask
              Hbit Hin)
    as (s_in & s_sw & s' & v & w & e & c & Hrun & _ & _ & Hsw & Hfind & _).
  { now exists value, false, false, false, s. }
  injection Hsw as <- <- <- <- _.
  exists s'. auto.
Qed.

(** The built-in objects that are properties of the Global object. *)
Theorem global_builtin_object_property (fuel : nat) (obj_p : ecma_object_ptr)
    (name : ecma_string_t) (id : Z) (builtin_id : nat) (index : nat) (bit_mask : Z)
    (s : ecma_state_t) (obj : ecma_object_t) :
  headers_wf -> (ECMA_BUILTIN_ID__COUNT <= fuel)%nat ->
  registry_wf s ->
  is_global_object s obj_p ->
  heap s !! obj_p = Some obj ->
  find_property (KEY_NAMED name) (object_properties obj) = None ->
  ecma_is_string_magic name = Some id ->
  ecma_builtin_global_property_names !! index = Some id ->
  instantiated_mask (object_properties obj) = Some bit_mask ->
  Z.testbit bit_mask (Z.of_nat index) = false ->
  (id, builtin_id) ∈ [ (ECMA_MAGIC_STRING_OBJECT_UL, ECMA_BUILTIN_ID_OBJECT);
                       (ECMA_MAGIC_STRING_MATH_UL, ECMA_BUILTIN_ID_MATH);
                       (ECMA_MAGIC_STRING_STRING_UL, ECMA_BUILTIN_ID_STRING);
                       (ECMA_MAGIC_STRING_BOOLEAN_UL, ECMA_BUILTIN_ID_BOOLEAN);
                       (ECMA_MAGIC_STRING_NUMBER_UL, ECMA_BUILTIN_ID_NUMBER);
                       (ECMA_MAGIC_STRING_ARRAY_UL, ECMA_BUILTIN_ID_ARRAY);
                       (ECMA_MAGIC_STRING_FUNCTION_UL, ECMA_BUILTIN_ID_FUNCTION) ]
                     ++ (if CONFIG_ECMA_COMPACT_PROFILE
                         then [ (ECMA_MAGIC_STRING_COMPACT_PROFILE_ERROR_UL,
                                  ECMA_BUILTIN_ID_COMPACT_PROFILE_ERROR) ]
                         else []) ->
  exists (s' : ecma_state_t) (builtin_obj_p : ecma_object_ptr),
    ecma_builtin_global_try_to_instantiate_property fuel obj_p name s
    = Ok (Some {| property_owner := obj_p; property_ptr_key := KEY_NAMED name |}, s') /\
    find_property (KEY_NAMED name) (properties_of s' obj_p)
    = Some (ECMA_PROPERTY_NAMEDDATA name (ecma_make_object_value builtin_obj_p)
              true false true) /\
    ecma_builtin_objects s' !! builtin_id = Some (Some builtin_obj_p).
Proof.
  intros Hwf Hfuel Hreg Hglobal Hobj Habsent Hmagic Hindex Hmask Hbit Hobject.
  assert (Hin : (id, CASE_BUILTIN_OBJECT fuel builtin_id)
                ∈ global_property_cases fuel obj_p name id
                /\ (builtin_id < ECMA_BUILTIN_ID__COUNT)%nat).
  { pose proof Hwf as (_ & _ & _ & _ & Hids & Hcpe).
    repeat (apply Forall_cons in Hids; destruct Hids as [? Hids]).
    unfold global_property_cases. rewrite !elem_of_app.
    apply elem_of_app in Hobject. destruct Hobject as [Hobject|Hobject].
    - repeat (apply elem_of_cons in Hobject; destruct Hobject as [[= -> ->]|Hobject]);
        [..|now apply elem_of_nil in Hobject];
        (split; [right; left; rewrite !elem_of_cons; tauto|assumption]).
    - destruct CONFIG_ECMA_COMPACT_PROFILE; [|now apply elem_of_nil in Hobject].
      apply elem_of_cons in Hobject.
      destruct Hobject as [[= -> ->]|Hobject]; [|now apply elem_of_nil in Hobject].
      split; [right; right; left; apply list_elem_of_here|auto]. }
  destruct Hin as [Hin Hid].
  pose proof (headers_wf_chain fuel builtin_id Hwf Hfuel Hid) as Hends.
  destruct (data_property_instantiation fuel obj_p name id index bit_mask s obj
              (CASE_BUILTIN_OBJECT fuel builtin_id) Hwf Hfuel Hreg Hglobal Hobj Habsent Hmagic
              Hindex Hmask Hbit Hin)
    as (s_in & s_sw & s' & v & w & e & c & Hrun & Hreg_in & _ & Hsw & Hfind & Hframe).
  { destruct (CASE_BUILTIN_OBJECT_run fuel builtin_id s Hends Hreg) as (p & s1 & Hrun1 & _).
    eauto 6. }
  destruct (CASE_BUILTIN_OBJECT_run fuel builtin_id s_in Hends Hreg_in)
    as (p & s1 & Hrun1 & Hslot).
  rewrite Hrun1 in Hsw. injection Hsw as <- <- <- <- <-.
  exists s', p. split; [exact Hrun|]. split; [exact Hfind|].
  destruct Hframe as [-> _]. exact Hslot.
Qed.

(** The routines of the Global object: the property is a function object
    of the routine, whose [length] is the one of the table and whose
    [[Call]] reaches the dispatcher with the routine's identifier. *)
Theorem global_routine_property (fuel : nat) (obj_p : ecma_object_ptr) (name : ecma_string_t)
    (id : Z) (entry : routine_property_t) (index : nat) (bit_mask : Z) (s : ecma_state_t)
    (obj : ecma_object_t) :
  headers_wf -> (ECMA_BUILTIN_ID__COUNT <= fuel)%nat ->
  registry_wf s ->
  is_global_object s obj_p ->
  heap s !! obj_p = Some obj ->
  find_property (KEY_NAMED name) (object_properties obj) = None ->
  ecma_is_string_magic name = Some id ->
  ecma_builtin_global_property_names !! index = Some id ->
  instantiated_mask (object_properties obj) = Some bit_mask ->
  Z.testbit bit_mask (Z.of_nat index) = false ->
  entry ∈ ECMA_BUILTIN_GLOBAL_OBJECT_ROUTINES_PROPERTY_LIST ->
  routine_name entry = id ->
  exists (s' : ecma_state_t) (func_obj_p : ecma_object_ptr) (func : ecma_object_t)
         (prototype_obj_p : ecma_object_ptr),
    ecma_builtin_global_try_to_instantiate_property fuel obj_p name s
    = Ok (Some {| property_owner := obj_p; property_ptr_key := KEY_NAMED name |}, s') /\
    find_property (KEY_NAMED name) (properties_of s' obj_p)
    = Some (ECMA_PROPERTY_NAMEDDATA name (ecma_make_object_value func_obj_p)
              true false true) /\
    heap s' !! func_obj_p = Some func /\
    routine_function_object ECMA_BUILTIN_ID_GLOBAL id
      (ECMA_NUMBER_FINITE (routine_length entry)) prototype_obj_p func /\
    forall (this_arg_value : ecma_value_t) (arguments_list : list ecma_value_t),
      ecma_builtin_dispatch_call fuel func_obj_p this_arg_value arguments_list s'
      = ecma_builtin_dispatch_routine ECMA_BUILTIN_ID_GLOBAL id this_arg_value
          arguments_list s'.
Proof.
  intros Hwf Hfuel Hreg Hglobal Hobj Habsent Hmagic Hindex Hmask Hbit Hentry Hname.
  pose proof Hwf as (_ & Hlayout & _ & Hvalid & Hids & _).
  repeat (apply Forall_cons in Hids; destruct Hids as [? Hids]).
  assert (Hrange : 0 <= id < ECMA_MAGIC_STRING__COUNT).
  { rewrite Forall_forall in Hvalid. apply Hvalid.
    now apply list_elem_of_lookup_2 in Hindex. }
  assert (Hends : prototype_chain_ends fuel ECMA_BUILTIN_ID_FUNCTION_PROTOTYPE = true)
    by now apply headers_wf_chain.
  assert (Hin : (id, CASE_ROUTINE_PROP fuel id entry)
                ∈ global_property_cases fuel obj_p name id).
  { unfold global_property_cases. rewrite !elem_of_app. left.
    apply list_elem_of_fmap. exists entry. split; [now rewrite Hname|assumption]. }
  destruct (data_property_instantiation fuel obj_p name id index bit_mask s obj
              (CASE_ROUTINE_PROP fuel id entry) Hwf Hfuel Hreg Hglobal Hobj Habsent Hmagic
              Hindex Hmask Hbit Hin)
    as (s_in & s_sw & s' & v & w & e & c & Hrun & Hreg_in & Hlt & Hsw & Hfind & Hframe).
  { destruct (CASE_ROUTINE_PROP_run fuel id entry s) as (f & s1 & ? & ? & Hrun1 & _);
      try assumption.
    eauto 6. }
  destruct (CASE_ROUTINE_PROP_run fuel id entry s_in)
    as (f & s1 & func & proto & Hrun1 & Hfresh & Hf & Hfunc); try assumption.
  rewrite Hrun1 in Hsw. injection Hsw as <- <- <- <- <-.
  destruct Hframe as [_ Hframe].
  destruct (Hframe f func) as (func' & Hf' & Hsame); [lia|assumption|].
  pose proof (routine_function_object_same _ _ _ _ _ _ Hsame Hfunc) as Hfunc'.
  exists s', f, func', proto.
  split; [exact Hrun|]. split; [exact Hfind|]. split; [exact Hf'|]. split; [exact Hfunc'|].
  intros this_arg_value arguments_list.
  now apply (routine_function_call_dispatches fuel ECMA_BUILTIN_ID_GLOBAL id
               (ECMA_NUMBER_FINITE (routine_length entry)) proto f func').
Qed.

End PropertyProofs.

(** * Further properties *)

(** ** The search without the order check *)

Section SearchSafety.

Context `{build_t}.

Lemma bin_search_loop_safe (ids : list Z) (key : Z) :
  Z.of_nat (length ids) <= 2 ^ 30 ->
  forall (fuel : nat) (min max : Z),
    0 <= min -> max < Z.of_nat (length ids) ->
    max - min + 1 <= Z.of_nat fuel ->
    exists r : Z,
      bin_search_loop fuel ids key min max = Ok r /\
      (r = -1 \/ (0 <= r < Z.of_nat (length ids) /\ ids !! Z.to_nat r = Some key)).
Proof.
  intros Hlen fuel.
  induction fuel as [|fuel IH]; intros min max Hmin Hmax Hfuel.
  - exists (-1). simpl. destruct (Z.leb_spec min max); [lia|]. auto.
  - simpl. destruct (Z.leb_spec min max) as [Hmm|Hmm]; [|exists (-1); auto].
    rewrite (to_int32_id (min + max)) by lia.
    assert (Hmid : min <= (min + max) ÷ 2 <= max).
    { rewrite Z.quot_div_nonneg by lia.
      split; [apply Z.div_le_lower_bound|apply Z.div_le_upper_bound]; lia. }
    set (mid := (min + max) ÷ 2) in *.
    unfold array_get. destruct (Z.ltb_spec mid 0); [lia|].
    destruct (lookup_lt_is_Some_2 ids (Z.to_nat mid)) as [id_mid Hid]; [lia|].
    rewrite Hid.
    destruct (Z.eqb_spec id_mid key) as [->|Hne].
    { exists mid. split; [reflexivity|]. right. split; [lia|exact Hid]. }
    destruct (Z.gtb_spec id_mid key) as [Hgt|Hngt].
    + rewrite (to_int32_id (mid - 1)) by lia. apply IH; lia.
    + assert (Hlt : id_mid < key) by lia.
      apply Z.ltb_lt in Hlt. rewrite Hlt, JERRY_ASSERT_true. simpl.
      rewrite (to_int32_id (mid + 1)) by lia. apply IH; lia.
Qed.

(** Without the assertions the search does not check the order of the
    array, and it is safe all the same: on any array, ordered or not, it
    returns within the array length, reads no element out of the array, and
    an index it returns is an index of the key. *)
Theorem search_is_safe_on_any_array (ids : list Z) (key : Z) :
  JERRY_NDEBUG = true ->
  Z.of_nat (length ids) <= 2 ^ 30 ->
  exists r : Z,
    ecma_builtin_bin_search_for_magic_string_id_in_array ids key = Ok r /\
    (r = -1 \/ (0 <= r < Z.of_nat (length ids) /\ ids !! Z.to_nat r = Some key)).
Proof.
  intros Hrelease Hlen.
  unfold ecma_builtin_bin_search_for_magic_string_id_in_array, JERRY_ASSERT.
  rewrite Hrelease. simpl. rewrite to_int32_id by lia.
  apply bin_search_loop_safe; lia.
Qed.

End SearchSafety.

Section RoutineDispatch.

Context `{build_t, magic_strings_t, builtins_t, collaborators_t}.

Lemma ROUTINE_ARG_lookup (arguments_list : list ecma_value_t) (n : nat) :
  ROUTINE_ARG arguments_list (Z.of_nat (S n))
  = default (ecma_make_simple_value ECMA_SIMPLE_VALUE_UNDEFINED) (arguments_list !! n).
Proof.
  unfold ROUTINE_ARG.
  replace (Z.of_nat (S n) - 1) with (Z.of_nat n) by lia.
  rewrite array_get_nat.
  destruct (Z.geb_spec (Z.of_nat (length arguments_list)) (Z.of_nat (S n))) as [Hge|Hlt].
  - now destruct (arguments_list !! n).
  - rewrite lookup_ge_None_2 by lia. reflexivity.
Qed.

Lemma ROUTINE_ARG_1 (arguments_list : list ecma_value_t) :
  ROUTINE_ARG arguments_list 1
  = default (ecma_make_simple_value ECMA_SIMPLE_VALUE_UNDEFINED) (arguments_list !! 0%nat).
Proof. exact (ROUTINE_ARG_lookup arguments_list 0). Qed.

Lemma ROUTINE_ARG_2 (arguments_list : list ecma_value_t) :
  ROUTINE_ARG arguments_list 2
  = default (ecma_make_simple_value ECMA_SIMPLE_VALUE_UNDEFINED) (arguments_list !! 1%nat).
Proof. exact (ROUTINE_ARG_lookup arguments_list 1). Qed.

(** The dispatcher hands a routine its formal parameters and no more: the
    arguments beyond the arity of the routine are dropped. *)
Theorem surplus_arguments_are_dropped (id : Z) (entry : routine_property_t)
    (this_arg_value : ecma_value_t) (arguments_list : list ecma_value_t) :
  find_global_routine id = Some entry ->
  (routine_args_number entry <= length arguments_list)%nat ->
  routine_call (routine_c_function_name entry)
    (take (routine_args_number entry) arguments_list)
  = Some (ecma_builtin_global_dispatch_routine id this_arg_value arguments_list).
Proof.
  intros Hfind Hlong.
  rewrite ecma_builtin_global_dispatch_routine_unfold, Hfind.
  apply find_global_routine_In in Hfind. destruct Hfind as [_ Hin].
  unfold ECMA_BUILTIN_GLOBAL_OBJECT_ROUTINES_PROPERTY_LIST in Hin.
  repeat (apply elem_of_cons in Hin; destruct Hin as [->|Hin]);
    [..|now apply elem_of_nil in Hin];
    unfold CASE_ROUTINE_PROP_LIST;
    cbn [routine_args_number routine_c_function_name] in Hlong |- *;
    rewrite ?ROUTINE_ARG_1, ?ROUTINE_ARG_2;
    destruct arguments_list as [|a [|b l]]; simpl in Hlong; try lia; reflexivity.
Qed.

(** A routine identifier that is no routine of the Global object is a
    fatal error of the dispatcher, whatever the arguments. *)
Theorem unknown_routine_is_unreachable (id : Z) (this_arg_value : ecma_value_t)
    (arguments_list : list ecma_value_t) (s : ecma_state_t) :
  id ∉ map routine_name ECMA_BUILTIN_GLOBAL_OBJECT_ROUTINES_PROPERTY_LIST ->
  ecma_builtin_global_dispatch_routine id this_arg_value arguments_list s = Abort UNREACHABLE.
Proof.
  intros Hid. unfold ecma_builtin_global_dispatch_routine.
  rewrite switch_not_In; [reflexivity|].
  now rewrite map_map.
Qed.

End RoutineDispatch.

(** ** References and the number routines *)

Section GetDeref.

Context `{build_t, magic_strings_t, builtins_t}.

(** Taking a reference to an instantiated built-in and dropping it again
    leaves the engine as it was: [ecma_builtin_get] adds one reference to
    the singleton and touches nothing else. *)
Theorem get_then_deref_restores (fuel id : nat) (s : ecma_state_t) (p : ecma_object_ptr) :
  (id < ECMA_BUILTIN_ID__COUNT)%nat ->
  ecma_builtin_objects s !! id = Some (Some p) ->
  (p < length (heap s))%nat ->
  (obj_p <- ecma_builtin_get fuel id ;; ecma_deref_object obj_p ;;; ret obj_p) s = Ok (p, s).
Proof.
  intros Hid Hslot Hp.
  destruct (lookup_lt_is_Some_2 _ _ Hp) as [obj Hobj].
  unfold bind at 1. rewrite (ecma_builtin_get_instantiated fuel id s p obj Hid Hslot Hobj).
  unfold bind, ecma_deref_object, modify_object, ret.
  cbn [heap ecma_builtin_objects].
  rewrite list_lookup_insert_eq by assumption.
  rewrite list_insert_insert_eq.
  replace (with_refs _ (with_refs _ obj)) with obj by now destruct obj.
  rewrite list_insert_id by assumption.
  now destruct s.
Qed.

End GetDeref.

Section NumberRoutines.

Context `{build_t, magic_strings_t, builtins_t, collaborators_t}.

Lemma ECMA_TRY_CATCH_throw op block s var s1 :
  op s = Ok (var, s1) ->
  ecma_is_completion_value_throw var = true ->
  ECMA_TRY_CATCH op block s = Ok (var, s1).
Proof.
  intros Hop Hthrow. unfold ECMA_TRY_CATCH, bind. now rewrite Hop, Hthrow.
Qed.

Lemma ECMA_TRY_CATCH_number op block s num s1 :
  op s = Ok ({| completion_type := ECMA_COMPLETION_TYPE_NORMAL;
                completion_value := ECMA_TYPE_NUMBER num |}, s1) ->
  ECMA_TRY_CATCH op block s
  = block {| completion_type := ECMA_COMPLETION_TYPE_NORMAL;
             completion_value := ECMA_TYPE_NUMBER num |} s1.
Proof.
  intros Hop. unfold ECMA_TRY_CATCH, bind. rewrite Hop. simpl.
  rewrite JERRY_ASSERT_true. simpl.
  destruct (block _ s1) as [[r s2]|]; reflexivity.
Qed.

(** isNaN and isFinite convert their argument to a number and answer by
    it: a throw of the conversion is returned as it is, in the state the
    conversion left; on a number, isNaN is true for NaN only and isFinite
    is false for NaN and the two infinities only. *)
Theorem is_nan_and_is_finite_answers (arg : ecma_value_t) (s s1 : ecma_state_t)
    (var : ecma_completion_value_t) :
  ecma_op_to_number arg s = Ok (var, s1) ->
  (ecma_is_completion_value_throw var = true ->
   ecma_builtin_global_object_is_nan arg s = Ok (var, s1) /\
   ecma_builtin_global_object_is_finite arg s = Ok (var, s1)) /\
  (forall num : ecma_number_t,
     var = {| completion_type := ECMA_COMPLETION_TYPE_NORMAL;
              completion_value := ECMA_TYPE_NUMBER num |} ->
     ecma_builtin_global_object_is_nan arg s
     = Ok (ecma_make_simple_completion_value
             (if ecma_number_is_nan num then ECMA_SIMPLE_VALUE_TRUE
              else ECMA_SIMPLE_VALUE_FALSE), s1) /\
     ecma_builtin_global_object_is_finite arg s
     = Ok (ecma_make_simple_completion_value
             (match num with
              | ECMA_NUMBER_FINITE _ => ECMA_SIMPLE_VALUE_TRUE
              | _ => ECMA_SIMPLE_VALUE_FALSE
              end), s1)).
Proof.
  intros Hop. split.
  - intros Hthrow.
    unfold ecma_builtin_global_object_is_nan, ecma_builtin_global_object_is_finite.
    split; now apply ECMA_TRY_CATCH_throw.
  - intros num ->.
    unfold ecma_builtin_global_object_is_nan, ecma_builtin_global_object_is_finite.
    rewrite !(ECMA_TRY_CATCH_number _ _ _ _ _ Hop). simpl.
    split; [reflexivity|]. now destruct num.
Qed.

End NumberRoutines.

(** ** The invariants of the registry *)

Section RegistryInvariants.

Context `{build_t, magic_strings_t, builtins_t}.

(** [ecma_builtin_init_object] appends one object to the heap, with one
    reference, and leaves the rest of the engine as it is. *)
Lemma ecma_builtin_init_object_run id proto type cls s :
  exists obj : ecma_object_t,
    ecma_builtin_init_object id proto type cls s
    = Ok (length (heap s), {| heap := heap s ++ [obj];
                              ecma_builtin_objects := ecma_builtin_objects s |}) /\
    fresh_builtin_object id proto type obj /\
    object_refs obj = 1%nat /\
    object_is_extensible obj = true /\
    instantiated_mask (object_properties obj) = Some 0.
Proof.
  assert (Hy : yields (ecma_builtin_init_object id proto type cls) s
                 (fun p s' =>
                    p = length (heap s) /\
                    exists obj,
                      s' = {| heap := heap s ++ [obj];
                              ecma_builtin_objects := ecma_builtin_objects s |} /\
                      fresh_builtin_object id proto type obj /\
                      object_refs obj = 1%nat /\
                      object_is_extensible obj = true /\
                      instantiated_mask (object_properties obj) = Some 0)).
  { destruct s as [h r].
    unfold ecma_builtin_init_object, ecma_create_internal_property,
      set_internal_property_value, ecma_set_object_is_builtin, switch.
    repeat case_decide;
      repeat first
        [ apply yields_create_object
        | (apply yields_add_property_last; [reflexivity|])
        | (eapply yields_store_property_last; [reflexivity|reflexivity|])
        | (apply yields_modify_last; [reflexivity|])
        | apply yields_ret
        | apply yields_bind ];
      cbn;
      (split; [reflexivity|]);
      eexists; (split; [reflexivity|]);
      unfold fresh_builtin_object; cbn; repeat split; auto. }
  destruct Hy as (p & s' & Hrun & -> & obj & -> & Hfacts).
  exists obj. split; [exact Hrun|exact Hfacts].
Qed.

Lemma registry_tagged_grow s obj id :
  registry_wf s -> registry_tagged s ->
  (id < length (ecma_builtin_objects s))%nat ->
  (exists entry,
     find_builtin_entry id = Some entry /\
     fresh_builtin_object id (object_prototype obj) (entry_object_type entry) obj) ->
  registry_tagged {| heap := heap s ++ [obj];
                     ecma_builtin_objects :=
                       <[id := Some (length (heap s))]> (ecma_builtin_objects s) |}.
Proof.
  intros [Hlen Hptr] Htag Hid (entry & Hentry & Hfresh) id' p. simpl.
  destruct (decide (id = id')) as [<-|Hne].
  - rewrite list_lookup_insert_eq by assumption. intros [= <-].
    exists entry, obj. split; [assumption|]. split; [apply lookup_snoc_last|].
    destruct Hfresh as (_ & Hkind & Hb & Hlex & Hfind & _). auto.
  - rewrite list_lookup_insert_ne by assumption. intros Hp.
    destruct (Htag _ _ Hp) as (entry' & obj' & He' & Hobj' & Hrest).
    exists entry', obj'. split; [assumption|]. split; [|assumption].
    now apply lookup_app_l_Some.
Qed.

Lemma ecma_instantiate_builtin_keeps fuel :
  forall id s,
    prototype_chain_ends fuel id = true ->
    registry_wf s -> registry_tagged s ->
    ecma_builtin_objects s !! id = Some None ->
    yields (ecma_instantiate_builtin fuel id) s
      (fun _ s' =>
         instantiation s s' /\
         exists p, ecma_builtin_objects s' !! id = Some (Some p) /\
                   (length (heap s) <= p)%nat /\
                   exists obj,
                     heap s' !! p = Some obj /\ object_refs obj = 1%nat /\
                     (forall name, find_property (KEY_NAMED name) (object_properties obj)
                                   = None) /\
                     instantiated_mask (object_properties obj) = Some 0).
Proof.
  induction fuel as [|fuel IH]; intros id s Hends Hwf Htag Hslot; [discriminate|].
  pose proof (prototype_chain_ends_S _ _ Hends) as (entry & Hentry & Hid & Hproto).
  pose proof (find_builtin_entry_id _ _ Hentry) as Heid.
  pose proof (prototype_chain_ends_irrefl _ _ _ Hentry Hends) as Hirrefl.
  rewrite ecma_instantiate_builtin_unfold, Hentry.
  unfold CASE_BUILTIN. rewrite Heid.
  set (proto := entry_object_prototype_builtin_id entry) in *.
  apply yields_bind, yields_JERRY_ASSERT_M_pure.
  { intros _. unfold bind, get_builtin_object, ret. now rewrite Hslot. }
  apply yields_bind.
  apply yields_weaken with
    (Q := fun r s1 =>
            instantiation s s1 /\
            if decide (proto = ECMA_BUILTIN_ID__COUNT) then r = None
            else exists q, r = Some q /\ ecma_builtin_objects s1 !! proto = Some (Some q)).
  { assert (Hrefl : instantiation s s).
    { split; [assumption|]. split; [assumption|]. split; [|auto].
      exists []. now rewrite app_nil_r. }
    case_decide as Hcount.
    - apply yields_ret. split; [assumption|reflexivity].
    - destruct Hproto as [Hproto|Hproto]; [contradiction|].
      pose proof (prototype_chain_ends_lt _ _ Hproto) as Hlt.
      pose proof Hwf as [Hlen Hptr].
      destruct (lookup_lt_is_Some_2 (ecma_builtin_objects s) proto) as [slot Hpslot]; [lia|].
      apply yields_bind. eapply yields_get_builtin_object; [exact Hpslot|].
      apply yields_bind.
      apply yields_weaken with
        (Q := fun _ s1 =>
                instantiation s s1 /\
                exists q, ecma_builtin_objects s1 !! proto = Some (Some q)).
      + case_decide as Hnone.
        * subst slot.
          eapply yields_weaken; [apply IH; assumption|].
          intros _ s1 (Hinst & q & Hq & _). eauto.
        * apply yields_ret. split; [assumption|].
          destruct slot as [q|]; [eauto|contradiction].
      + intros _ s1 (Hinst & q & Hq).
        apply yields_bind. eapply yields_get_builtin_object; [exact Hq|].
        apply yields_bind, yields_JERRY_ASSERT; [intros _; now apply bool_decide_eq_true|].
        apply yields_ret. eauto. }
  intros r s1 ((Hwf1 & Htag1 & (new1 & Hheap1 & Hrefs1) & Hkeep1 & Hnew1) & Hr).
  apply yields_bind.
  destruct (ecma_builtin_init_object_run id r (entry_object_type entry)
              (entry_object_class entry) s1) as (obj & Hrun & Hfresh & Hrefs & _ & Hnomask).
  eapply yields_run; [exact Hrun|].
  pose proof Hwf1 as [Hlen1 Hptr1].
  destruct (lookup_lt_is_Some_2 (ecma_builtin_objects s1) id) as [slot1 Hslot1]; [lia|].
  eapply yields_set_builtin_object; [exact Hslot1|]. cbn [heap ecma_builtin_objects].
  assert (Hle : (length (heap s) <= length (heap s1))%nat).
  { rewrite Hheap1, length_app. lia. }
  split; [split; [|split; [|split; [|split]]]|].
  - split; simpl.
    + rewrite length_insert. congruence.
    + intros id' q. rewrite length_app. simpl.
      destruct (decide (id = id')) as [<-|Hne].
      * rewrite list_lookup_insert_eq by (now apply lookup_lt_Some in Hslot1).
        intros [= <-]. lia.
      * rewrite list_lookup_insert_ne by assumption.
        intros Hq. apply Hptr1 in Hq. lia.
  - apply registry_tagged_grow; [assumption|assumption|lia|].
    exists entry. split; [assumption|].
    destruct Hfresh as (Hp & Hfresh). unfold fresh_builtin_object. rewrite Hp. auto.
  - exists (new1 ++ [obj]). split; [now rewrite Hheap1, app_assoc|].
    apply Forall_app. split; [assumption|]. now constructor.
  - intros id' q Hq. simpl. destruct (decide (id = id')) as [<-|Hne]; [congruence|].
    rewrite list_lookup_insert_ne by assumption. auto.
  - intros id' q. simpl. destruct (decide (id = id')) as [<-|Hne].
    + rewrite list_lookup_insert_eq by (now apply lookup_lt_Some in Hslot1).
      intros [= <-]. right. lia.
    + rewrite list_lookup_insert_ne by assumption. intros Hq.
      destruct (Hnew1 _ _ Hq); [auto|right; lia].
  - exists (length (heap s1)). simpl. split.
    { apply list_lookup_insert_eq. now apply lookup_lt_Some in Hslot1. }
    split; [assumption|]. exists obj. split; [apply lookup_snoc_last|].
    split; [assumption|]. split; [|assumption].
    now destruct Hfresh as (_ & _ & _ & _ & _ & Hnamed).
Qed.


Lemma registry_tagged_refs s p obj refs :
  heap s !! p = Some obj ->
  registry_tagged s ->
  registry_tagged {| heap := <[p := with_refs refs obj]> (heap s);
                     ecma_builtin_objects := ecma_builtin_objects s |}.
Proof.
  intros Hobj Htag id q Hq. simpl in Hq.
  destruct (Htag _ _ Hq) as (entry & o & He & Ho & Hfacts).
  destruct (decide (p = q)) as [<-|Hne].
  - exists entry, (with_refs refs obj). split; [assumption|]. split.
    { simpl. apply list_lookup_insert_eq. now apply lookup_lt_Some in Hobj. }
    assert (o = obj) by congruence. subst o. exact Hfacts.
  - exists entry, o. split; [assumption|]. split; [|assumption].
    simpl. now rewrite list_lookup_insert_ne.
Qed.

(** The objects of two slots are two objects. *)
Lemma registry_tagged_injective s i j p :
  registry_tagged s ->
  ecma_builtin_objects s !! i = Some (Some p) ->
  ecma_builtin_objects s !! j = Some (Some p) ->
  i = j.
Proof.
  intros Htag Hi Hj.
  destruct (Htag _ _ Hi) as (_ & oi & _ & Hoi & _ & _ & _ & Hfi).
  destruct (Htag _ _ Hj) as (_ & oj & _ & Hoj & _ & _ & _ & Hfj).
  assert (oi = oj) by congruence. subst oj.
  rewrite Hfi in Hfj. injection Hfj as Heq. lia.
Qed.

(** [ecma_builtin_get] in steps: the slot is instantiated when it is empty,
    and the object of the slot gets one more reference. *)
Lemma ecma_builtin_get_keeps fuel id s :
  prototype_chain_ends fuel id = true ->
  registry_wf s -> registry_tagged s ->
  exists (p : ecma_object_ptr) (s1 : ecma_state_t) (obj : ecma_object_t),
    instantiation s s1 /\
    ecma_builtin_objects s1 !! id = Some (Some p) /\
    heap s1 !! p = Some obj /\
    (ecma_builtin_objects s !! id = Some (Some p) /\ s1 = s \/
     ecma_builtin_objects s !! id = Some None /\
     (length (heap s) <= p)%nat /\ object_refs obj = 1%nat /\
     (forall name, find_property (KEY_NAMED name) (object_properties obj) = None) /\
     instantiated_mask (object_properties obj) = Some 0) /\
    ecma_builtin_get fuel id s
    = Ok (p, {| heap := <[p := with_refs (S (object_refs obj)) obj]> (heap s1);
                ecma_builtin_objects := ecma_builtin_objects s1 |}).
Proof.
  intros Hends Hwf Htag.
  pose proof (prototype_chain_ends_lt _ _ Hends) as Hid.
  pose proof Hwf as [Hlen Hptr].
  destruct (lookup_lt_is_Some_2 (ecma_builtin_objects s) id) as [[p|] Hslot]; [lia| |].
  - destruct (lookup_lt_is_Some_2 (heap s) p) as [obj Hobj]; [eauto|].
    exists p, s, obj.
    split.
    { split; [assumption|]. split; [assumption|]. split; [|auto].
      exists []. now rewrite app_nil_r. }
    split; [assumption|]. split; [assumption|]. split; [auto|].
    now apply ecma_builtin_get_instantiated.
  - destruct (ecma_instantiate_builtin_keeps fuel id s Hends Hwf Htag Hslot)
      as ([] & s1 & Hrun & Hinst & p & Hp & Hfresh & obj & Hobj & Hrefs & Hnamed & Hnomask).
    exists p, s1, obj.
    split; [assumption|]. split; [assumption|]. split; [assumption|].
    split; [right; repeat split; assumption|].
    now apply (ecma_builtin_get_empty fuel id s s1 p obj).
Qed.


(** *** Finalization *)

Lemma filter_agree {A : Type} (P Q : A -> Prop) `{!forall x, Decision (P x)}
    `{!forall x, Decision (Q x)} (l : list A) :
  (forall x, x ∈ l -> P x <-> Q x) -> filter P l = filter Q l.
Proof.
  induction l as [|x l IH]; intros Hagree; [reflexivity|].
  rewrite !filter_cons.
  rewrite IH by (intros y Hy; apply Hagree; now apply list_elem_of_further).
  pose proof (Hagree x (list_elem_of_here x l)) as Hx.
  repeat case_decide; tauto || reflexivity.
Qed.

Lemma filter_none {A : Type} (P : A -> Prop) `{!forall x, Decision (P x)} (l : list A) :
  (forall x, x ∈ l -> ~ P x) -> filter P l = [].
Proof.
  induction l as [|x l IH]; intros Hnone; [reflexivity|].
  rewrite filter_cons, decide_False by (apply Hnone, list_elem_of_here).
  apply IH. intros y Hy. apply Hnone. now apply list_elem_of_further.
Qed.

Lemma filter_single {A : Type} (P : A -> Prop) `{!forall x, Decision (P x)} (l : list A)
    (a : A) :
  NoDup l -> a ∈ l -> (forall x, x ∈ l -> P x <-> x = a) -> filter P l = [a].
Proof.
  induction l as [|x l IH]; intros Hnd Ha Hiff; [now apply elem_of_nil in Ha|].
  apply NoDup_cons in Hnd. destruct Hnd as [Hx Hnd].
  rewrite filter_cons.
  pose proof (Hiff x (list_elem_of_here x l)) as Hpx.
  apply elem_of_cons in Ha. destruct Ha as [->|Ha].
  - rewrite decide_True by tauto. f_equal.
    apply filter_none. intros y Hy Hp.
    apply Hiff in Hp; [|now apply list_elem_of_further]. now subst.
  - rewrite decide_False.
    + apply IH; [assumption|assumption|].
      intros y Hy. apply Hiff. now apply list_elem_of_further.
    + intros Hp. apply Hpx in Hp. now subst.
Qed.

(** The loop of [ecma_finalize_builtins] over the identifiers
    [k .. k + n - 1]. *)
Lemma finalize_loop n :
  forall k s,
    (k + n <= ECMA_BUILTIN_ID__COUNT)%nat ->
    registry_wf s ->
    exists s',
      foldr (fun id rest =>
               slot <- get_builtin_object id ;;
               match slot with
               | Some obj_p => ecma_deref_object obj_p ;;; set_builtin_object id None
               | None => ret tt
               end ;;; rest)
            (ret tt) (seq k n) s = Ok (tt, s') /\
      registry_wf s' /\
      length (heap s') = length (heap s) /\
      (forall id, (k <= id < k + n)%nat -> ecma_builtin_objects s' !! id = Some None) /\
      (forall id, ~ (k <= id < k + n)%nat ->
                  ecma_builtin_objects s' !! id = ecma_builtin_objects s !! id) /\
      (forall p obj,
         heap s !! p = Some obj ->
         heap s' !! p
         = Some (with_refs
                   (object_refs obj
                    - length (filter (fun id => ecma_builtin_objects s !! id = Some (Some p))
                                (seq k n)))
                   obj)).
Proof.
  induction n as [|n IH]; intros k s Hk Hwf.
  - exists s. simpl. split; [reflexivity|]. split; [assumption|]. split; [reflexivity|].
    split; [intros id Hid; lia|]. split; [reflexivity|].
    intros p obj Hobj. rewrite Nat.sub_0_r. now destruct obj.
  - pose proof Hwf as [Hlen Hptr].
    destruct (lookup_lt_is_Some_2 (ecma_builtin_objects s) k) as [slot Hslot]; [lia|].
    cbn [seq foldr]. unfold bind at 1 2. unfold get_builtin_object at 1. rewrite Hslot.
    destruct slot as [q|].
    + destruct (lookup_lt_is_Some_2 (heap s) q) as [oq Hoq]; [eauto|].
      unfold bind at 1, ecma_deref_object, modify_object. rewrite Hoq.
      unfold set_builtin_object. cbn [heap ecma_builtin_objects]. rewrite Hslot.
      set (s1 := {| heap := <[q := with_refs (Nat.pred (object_refs oq)) oq]> (heap s);
                    ecma_builtin_objects := <[k := None]> (ecma_builtin_objects s) |}).
      assert (Hwf1 : registry_wf s1).
      { split; simpl; [now rewrite length_insert|].
        intros id p. rewrite length_insert.
        destruct (decide (k = id)) as [<-|Hne].
        - rewrite list_lookup_insert_eq by lia. discriminate.
        - rewrite list_lookup_insert_ne by assumption. apply Hptr. }
      destruct (IH (S k) s1) as (s' & Hrun & Hwf' & Hheap' & Hin & Hout & Hobjs);
        [lia|assumption|].
      exists s'. split; [exact Hrun|]. split; [assumption|].
      split; [rewrite Hheap'; simpl; apply length_insert|].
      split; [|split].
      * intros id Hid. destruct (decide (id = k)) as [->|Hne].
        -- rewrite Hout by lia. simpl. apply list_lookup_insert_eq. lia.
        -- apply Hin. lia.
      * intros id Hid. rewrite Hout by lia. simpl.
        apply list_lookup_insert_ne. lia.
      * intros p obj Hobj.
        rewrite filter_cons.
        assert (Hcount :
                  filter (fun id => ecma_builtin_objects s1 !! id = Some (Some p))
                    (seq (S k) n)
                  = filter (fun id => ecma_builtin_objects s !! id = Some (Some p))
                      (seq (S k) n)).
        { apply filter_agree. intros id Hid. apply elem_of_seq in Hid. simpl.
          rewrite list_lookup_insert_ne by lia. reflexivity. }
        destruct (decide (p = q)) as [->|Hne].
        -- assert (obj = oq) by congruence. subst obj.
           rewrite (Hobjs q (with_refs (Nat.pred (object_refs oq)) oq));
             [|simpl; apply list_lookup_insert_eq; now apply lookup_lt_Some in Hoq].
           rewrite Hcount, decide_True by assumption. simpl.
           f_equal. destruct oq. unfold with_refs. simpl. f_equal. lia.
        -- rewrite (Hobjs p obj); [|simpl; now rewrite list_lookup_insert_ne].
           rewrite Hcount, decide_False by congruence. reflexivity.
    + unfold ret at 1.
      destruct (IH (S k) s) as (s' & Hrun & Hwf' & Hheap' & Hin & Hout & Hobjs);
        [lia|assumption|].
      exists s'. split; [exact Hrun|]. split; [assumption|]. split; [assumption|].
      split; [|split].
      * intros id Hid. destruct (decide (id = k)) as [->|Hne].
        -- rewrite Hout by lia. assumption.
        -- apply Hin. lia.
      * intros id Hid. apply Hout. lia.
      * intros p obj Hobj. rewrite filter_cons, decide_False by congruence.
        now apply Hobjs.
Qed.


Lemma finalize_run s :
  registry_wf s ->
  exists s',
    ecma_finalize_builtins s = Ok (tt, s') /\
    length (ecma_builtin_objects s') = ECMA_BUILTIN_ID__COUNT /\
    (forall id, (id < ECMA_BUILTIN_ID__COUNT)%nat ->
                ecma_builtin_objects s' !! id = Some None) /\
    length (heap s') = length (heap s) /\
    (forall p obj,
       heap s !! p = Some obj ->
       heap s' !! p = Some (with_refs (object_refs obj - registry_references s p) obj)).
Proof.
  intros Hwf.
  destruct (finalize_loop ECMA_BUILTIN_ID__COUNT 0 s) as (s' & Hrun & Hwf' & Hheap & Hin & _ & Hobjs);
    [lia|assumption|].
  exists s'. split; [exact Hrun|]. split; [apply Hwf'|].
  split; [intros id Hid; apply Hin; lia|]. split; [assumption|exact Hobjs].
Qed.

Lemma registry_references_one s id p :
  registry_wf s -> registry_tagged s ->
  ecma_builtin_objects s !! id = Some (Some p) ->
  registry_references s p = 1%nat.
Proof.
  intros [Hlen _] Htag Hid. unfold registry_references.
  rewrite (filter_single _ _ id); [reflexivity|apply NoDup_seq| |].
  - apply elem_of_seq. apply lookup_lt_Some in Hid. lia.
  - intros id' _. split; [|now intros ->].
    intros Hid'. now apply (registry_tagged_injective s id' id p).
Qed.

Lemma registry_references_zero s p :
  (forall id, ecma_builtin_objects s !! id <> Some (Some p)) ->
  registry_references s p = 0%nat.
Proof.
  intros Hnone. unfold registry_references. rewrite filter_none; [reflexivity|].
  intros id _. apply Hnone.
Qed.

(** [ecma_finalize_builtins] on a well formed registry that owns its
    references: it returns, the registry is [ECMA_BUILTIN_ID__COUNT] times
    [NULL] afterwards, and every object of the heap has lost exactly as
    many references as there were slots that held it (its count of
    references afterwards, plus the number of these slots, is its count
    before), and is otherwise as it was. *)
Theorem finalize_releases_the_registry (s : ecma_state_t) :
  registry_wf s ->
  registry_references_owned s ->
  exists s' : ecma_state_t,
    ecma_finalize_builtins s = Ok (tt, s') /\
    ecma_builtin_objects s' = replicate ECMA_BUILTIN_ID__COUNT None /\
    length (heap s') = length (heap s) /\
    (forall (p : ecma_object_ptr) (obj : ecma_object_t),
       heap s !! p = Some obj ->
       exists obj' : ecma_object_t,
         heap s' !! p = Some obj' /\
         (object_refs obj' + registry_references s p = object_refs obj)%nat /\
         obj' = with_refs (object_refs obj') obj).
Proof.
  intros Hwf Howned.
  destruct (finalize_run s Hwf) as (s' & Hrun & Hlen & Hnone & Hheap & Hobjs).
  exists s'. split; [exact Hrun|]. split; [|split; [exact Hheap|]].
  - apply list_eq. intros id.
    destruct (decide (id < ECMA_BUILTIN_ID__COUNT)%nat) as [Hid|Hid].
    + rewrite (Hnone id Hid). symmetry. now apply lookup_replicate_2.
    + rewrite lookup_ge_None_2 by lia. symmetry.
      apply lookup_ge_None_2. rewrite length_replicate. lia.
  - intros p obj Hobj. pose proof (Howned p obj Hobj) as Hle.
    eexists. split; [exact (Hobjs p obj Hobj)|]. simpl. split; [lia|reflexivity].
Qed.

Lemma ecma_builtin_get_registry fuel id s :
  prototype_chain_ends fuel id = true ->
  registry_wf s -> registry_tagged s ->
  exists (p : ecma_object_ptr) (s' : ecma_state_t),
    ecma_builtin_get fuel id s = Ok (p, s') /\
    registry_wf s' /\ registry_tagged s' /\
    ecma_builtin_objects s' !! id = Some (Some p) /\
    (forall (id' : nat) (q : ecma_object_ptr),
       ecma_builtin_objects s !! id' = Some (Some q) ->
       ecma_builtin_objects s' !! id' = Some (Some q)) /\
    (forall (q : ecma_object_ptr) (obj : ecma_object_t),
       heap s !! q = Some obj ->
       heap s' !! q
       = Some (if decide (q = p) then with_refs (S (object_refs obj)) obj else obj)).
Proof.
  intros Hends Hwf Htag.
  destruct (ecma_builtin_get_keeps fuel id s Hends Hwf Htag)
    as (p & s1 & obj & (Hwf1 & Htag1 & (new & Hheap & _) & Hkeep & _) & Hslot & Hobj & _ & Hrun).
  eexists p, _. split; [exact Hrun|].
  split; [now apply registry_wf_modify|].
  split; [now apply registry_tagged_refs|].
  split; [assumption|]. split; [exact Hkeep|].
  intros q o Ho. simpl.
  assert (Ho1 : heap s1 !! q = Some o) by (rewrite Hheap; now apply lookup_app_l_Some).
  case_decide as Hq.
  - subst q. assert (o = obj) by congruence. subst o.
    apply list_lookup_insert_eq. now apply lookup_lt_Some in Hobj.
  - rewrite list_lookup_insert_ne by auto. assumption.
Qed.

(** [ecma_builtin_get] keeps the registry in order: every slot still holds
    the built-in object of its own identifier, the slots that were
    instantiated keep their objects, and of the objects that existed only
    the one returned has changed, by one more reference. *)
Theorem builtin_get_keeps_the_registry (fuel id : nat) (s : ecma_state_t) :
  builtin_list_wf = true ->
  (ECMA_BUILTIN_ID__COUNT <= fuel)%nat ->
  (id < ECMA_BUILTIN_ID__COUNT)%nat ->
  registry_wf s -> registry_tagged s ->
  exists (p : ecma_object_ptr) (s' : ecma_state_t),
    ecma_builtin_get fuel id s = Ok (p, s') /\
    registry_wf s' /\ registry_tagged s' /\
    ecma_builtin_objects s' !! id = Some (Some p) /\
    (forall (id' : nat) (q : ecma_object_ptr),
       ecma_builtin_objects s !! id' = Some (Some q) ->
       ecma_builtin_objects s' !! id' = Some (Some q)) /\
    (forall (q : ecma_object_ptr) (obj : ecma_object_t),
       heap s !! q = Some obj ->
       heap s' !! q
       = Some (if decide (q = p) then with_refs (S (object_refs obj)) obj else obj)).
Proof.
  intros Hlist Hfuel Hid. apply ecma_builtin_get_registry.
  eapply prototype_chain_ends_mono; [exact Hfuel|]. now apply builtin_list_wf_chain.
Qed.

(** Two built-in identifiers never share an object: the objects that
    [ecma_builtin_get] returns for two different identifiers are two
    different objects. *)
Theorem distinct_builtins_are_distinct_objects (fuel i j : nat) (s : ecma_state_t) :
  builtin_list_wf = true ->
  (ECMA_BUILTIN_ID__COUNT <= fuel)%nat ->
  (i < ECMA_BUILTIN_ID__COUNT)%nat -> (j < ECMA_BUILTIN_ID__COUNT)%nat ->
  registry_wf s -> registry_tagged s ->
  i <> j ->
  exists (p q : ecma_object_ptr) (s1 s2 : ecma_state_t),
    ecma_builtin_get fuel i s = Ok (p, s1) /\
    ecma_builtin_get fuel j s1 = Ok (q, s2) /\
    p <> q.
Proof.
  intros Hlist Hfuel Hi Hj Hwf Htag Hij.
  assert (Hends : forall id, (id < ECMA_BUILTIN_ID__COUNT)%nat ->
                             prototype_chain_ends fuel id = true).
  { intros id Hid. eapply prototype_chain_ends_mono; [exact Hfuel|].
    now apply builtin_list_wf_chain. }
  destruct (ecma_builtin_get_registry fuel i s (Hends i Hi) Hwf Htag)
    as (p & s1 & Hrun1 & Hwf1 & Htag1 & Hslot1 & _).
  destruct (ecma_builtin_get_registry fuel j s1 (Hends j Hj) Hwf1 Htag1)
    as (q & s2 & Hrun2 & Hwf2 & Htag2 & Hslot2 & Hkeep2 & _).
  exists p, q, s1, s2. split; [assumption|]. split; [assumption|].
  intros ->. apply Hij.
  apply (registry_tagged_injective s2 i j q); auto.
Qed.

(** The life of the registry.  From any engine state, initialising the
    registry, getting a built-in and finalising the registry leaves every
    slot [NULL], the objects that existed before as they were, and the
    object handed out with one reference, the caller's. *)
Theorem registry_lifecycle (fuel id : nat) (s0 : ecma_state_t) :
  builtin_list_wf = true ->
  (ECMA_BUILTIN_ID__COUNT <= fuel)%nat ->
  (id < ECMA_BUILTIN_ID__COUNT)%nat ->
  exists (p : ecma_object_ptr) (s1 s2 s3 : ecma_state_t) (obj : ecma_object_t),
    ecma_init_builtins s0 = Ok (tt, s1) /\
    ecma_builtin_get fuel id s1 = Ok (p, s2) /\
    ecma_finalize_builtins s2 = Ok (tt, s3) /\
    (forall id' : nat, (id' < ECMA_BUILTIN_ID__COUNT)%nat ->
                       ecma_builtin_objects s3 !! id' = Some None) /\
    (forall (q : ecma_object_ptr) (o : ecma_object_t),
       heap s0 !! q = Some o -> heap s3 !! q = Some o) /\
    (length (heap s0) <= p)%nat /\
    heap s3 !! p = Some obj /\
    object_refs obj = 1%nat.
Proof.
  intros Hlist Hfuel Hid.
  set (s1 := {| heap := heap s0;
                ecma_builtin_objects := replicate ECMA_BUILTIN_ID__COUNT None |}).
  assert (Hempty : forall id' q, ecma_builtin_objects s1 !! id' <> Some (Some q)).
  { intros id' q Hq. simpl in Hq. apply lookup_replicate in Hq. now destruct Hq. }
  assert (Hwf1 : registry_wf s1).
  { split; simpl; [apply length_replicate|]. intros id' q Hq. now destruct (Hempty id' q). }
  assert (Htag1 : registry_tagged s1).
  { intros id' q Hq. now destruct (Hempty id' q). }
  assert (Hends : prototype_chain_ends fuel id = true).
  { eapply prototype_chain_ends_mono; [exact Hfuel|]. now apply builtin_list_wf_chain. }
  destruct (ecma_builtin_get_keeps fuel id s1 Hends Hwf1 Htag1)
    as (p & s1' & obj & (Hwf1' & Htag1' & (new & Hheap & _) & _ & Hnew) & Hslot & Hobj
        & Hcase & Hrun).
  destruct Hcase as [[Hold _]|(_ & Hfresh & Hrefs & _)]; [now destruct (Hempty id p)|].
  set (s2 := {| heap := <[p := with_refs (S (object_refs obj)) obj]> (heap s1');
                ecma_builtin_objects := ecma_builtin_objects s1' |}) in *.
  assert (Hwf2 : registry_wf s2) by now apply registry_wf_modify.
  assert (Htag2 : registry_tagged s2) by now apply registry_tagged_refs.
  destruct (finalize_run s2 Hwf2) as (s3 & Hfin & _ & Hnone & _ & Hobjs).
  exists p, s1, s2, s3, (with_refs 1 obj).
  split; [reflexivity|]. split; [exact Hrun|]. split; [exact Hfin|].
  split; [exact Hnone|]. split; [|split; [exact Hfresh|split; [|reflexivity]]].
  - intros q o Ho.
    assert (Hq : (q < length (heap s0))%nat) by now apply lookup_lt_Some in Ho.
    rewrite (Hobjs q o).
    + rewrite registry_references_zero; [rewrite Nat.sub_0_r; now destruct o|].
      intros id' Hid'. simpl in Hid'.
      destruct (Hnew _ _ Hid') as [Hold|Hge]; [now destruct (Hempty id' q)|].
      simpl in Hge. lia.
    + simpl. rewrite list_lookup_insert_ne by (simpl in Hfresh; lia).
      rewrite Hheap. now apply lookup_app_l_Some.
  - rewrite (Hobjs p (with_refs (S (object_refs obj)) obj)).
    + rewrite (registry_references_one s2 id p) by assumption.
      rewrite Hrefs. reflexivity.
    + simpl. apply list_lookup_insert_eq. now apply lookup_lt_Some in Hobj.
Qed.

End RegistryInvariants.

(** ** The layout of a built-in object *)

Section LayoutProofs.

Context `{build_t, magic_strings_t, builtins_t}.

(** [ecma_builtin_init_object] appends one object to the heap and returns
    its pointer; the object is initialised as a built-in object of the
    identifier, prototype, type and class given, and the registry is not
    touched. *)
Theorem builtin_object_layout (id : nat) (proto : option ecma_object_ptr)
    (type : ecma_object_type_t) (cls : Z) (s : ecma_state_t) :
  ECMA_BUILTIN_ID_STRING_PROTOTYPE <> ECMA_BUILTIN_ID_NUMBER_PROTOTYPE ->
  ECMA_BUILTIN_ID_STRING_PROTOTYPE <> ECMA_BUILTIN_ID_BOOLEAN_PROTOTYPE ->
  ECMA_BUILTIN_ID_NUMBER_PROTOTYPE <> ECMA_BUILTIN_ID_BOOLEAN_PROTOTYPE ->
  exists obj : ecma_object_t,
    ecma_builtin_init_object id proto type cls s
    = Ok (length (heap s), {| heap := heap s ++ [obj];
                              ecma_builtin_objects := ecma_builtin_objects s |}) /\
    builtin_object_initialised id proto type cls obj.
Proof.
  intros Hsn Hsb Hnb.
  assert (Hy : yields (ecma_builtin_init_object id proto type cls) s
                 (fun p s' =>
                    p = length (heap s) /\
                    exists obj,
                      s' = {| heap := heap s ++ [obj];
                              ecma_builtin_objects := ecma_builtin_objects s |} /\
                      builtin_object_initialised id proto type cls obj)).
  { destruct s as [h r].
    unfold builtin_object_initialised, ecma_builtin_init_object,
      ecma_create_internal_property, set_internal_property_value,
      ecma_set_object_is_builtin, switch.
    repeat case_decide; try congruence;
      repeat first
        [ apply yields_create_object
        | (apply yields_add_property_last; [reflexivity|])
        | (eapply yields_store_property_last; [reflexivity|reflexivity|])
        | (apply yields_modify_last; [reflexivity|])
        | apply yields_ret
        | apply yields_bind ];
      cbn;
      (split; [reflexivity|]);
      eexists; (split; [reflexivity|]);
      cbn; repeat split; auto. }
  destruct Hy as (p & s' & Hrun & -> & obj & -> & Hfacts).
  exists obj. split; [exact Hrun|exact Hfacts].
Qed.

End LayoutProofs.

(** ** The dispatchers *)

Lemma switch_app {K A : Type} `{EqDecision K} (id : K) (cases cases' : list (K * A)) (d : A) :
  switch id (cases ++ cases') d = switch id cases (switch id cases' d).
Proof.
  induction cases as [|[label body] cases IH]; simpl; [reflexivity|].
  now case_decide.
Qed.

Section DispatchProofs.

Context `{build_t, magic_strings_t, builtins_t, collaborators_t}.

(** The [switch] over [ECMA_BUILTIN_LIST] of the dispatchers, with its
    [ECMA_BUILTIN_ID__COUNT] and [default] cases. *)
Lemma dispatch_switch {A : Type} (f : builtin_descriptor_t -> M A) (id : nat) :
  switch id
    (map (fun entry => (entry_builtin_id entry, f entry)) ECMA_BUILTIN_LIST
     ++ [ (ECMA_BUILTIN_ID__COUNT, abort UNREACHABLE) ])
    DISPATCH_DEFAULT
  = match find_builtin_entry id with
    | Some entry => f entry
    | None => if decide (id = ECMA_BUILTIN_ID__COUNT) then abort UNREACHABLE
              else DISPATCH_DEFAULT
    end.
Proof.
  rewrite switch_app. unfold find_builtin_entry.
  rewrite (switch_map entry_builtin_id f). reflexivity.
Qed.

(** The object of a slot of the registry passes the checks the dispatchers
    make at their entry, which leave the state as it is, and its internal
    property gives the identifier of the slot. *)
Lemma registry_object_checks fuel s id obj_p :
  registry_wf s -> registry_tagged s ->
  ecma_builtin_objects s !! id = Some (Some obj_p) ->
  exists entry obj,
    find_builtin_entry id = Some entry /\
    heap s !! obj_p = Some obj /\
    object_kind obj = entry_object_type entry /\
    JERRY_ASSERT_M (ecma_get_object_is_builtin obj_p) s = Ok (tt, s) /\
    ecma_get_object_type obj_p s = Ok (entry_object_type entry, s) /\
    (built_in_id_prop_p <- ecma_get_internal_property obj_p ECMA_INTERNAL_PROPERTY_BUILT_IN_ID ;;
     get_internal_property_uint32 built_in_id_prop_p) s = Ok (Z.of_nat id, s) /\
    JERRY_ASSERT_M (ecma_builtin_is fuel obj_p id) s = Ok (tt, s).
Proof.
  intros Hwf Htag Hslot.
  destruct (Htag _ _ Hslot) as (entry & obj & Hentry & Hobj & Hb & Hlex & Hkind & Hfind).
  assert (Hid : (id < ECMA_BUILTIN_ID__COUNT)%nat).
  { destruct Hwf as [<- _]. now apply lookup_lt_Some in Hslot. }
  exists entry, obj. split; [assumption|]. split; [assumption|]. split; [assumption|].
  split; [|split; [|split]].
  - unfold JERRY_ASSERT_M, ecma_get_object_is_builtin, bind, get_object, ret.
    destruct JERRY_NDEBUG; [reflexivity|]. now rewrite Hobj, Hb.
  - unfold ecma_get_object_type, bind, get_object, ret. now rewrite Hobj, Hkind.
  - unfold ecma_get_internal_property, ecma_find_internal_property, find_property_ptr,
      get_internal_property_uint32, get_internal_property_value, load_property,
      bind, get_object, ret.
    rewrite Hobj, Hfind. cbn. rewrite Hobj, Hfind. reflexivity.
  - unfold JERRY_ASSERT_M. destruct JERRY_NDEBUG; [reflexivity|].
    unfold bind.
    rewrite (ecma_builtin_is_instantiated fuel obj_p id s obj_p Hid Hslot);
      [|now exists obj].
    now rewrite bool_decide_eq_true_2.
Qed.

Lemma generic_try_to_instantiate_run fuel id obj_p string_p s entry :
  registry_wf s -> registry_tagged s ->
  ecma_builtin_objects s !! id = Some (Some obj_p) ->
  find_builtin_entry id = Some entry ->
  ecma_builtin_try_to_instantiate_property fuel obj_p string_p s
  = ecma_builtin_variant_try_to_instantiate_property fuel (entry_lowercase_name entry)
      obj_p string_p s.
Proof.
  intros Hwf Htag Hslot Hentry.
  destruct (registry_object_checks fuel s id obj_p Hwf Htag Hslot)
    as (entry' & obj & Hentry' & Hobj & Hkind & Hbuiltin & Htype & Hid & His).
  assert (entry' = entry) by congruence. subst entry'.
  unfold ecma_builtin_try_to_instantiate_property.
  unfold bind at 1. rewrite Hbuiltin.
  unfold bind at 1. unfold bind in Hid. unfold bind at 1.
  destruct (ecma_get_internal_property obj_p ECMA_INTERNAL_PROPERTY_BUILT_IN_ID s)
    as [[prop_p s1]|]; [|discriminate].
  rewrite Hid. rewrite Nat2Z.id.
  unfold bind at 1. rewrite His.
  rewrite (dispatch_switch
             (fun entry => ecma_builtin_variant_try_to_instantiate_property fuel
                             (entry_lowercase_name entry) obj_p string_p)).
  now rewrite Hentry.
Qed.

(** The generic routine on a built-in object of the registry goes to the
    routine of that object's own variant, and to the Global object's
    routine for the Global object. *)
Theorem try_to_instantiate_property_by_variant (fuel id : nat)
    (obj_p : ecma_object_ptr) (string_p : ecma_string_t) (s : ecma_state_t)
    (entry : builtin_descriptor_t) :
  registry_wf s -> registry_tagged s ->
  ecma_builtin_objects s !! id = Some (Some obj_p) ->
  find_builtin_entry id = Some entry ->
  ecma_builtin_try_to_instantiate_property fuel obj_p string_p s
  = ecma_builtin_variant_try_to_instantiate_property fuel (entry_lowercase_name entry)
      obj_p string_p s /\
  (entry_lowercase_name entry = "global" ->
   ecma_builtin_try_to_instantiate_property fuel obj_p string_p s
   = ecma_builtin_global_try_to_instantiate_property fuel obj_p string_p s).
Proof.
  intros Hwf Htag Hslot Hentry.
  pose proof (generic_try_to_instantiate_run fuel id obj_p string_p s entry
                Hwf Htag Hslot Hentry) as Hrun.
  split; [exact Hrun|].
  intros Hname. rewrite Hrun.
  unfold ecma_builtin_variant_try_to_instantiate_property. now rewrite Hname.
Qed.

(** [[Call]] and [[Construct]] of a built-in object of the registry whose
    entry declares a function: both go to the handler of the object's
    variant, with the arguments and nothing else. *)
Theorem constructor_call_and_construct_by_variant (fuel id : nat) (obj_p : ecma_object_ptr)
    (this_arg_value : ecma_value_t) (arguments_list : list ecma_value_t)
    (s : ecma_state_t) (entry : builtin_descriptor_t) :
  registry_wf s -> registry_tagged s ->
  ecma_builtin_objects s !! id = Some (Some obj_p) ->
  find_builtin_entry id = Some entry ->
  entry_object_type entry = ECMA_OBJECT_TYPE_FUNCTION ->
  ecma_builtin_dispatch_call fuel obj_p this_arg_value arguments_list s
  = ecma_builtin_other_dispatch_call (entry_lowercase_name entry) arguments_list s /\
  ecma_builtin_dispatch_construct fuel obj_p arguments_list s
  = ecma_builtin_other_dispatch_construct (entry_lowercase_name entry) arguments_list s.
Proof.
  intros Hwf Htag Hslot Hentry Hfun.
  destruct (registry_object_checks fuel s id obj_p Hwf Htag Hslot)
    as (entry' & obj & Hentry' & Hobj & Hkind & Hbuiltin & Htype & Hid & His).
  assert (entry' = entry) by congruence. subst entry'.
  rewrite Hfun in Htype.
  unfold bind in Hid.
  destruct (ecma_get_internal_property obj_p ECMA_INTERNAL_PROPERTY_BUILT_IN_ID s)
    as [[prop_p s1]|] eqn:Hprop; [|discriminate].
  split.
  - unfold ecma_builtin_dispatch_call.
    unfold bind at 1. rewrite Hbuiltin.
    unfold bind at 1. rewrite Htype.
    rewrite decide_False by discriminate.
    unfold bind at 1. rewrite JERRY_ASSERT_true by (apply bool_decide_eq_true_2; reflexivity).
    cbn [lift].
    unfold bind at 1. rewrite Hprop.
    unfold bind at 1. rewrite Hid, Nat2Z.id.
    unfold bind at 1. rewrite His.
    rewrite (dispatch_switch
               (fun entry =>
                  if decide (entry_object_type entry = ECMA_OBJECT_TYPE_FUNCTION)
                  then ecma_builtin_other_dispatch_call (entry_lowercase_name entry)
                         arguments_list
                  else abort UNREACHABLE)).
    rewrite Hentry. now rewrite decide_True.
  - unfold ecma_builtin_dispatch_construct.
    assert (Hassert : JERRY_ASSERT_M
                        (type <- ecma_get_object_type obj_p ;;
                         ret (bool_decide (type = ECMA_OBJECT_TYPE_FUNCTION))) s = Ok (tt, s)).
    { unfold JERRY_ASSERT_M. destruct JERRY_NDEBUG; [reflexivity|].
      unfold bind. rewrite Htype. unfold ret. now rewrite bool_decide_eq_true_2. }
    unfold bind at 1. rewrite Hassert.
    unfold bind at 1. rewrite Hbuiltin.
    unfold bind at 1. rewrite Hprop.
    unfold bind at 1. rewrite Hid, Nat2Z.id.
    unfold bind at 1. rewrite His.
    rewrite (dispatch_switch
               (fun entry =>
                  if decide (entry_object_type entry = ECMA_OBJECT_TYPE_FUNCTION)
                  then ecma_builtin_other_dispatch_construct (entry_lowercase_name entry)
                         arguments_list
                  else abort UNREACHABLE)).
    rewrite Hentry. now rewrite decide_True.
Qed.

(** Making and calling.  [ecma_builtin_make_function_object_for_routine]
    returns a new function object of the routine, and the [[Call]] of that
    object is the dispatcher of built-in routines on the two identifiers
    the object was made for. *)
Theorem made_function_object_calls_its_routine (fuel builtin_id : nat) (routine_id : Z)
    (len : ecma_number_t) (s : ecma_state_t) :
  builtin_list_wf = true ->
  (ECMA_BUILTIN_ID__COUNT <= fuel)%nat ->
  (ECMA_BUILTIN_ID_FUNCTION_PROTOTYPE < ECMA_BUILTIN_ID__COUNT)%nat ->
  routine_id_layout_wf ->
  (builtin_id < ECMA_BUILTIN_ID__COUNT)%nat ->
  0 <= routine_id < ECMA_MAGIC_STRING__COUNT ->
  registry_wf s ->
  exists (func_obj_p : ecma_object_ptr) (s' : ecma_state_t) (func : ecma_object_t)
         (prototype_obj_p : ecma_object_ptr),
    ecma_builtin_make_function_object_for_routine fuel builtin_id routine_id len s
    = Ok (func_obj_p, s') /\
    (length (heap s) <= func_obj_p)%nat /\
    heap s' !! func_obj_p = Some func /\
    ecma_builtin_objects s' !! ECMA_BUILTIN_ID_FUNCTION_PROTOTYPE
    = Some (Some prototype_obj_p) /\
    routine_function_object builtin_id routine_id len prototype_obj_p func /\
    forall (this_arg_value : ecma_value_t) (arguments_list : list ecma_value_t),
      ecma_builtin_dispatch_call fuel func_obj_p this_arg_value arguments_list s'
      = ecma_builtin_dispatch_routine builtin_id routine_id this_arg_value arguments_list s'.
Proof.
  intros Hlist Hfuel Hproto Hlayout Hid Hrid Hwf.
  assert (Hends : prototype_chain_ends fuel ECMA_BUILTIN_ID_FUNCTION_PROTOTYPE = true).
  { eapply prototype_chain_ends_mono; [exact Hfuel|]. now apply builtin_list_wf_chain. }
  destruct (ecma_builtin_make_function_object_for_routine_spec fuel builtin_id routine_id len s
              Hends Hwf)
    as (f & s' & Hrun & _ & _ & Hfresh & func & proto & Hf & Hslot & Hfunc).
  { intros _. now apply routine_id_packed_value_spec. }
  exists f, s', func, proto.
  split; [exact Hrun|]. split; [exact Hfresh|]. split; [exact Hf|]. split; [exact Hslot|].
  split; [exact Hfunc|].
  intros this_arg_value arguments_list.
  now apply (routine_function_call_dispatches fuel builtin_id routine_id len proto f func).
Qed.

(** A built-in object of the registry whose entry declares no function is
    neither callable nor constructible: both dispatchers stop, on the
    assertion on the object's type when assertions are compiled in, on the
    unreachable branch of the variant's case otherwise, and change
    nothing. *)
Theorem plain_builtin_is_not_callable (fuel id : nat) (obj_p : ecma_object_ptr)
    (this_arg_value : ecma_value_t) (arguments_list : list ecma_value_t)
    (s : ecma_state_t) (entry : builtin_descriptor_t) :
  registry_wf s -> registry_tagged s ->
  ecma_builtin_objects s !! id = Some (Some obj_p) ->
  find_builtin_entry id = Some entry ->
  entry_object_type entry <> ECMA_OBJECT_TYPE_FUNCTION ->
  entry_object_type entry <> ECMA_OBJECT_TYPE_BUILT_IN_FUNCTION ->
  ecma_builtin_dispatch_call fuel obj_p this_arg_value arguments_list s
  = Abort (if JERRY_NDEBUG then UNREACHABLE else ASSERTION) /\
  ecma_builtin_dispatch_construct fuel obj_p arguments_list s
  = Abort (if JERRY_NDEBUG then UNREACHABLE else ASSERTION).
Proof.
  intros Hwf Htag Hslot Hentry Hfun Hroutine.
  destruct (registry_object_checks fuel s id obj_p Hwf Htag Hslot)
    as (entry' & obj & Hentry' & Hobj & Hkind & Hbuiltin & Htype & Hid & His).
  assert (entry' = entry) by congruence. subst entry'.
  unfold bind in Hid.
  destruct (ecma_get_internal_property obj_p ECMA_INTERNAL_PROPERTY_BUILT_IN_ID s)
    as [[prop_p s1]|] eqn:Hprop; [|discriminate].
  unfold ecma_builtin_dispatch_call, ecma_builtin_dispatch_construct.
  unfold JERRY_ASSERT_M, JERRY_ASSERT in *.
  destruct JERRY_NDEBUG.
  - split.
    + unfold bind at 1. cbn [ret].
      unfold bind at 1. rewrite Htype.
      rewrite decide_False by assumption.
      unfold bind at 1. cbn [lift].
      unfold bind at 1. rewrite Hprop.
      unfold bind at 1. rewrite Hid, Nat2Z.id.
      unfold bind at 1. cbn [ret].
      rewrite (dispatch_switch
                 (fun entry =>
                    if decide (entry_object_type entry = ECMA_OBJECT_TYPE_FUNCTION)
                    then ecma_builtin_other_dispatch_call (entry_lowercase_name entry)
                           arguments_list
                    else abort UNREACHABLE)).
      rewrite Hentry. now rewrite decide_False.
    + unfold bind at 1. cbn [ret].
      unfold bind at 1. cbn [ret].
      unfold bind at 1. rewrite Hprop.
      unfold bind at 1. rewrite Hid, Nat2Z.id.
      unfold bind at 1. cbn [ret].
      rewrite (dispatch_switch
                 (fun entry =>
                    if decide (entry_object_type entry = ECMA_OBJECT_TYPE_FUNCTION)
                    then ecma_builtin_other_dispatch_construct (entry_lowercase_name entry)
                           arguments_list
                    else abort UNREACHABLE)).
      rewrite Hentry. now rewrite decide_False.
  - split.
    + unfold bind at 1. rewrite Hbuiltin.
      unfold bind at 1. rewrite Htype.
      rewrite decide_False by assumption.
      unfold bind at 1.
      rewrite (bool_decide_eq_false_2 (entry_object_type entry = ECMA_OBJECT_TYPE_FUNCTION))
        by assumption.
      reflexivity.
    + unfold bind. rewrite Htype. unfold ret.
      rewrite (bool_decide_eq_false_2 (entry_object_type entry = ECMA_OBJECT_TYPE_FUNCTION))
        by assumption.
      reflexivity.
Qed.

(** The [[Call]] of the function object of a routine of the Global object
    is the Global object's dispatcher on the routine's identifier: the
    packed identifier is read back, the built-in dispatcher selects the
    Global object, and the 'this' value and the arguments are passed on. *)
Theorem global_routine_call_reaches_the_dispatcher (fuel : nat) (routine_id : Z)
    (len : ecma_number_t) (prototype_obj_p func_obj_p : ecma_object_ptr)
    (func : ecma_object_t) (this_arg_value : ecma_value_t)
    (arguments_list : list ecma_value_t) (s : ecma_state_t) (entry : builtin_descriptor_t) :
  routine_id_layout_wf ->
  (ECMA_BUILTIN_ID_GLOBAL < ECMA_BUILTIN_ID__COUNT)%nat ->
  find_builtin_entry ECMA_BUILTIN_ID_GLOBAL = Some entry ->
  entry_lowercase_name entry = "global" ->
  0 <= routine_id < ECMA_MAGIC_STRING__COUNT ->
  heap s !! func_obj_p = Some func ->
  routine_function_object ECMA_BUILTIN_ID_GLOBAL routine_id len prototype_obj_p func ->
  ecma_builtin_dispatch_call fuel func_obj_p this_arg_value arguments_list s
  = ecma_builtin_global_dispatch_routine routine_id this_arg_value arguments_list s.
Proof.
  intros Hlayout Hglobal Hentry Hname Hrid Hfunc Hobject.
  rewrite (routine_function_call_dispatches fuel ECMA_BUILTIN_ID_GLOBAL routine_id len
             prototype_obj_p func_obj_p func) by assumption.
  unfold ecma_builtin_dispatch_routine.
  rewrite (dispatch_switch
             (fun entry =>
                ecma_builtin_variant_dispatch_routine (entry_lowercase_name entry) routine_id
                  this_arg_value arguments_list)).
  rewrite Hentry. unfold ecma_builtin_variant_dispatch_routine. now rewrite Hname.
Qed.

End DispatchProofs.

(** ** What a lazy instantiation leaves alone *)

Lemma find_property_named name props :
  find_property (KEY_NAMED name) props = head (named_properties name props).
Proof.
  induction props as [|prop props IH]; [reflexivity|].
  unfold named_properties. rewrite filter_cons. simpl.
  case_decide; [reflexivity|]. exact IH.
Qed.

Section FrameProofs.

Context `{build_t, magic_strings_t, builtins_t, collaborators_t}.

(** The first instantiation of a property of the Global object touches
    that property and its bit only: the named properties of every other
    name, the bits of every other index and the instantiated slots of the
    registry are as they were. *)
Theorem lazy_instantiation_leaves_the_rest (fuel : nat) (obj_p : ecma_object_ptr)
    (prop_name_p : ecma_string_t) (id : Z) (index : nat) (bit_mask : Z)
    (s : ecma_state_t) (obj : ecma_object_t) :
  headers_wf -> (ECMA_BUILTIN_ID__COUNT <= fuel)%nat ->
  registry_wf s ->
  is_global_object s obj_p ->
  heap s !! obj_p = Some obj ->
  find_property (KEY_NAMED prop_name_p) (object_properties obj) = None ->
  ecma_is_string_magic prop_name_p = Some id ->
  ecma_builtin_global_property_names !! index = Some id ->
  instantiated_mask (object_properties obj) = Some bit_mask ->
  Z.testbit bit_mask (Z.of_nat index) = false ->
  CONFIG_ECMA_COMPACT_PROFILE = true \/ id ∉ not_implemented_names ->
  exists (prop_p : ecma_property_ptr) (s' : ecma_state_t),
    ecma_builtin_global_try_to_instantiate_property fuel obj_p prop_name_p s
    = Ok (Some prop_p, s') /\
    (forall name : ecma_string_t,
       name <> prop_name_p ->
       find_property (KEY_NAMED name) (properties_of s' obj_p)
       = find_property (KEY_NAMED name) (object_properties obj)) /\
    (forall index' : nat,
       index' <> index ->
       is_instantiated (properties_of s' obj_p) index'
       = is_instantiated (object_properties obj) index') /\
    (forall (id' : nat) (q : ecma_object_ptr),
       ecma_builtin_objects s !! id' = Some (Some q) ->
       ecma_builtin_objects s' !! id' = Some (Some q)).
Proof.
  intros Hwf Hfuel Hreg Hglobal Hobj Habsent Hmagic Hindex Hmask Hbit Himpl.
  destruct (first_instantiation fuel obj_p prop_name_p id index bit_mask s obj
              Hwf Hfuel Hreg Hglobal Hobj Habsent Hmagic Hindex Hmask Hbit Himpl)
    as (r & s' & Hrun & -> & Hreg' & Hslots & obj' & new_prop & props & Hobj' & Hprops
        & Hmask' & Hnamed & Haccessor & Hdata).
  assert (Hkey : property_key new_prop = KEY_NAMED prop_name_p).
  { destruct (decide (id ∈ not_implemented_names)) as [Hni|Hni].
    - destruct (Haccessor Hni) as (p & -> & _). reflexivity.
    - destruct (Hdata Hni) as (? & ? & v & w & e & c & _ & _ & _ & _ & -> & _). reflexivity. }
  eexists _, s'. split; [exact Hrun|].
  rewrite (properties_of_lookup _ _ _ Hobj'), Hprops.
  split; [|split; [|exact Hslots]].
  - intros name Hname. simpl.
    rewrite decide_False by (rewrite Hkey; congruence).
    now rewrite !find_property_named, Hnamed.
  - intros index' Hne. unfold is_instantiated.
    assert (Hskip : instantiated_mask (new_prop :: props) = instantiated_mask props).
    { unfold instantiated_mask. simpl.
      now rewrite decide_False by (rewrite Hkey; discriminate). }
    rewrite Hskip, Hmask', Hmask.
    rewrite Z.lor_spec, Z.pow2_bits_eqb by lia.
    destruct (Z.eqb_spec (Z.of_nat index) (Z.of_nat index')); [lia|].
    apply orb_false_r.
Qed.

End FrameProofs.

(** ** Finalising again, and the bits of the mask *)

Section MoreRegistry.

Context `{build_t, magic_strings_t, builtins_t}.

(** Finalising twice is finalising once: on the emptied registry
    [ecma_finalize_builtins] changes nothing. *)
Theorem finalize_twice_is_finalize_once (s : ecma_state_t) :
  registry_wf s ->
  exists s' : ecma_state_t,
    ecma_finalize_builtins s = Ok (tt, s') /\
    ecma_finalize_builtins s' = Ok (tt, s').
Proof.
  intros Hwf.
  destruct (finalize_run s Hwf) as (s' & Hrun & Hlen & Hnone & _ & _).
  assert (Hwf' : registry_wf s').
  { split; [assumption|]. intros id p Hp.
    assert (Hid : (id < ECMA_BUILTIN_ID__COUNT)%nat)
      by (rewrite <- Hlen; now apply lookup_lt_Some in Hp).
    rewrite (Hnone id Hid) in Hp. discriminate. }
  destruct (finalize_run s' Hwf') as (s'' & Hrun' & Hlen' & Hnone' & Hheap' & Hobjs').
  exists s'. split; [exact Hrun|]. rewrite Hrun'. do 2 f_equal.
  destruct s' as [h r], s'' as [h' r']. simpl in *. f_equal.
  - apply list_eq. intros p.
    destruct (h !! p) as [obj|] eqn:Hp.
    + rewrite (Hobjs' p obj Hp).
      rewrite registry_references_zero.
      * rewrite Nat.sub_0_r. now destruct obj.
      * intros id Hid. simpl in Hid.
        assert (Hlt : (id < ECMA_BUILTIN_ID__COUNT)%nat)
          by (rewrite <- Hlen; now apply lookup_lt_Some in Hid).
        rewrite (Hnone id Hlt) in Hid. discriminate.
    + apply lookup_ge_None. apply lookup_ge_None in Hp. lia.
  - apply list_eq. intros id.
    destruct (decide (id < ECMA_BUILTIN_ID__COUNT)%nat) as [Hid|Hid].
    + now rewrite Hnone, Hnone'.
    + rewrite !lookup_ge_None_2 by lia. reflexivity.
Qed.

End MoreRegistry.

Lemma land_pow2_distinct (i j : Z) : 0 <= i -> 0 <= j -> i <> j -> Z.land (2 ^ i) (2 ^ j) = 0.
Proof.
  intros Hi Hj Hij. apply Z.bits_inj'. intros n Hn.
  rewrite Z.land_spec, Z.bits_0, !Z.pow2_bits_eqb by assumption.
  destruct (Z.eqb_spec i n), (Z.eqb_spec j n); try reflexivity. lia.
Qed.

Section BitmaskBounds.

Context `{build_t, magic_strings_t, builtins_t, collaborators_t}.

(** The table of the Global object fits the bitmask: every index of the
    table passes the assertion on the index, its bit is one bit of the
    32-bit mask, and two indices have two bits. *)
Theorem global_table_fits_the_bitmask (index : Z) :
  0 <= index < ecma_builtin_global_property_number ->
  (index >=? 0) && (to_uint32 index <? 32) = true /\
  to_uint32 (Z.shiftl 1 index) = 2 ^ index /\
  0 < 2 ^ index < 2 ^ 32 /\
  forall index' : Z,
    0 <= index' < ecma_builtin_global_property_number ->
    index' <> index ->
    Z.land (to_uint32 (Z.shiftl 1 index)) (to_uint32 (Z.shiftl 1 index')) = 0.
Proof.
  intros Hindex.
  pose proof global_property_names_length as Hlen.
  unfold ecma_builtin_global_property_number in *.
  assert (Hbit : forall i, 0 <= i < Z.of_nat (length ecma_builtin_global_property_names) ->
                           to_uint32 (Z.shiftl 1 i) = 2 ^ i).
  { intros i Hi. apply bit_of_index. lia. }
  split; [|split; [|split]].
  - rewrite to_uint32_id by lia.
    apply andb_true_iff. split; [apply Z.geb_le|apply Z.ltb_lt]; lia.
  - now apply Hbit.
  - split; [apply Z.pow_pos_nonneg; lia|apply Z.pow_lt_mono_r; lia].
  - intros index' Hindex' Hne. rewrite !Hbit by assumption.
    apply land_pow2_distinct; lia.
Qed.

End BitmaskBounds.

(** ** From the registry to a property of the Global object *)

Section FirstLookup.

Context `{build_t, magic_strings_t, builtins_t, collaborators_t}.

(** From the registry to the property.  On a registry in which the Global
    object is not instantiated yet, [ecma_builtin_get] makes the Global
    object, and the generic routine called on it for a name of the Global
    table that the build implements makes the one property of that name
    and sets the one bit of that name in the bitmask. *)
Theorem first_lookup_on_the_global_object (fuel : nat) (prop_name_p : ecma_string_t)
    (id : Z) (index : nat) (s : ecma_state_t) (entry : builtin_descriptor_t) :
  headers_wf -> (ECMA_BUILTIN_ID__COUNT <= fuel)%nat ->
  registry_wf s -> registry_tagged s ->
  ecma_builtin_objects s !! ECMA_BUILTIN_ID_GLOBAL = Some None ->
  find_builtin_entry ECMA_BUILTIN_ID_GLOBAL = Some entry ->
  entry_lowercase_name entry = "global" ->
  ecma_is_string_magic prop_name_p = Some id ->
  ecma_builtin_global_property_names !! index = Some id ->
  CONFIG_ECMA_COMPACT_PROFILE = true \/ id ∉ not_implemented_names ->
  exists (obj_p : ecma_object_ptr) (s1 s2 : ecma_state_t),
    ecma_builtin_get fuel ECMA_BUILTIN_ID_GLOBAL s = Ok (obj_p, s1) /\
    ecma_builtin_try_to_instantiate_property fuel obj_p prop_name_p s1
    = Ok (Some {| property_owner := obj_p; property_ptr_key := KEY_NAMED prop_name_p |}, s2) /\
    length (named_properties prop_name_p (properties_of s2 obj_p)) = 1%nat /\
    (forall index' : nat,
       is_instantiated (properties_of s2 obj_p) index' = bool_decide (index' = index)).
Proof.
  intros Hwf Hfuel Hreg Htag Hslot Hentry Hname Hmagic Hindex Himpl.
  pose proof Hwf as (Hlist & _ & _ & _ & Hids & _).
  apply Forall_cons in Hids. destruct Hids as [Hglobal _].
  pose proof (headers_wf_chain fuel _ Hwf Hfuel Hglobal) as Hends.
  destruct (ecma_builtin_get_keeps fuel _ s Hends Hreg Htag)
    as (p & s1' & obj & (Hwf1' & Htag1' & _) & Hslot1 & Hobj & Hcase & Hrun).
  destruct Hcase as [[Hold _]|(_ & _ & _ & Hnamed & Hnomask)]; [congruence|].
  set (obj1 := with_refs (S (object_refs obj)) obj) in *.
  set (s1 := {| heap := <[p := obj1]> (heap s1');
                ecma_builtin_objects := ecma_builtin_objects s1' |}) in *.
  assert (Hwf1 : registry_wf s1) by now apply registry_wf_modify.
  assert (Htag1 : registry_tagged s1) by now apply registry_tagged_refs.
  assert (Hobj1 : heap s1 !! p = Some obj1).
  { simpl. apply list_lookup_insert_eq. now apply lookup_lt_Some in Hobj. }
  assert (Hglobal1 : is_global_object s1 p).
  { split; [assumption|]. split; [assumption|].
    destruct (Htag1 _ _ Hslot1) as (_ & o & _ & Ho & _ & Hlex & _).
    exists o. auto. }
  pose proof (generic_try_to_instantiate_run fuel _ p prop_name_p s1 entry Hwf1 Htag1 Hslot1
                Hentry) as Hgeneric.
  unfold ecma_builtin_variant_try_to_instantiate_property in Hgeneric.
  rewrite Hname, decide_True in Hgeneric by reflexivity.
  destruct (first_instantiation fuel p prop_name_p id index 0 s1 obj1
              Hwf Hfuel Hwf1 Hglobal1 Hobj1 (Hnamed prop_name_p) Hmagic Hindex Hnomask
              (Z.bits_0 _) Himpl)
    as (r & s2 & Hrun2 & -> & _ & _ & obj2 & new_prop & props & Hobj2 & Hprops2
        & Hmask2 & Hnamed2 & Haccessor & Hdata).
  assert (Hkey : property_key new_prop = KEY_NAMED prop_name_p).
  { destruct (decide (id ∈ not_implemented_names)) as [Hni|Hni].
    - destruct (Haccessor Hni) as (q & -> & _). reflexivity.
    - destruct (Hdata Hni) as (? & ? & v & w & e & c & _ & _ & _ & _ & -> & _). reflexivity. }
  exists p, s1, s2. split; [exact Hrun|].
  split; [rewrite Hgeneric; exact Hrun2|].
  rewrite (properties_of_lookup _ _ _ Hobj2), Hprops2. split.
  - unfold named_properties. rewrite filter_cons, decide_True by assumption.
    fold (named_properties prop_name_p props).
    rewrite Hnamed2.
    now rewrite (named_properties_absent prop_name_p (object_properties obj1)
                   (Hnamed prop_name_p)).
  - intros index'. unfold is_instantiated.
    assert (Hskip : instantiated_mask (new_prop :: props) = instantiated_mask props).
    { unfold instantiated_mask. simpl.
      now rewrite decide_False by (rewrite Hkey; discriminate). }
    rewrite Hskip, Hmask2, Z.lor_0_l, Z.pow2_bits_eqb by lia.
    case_bool_decide as Heq.
    + subst. apply Z.eqb_refl.
    + apply Z.eqb_neq. lia.
Qed.

End FirstLookup.
(** * The singletons of the registry *)

Section SingletonProofs.

Context `{build_t, magic_strings_t, builtins_t}.

(** C1.  For every built-in identifier below the count, two calls of
    [ecma_builtin_get] return the same pointer.  After the first call the
    identifier's slot holds that pointer, and the object behind it is the
    built-in object of this identifier and of no other: it is flagged
    built-in, has the object type of the identifier's entry and carries the
    identifier in its [BUILT_IN_ID] internal property.  It is instantiated
    at most once: when the slot was empty the first call creates it, as a
    new object of the heap, and otherwise creates nothing; the second call
    never creates anything and leaves the registry as it is.
    [ecma_builtin_is] answers true exactly when its object is that
    singleton: true for the singleton itself, and for any object of the
    heap the comparison of the two pointers, whether the slot is
    instantiated (nothing changes then) or empty (it instantiates the slot
    then, with the same singleton). *)
Theorem registry_singleton_identity (fuel id : nat) (s : ecma_state_t) :
  builtin_list_wf = true ->
  (ECMA_BUILTIN_ID__COUNT <= fuel)%nat ->
  (id < ECMA_BUILTIN_ID__COUNT)%nat ->
  registry_wf s -> registry_tagged s ->
  exists (p : ecma_object_ptr) (s1 s2 : ecma_state_t) (entry : builtin_descriptor_t)
         (obj : ecma_object_t),
    ecma_builtin_get fuel id s = Ok (p, s1) /\
    ecma_builtin_get fuel id s1 = Ok (p, s2) /\
    ecma_builtin_objects s1 !! id = Some (Some p) /\
    find_builtin_entry id = Some entry /\
    heap s1 !! p = Some obj /\
    object_is_builtin obj = true /\
    object_is_lexical_environment obj = false /\
    object_kind obj = entry_object_type entry /\
    find_property (KEY_INTERNAL ECMA_INTERNAL_PROPERTY_BUILT_IN_ID) (object_properties obj)
    = Some (ECMA_PROPERTY_INTERNAL ECMA_INTERNAL_PROPERTY_BUILT_IN_ID
              (INTERNAL_UINT32 (Z.of_nat id))) /\
    (forall id' : nat, ecma_builtin_objects s1 !! id' = Some (Some p) -> id' = id) /\
    (ecma_builtin_objects s !! id = Some (Some p) /\ length (heap s1) = length (heap s) \/
     ecma_builtin_objects s !! id = Some None /\ (length (heap s) <= p)%nat) /\
    ecma_builtin_objects s2 = ecma_builtin_objects s1 /\
    length (heap s2) = length (heap s1) /\
    ecma_builtin_is fuel p id s1 = Ok (true, s1) /\
    (forall obj_p : ecma_object_ptr,
       is_object s1 obj_p ->
       ecma_builtin_is fuel obj_p id s1 = Ok (bool_decide (obj_p = p), s1)) /\
    (forall obj_p : ecma_object_ptr,
       is_object s obj_p ->
       exists s3 : ecma_state_t,
         ecma_builtin_is fuel obj_p id s = Ok (bool_decide (obj_p = p), s3) /\
         ecma_builtin_objects s3 !! id = Some (Some p) /\
         registry_wf s3 /\ registry_tagged s3).
Proof.
  intros Hlist Hfuel Hid Hwf Htag.
  pose proof (prototype_chain_ends_mono _ _ _ Hfuel (builtin_list_wf_chain id Hlist Hid))
    as Hends.
  pose proof Hwf as [Hlen Hptr].
  (* the state in which the slot is instantiated, and the singleton *)
  assert (Hinst : exists s' p obj,
             instantiation s s' /\
             ecma_builtin_objects s' !! id = Some (Some p) /\
             heap s' !! p = Some obj /\
             (ecma_builtin_objects s !! id = Some (Some p) /\ s' = s \/
              ecma_builtin_objects s !! id = Some None /\ (length (heap s) <= p)%nat) /\
             ecma_builtin_get fuel id s
             = Ok (p, {| heap := <[p := with_refs (S (object_refs obj)) obj]> (heap s');
                         ecma_builtin_objects := ecma_builtin_objects s' |}) /\
             forall obj_p, is_object s obj_p ->
               ecma_builtin_is fuel obj_p id s = Ok (bool_decide (obj_p = p), s')).
  { destruct (lookup_lt_is_Some_2 (ecma_builtin_objects s) id) as [[p|] Hslot]; [lia| |].
    - destruct (lookup_lt_is_Some_2 (heap s) p) as [obj Hp]; [eauto|].
      exists s, p, obj. split.
      { split; [assumption|]. split; [assumption|]. split; [|auto].
        exists []. now rewrite app_nil_r. }
      split; [assumption|]. split; [assumption|]. split; [auto|]. split.
      + now apply ecma_builtin_get_instantiated.
      + intros obj_p Hobj. now apply ecma_builtin_is_instantiated.
    - destruct (ecma_instantiate_builtin_keeps fuel id s Hends Hwf Htag Hslot)
        as ([] & s' & Hrun & Hinst & p & Hp & Hnew & obj & Hobj & _).
      exists s', p, obj. split; [assumption|].
      split; [assumption|]. split; [assumption|]. split; [auto|]. split.
      + now apply (ecma_builtin_get_empty fuel id s s' p obj).
      + intros obj_p Hobj_p. now apply (ecma_builtin_is_empty fuel obj_p id s s' p). }
  destruct Hinst as (s' & p & obj & Hinst & Hslot' & Hp & Hcases & Hget & His').
  pose proof Hinst as (Hwf' & Htag' & _).
  set (obj1 := with_refs (S (object_refs obj)) obj) in *.
  set (s1 := {| heap := <[p := obj1]> (heap s'); ecma_builtin_objects := ecma_builtin_objects s' |})
    in *.
  assert (Hp1 : heap s1 !! p = Some obj1).
  { simpl. apply list_lookup_insert_eq. now apply lookup_lt_Some in Hp. }
  assert (Htag1 : registry_tagged s1) by now apply registry_tagged_refs.
  destruct (Htag1 id p Hslot') as (entry & o & Hentry & Ho & Hb & Hlex & Hkind & Hfind).
  assert (o = obj1) by congruence. subst o.
  exists p, s1,
    {| heap := <[p := with_refs (S (object_refs obj1)) obj1]> (heap s1);
       ecma_builtin_objects := ecma_builtin_objects s1 |},
    entry, obj1.
  split; [exact Hget|]. split.
  { now apply ecma_builtin_get_instantiated. }
  split; [exact Hslot'|]. split; [exact Hentry|]. split; [exact Hp1|].
  split; [exact Hb|]. split; [exact Hlex|]. split; [exact Hkind|]. split; [exact Hfind|].
  split.
  { intros id' Hid'. now apply (registry_tagged_injective s1 id' id p). }
  split.
  { destruct Hcases as [[Hslot ->]|(Hslot & Hnew)].
    - left. split; [assumption|]. simpl. now rewrite length_insert.
    - right. auto. }
  split; [reflexivity|]. split.
  { simpl. now rewrite !length_insert. }
  assert (His1 : forall obj_p, is_object s1 obj_p ->
                   ecma_builtin_is fuel obj_p id s1 = Ok (bool_decide (obj_p = p), s1)).
  { intros obj_p Hobj. now apply ecma_builtin_is_instantiated. }
  split.
  { rewrite His1 by (exists obj1; auto). now rewrite bool_decide_eq_true_2. }
  split; [exact His1|].
  intros obj_p Hobj. exists s'. auto.
Qed.

End SingletonProofs.

(** * The loop of [ecma_init_builtins] *)

Section InitLoopProofs.

Context `{builtins_t}.

(** The assignments of the loop from the identifier [i] on: the slots below
    [i] are kept and the [n] slots from [i] on are [NULL]. *)
Lemma init_loop_from (n : nat) :
  forall (i : nat) (s : ecma_state_t),
    (i + n = length (ecma_builtin_objects s))%nat ->
    foldr (fun id rest => set_builtin_object id None ;;; rest) (ret tt) (seq i n) s
    = Ok (tt, {| heap := heap s;
                 ecma_builtin_objects := take i (ecma_builtin_objects s) ++ replicate n None |}).
Proof.
  induction n as [|n IH]; intros i s Hlen.
  - simpl. unfold ret. rewrite app_nil_r, firstn_all2 by lia. now destruct s.
  - destruct (lookup_lt_is_Some_2 (ecma_builtin_objects s) i) as [slot Hslot]; [lia|].
    cbn [seq foldr]. unfold bind at 1, set_builtin_object at 1. rewrite Hslot.
    rewrite IH by (cbn [ecma_builtin_objects]; rewrite length_insert; lia).
    cbn [heap ecma_builtin_objects]. do 3 f_equal.
    rewrite (take_S_r _ _ None)
      by (apply list_lookup_insert_eq; now apply lookup_lt_Some in Hslot).
    rewrite take_insert_ge by lia. now rewrite <- app_assoc.
Qed.

(** The loop of [ecma_init_builtins], run on the static array of
    [ECMA_BUILTIN_ID__COUNT] slots whatever they hold, returns; it leaves
    the heap as it is and every slot [NULL], which is the state that
    [ecma_init_builtins] gives in this development. *)
Theorem init_loop_clears_every_slot (s : ecma_state_t) :
  length (ecma_builtin_objects s) = ECMA_BUILTIN_ID__COUNT ->
  exists s' : ecma_state_t,
    ecma_init_builtins_loop s = Ok (tt, s') /\
    ecma_init_builtins s = Ok (tt, s') /\
    heap s' = heap s /\
    registry_wf s' /\
    forall id : nat, (id < ECMA_BUILTIN_ID__COUNT)%nat ->
                     ecma_builtin_objects s' !! id = Some None.
Proof.
  intros Hlen. unfold ecma_init_builtins_loop.
  rewrite init_loop_from by (simpl; lia).
  eexists. split; [reflexivity|]. cbn [take app]. split; [reflexivity|].
  split; [reflexivity|]. split.
  - split; [apply length_replicate|].
    intros id p Hp. apply lookup_replicate in Hp. now destruct Hp.
  - intros id Hid. now apply lookup_replicate_2.
Qed.

End InitLoopProofs.

(** * The accessor of the members that are not implemented *)

Section ThrowingAccessor.

Context `{build_t, magic_strings_t, builtins_t, collaborators_t}.

(** [[Call]] of the object of a slot of the registry that is a built-in
    function object carrying the identifier of the slot: the handler of the
    entry's variant, with the arguments. *)
Lemma function_slot_call fuel s id obj_p obj entry this_arg_value arguments_list :
  registry_wf s ->
  ecma_builtin_objects s !! id = Some (Some obj_p) ->
  heap s !! obj_p = Some obj ->
  object_is_builtin obj = true ->
  object_is_lexical_environment obj = false ->
  object_kind obj = ECMA_OBJECT_TYPE_FUNCTION ->
  find_property (KEY_INTERNAL ECMA_INTERNAL_PROPERTY_BUILT_IN_ID) (object_properties obj)
  = Some (ECMA_PROPERTY_INTERNAL ECMA_INTERNAL_PROPERTY_BUILT_IN_ID
            (INTERNAL_UINT32 (Z.of_nat id))) ->
  find_builtin_entry id = Some entry ->
  entry_object_type entry = ECMA_OBJECT_TYPE_FUNCTION ->
  ecma_builtin_dispatch_call fuel obj_p this_arg_value arguments_list s
  = ecma_builtin_other_dispatch_call (entry_lowercase_name entry) arguments_list s.
Proof.
  intros Hwf Hslot Hobj Hb Hlex Hkind Hfind Hentry Hfun.
  assert (Hid : (id < ECMA_BUILTIN_ID__COUNT)%nat).
  { destruct Hwf as [<- _]. now apply lookup_lt_Some in Hslot. }
  assert (Hbuiltin : JERRY_ASSERT_M (ecma_get_object_is_builtin obj_p) s = Ok (tt, s)).
  { unfold JERRY_ASSERT_M, ecma_get_object_is_builtin, bind, get_object, ret.
    destruct JERRY_NDEBUG; [reflexivity|]. now rewrite Hobj, Hb. }
  assert (Htype : ecma_get_object_type obj_p s = Ok (ECMA_OBJECT_TYPE_FUNCTION, s)).
  { unfold ecma_get_object_type, bind, get_object, ret. now rewrite Hobj, Hkind. }
  assert (Hprop : (built_in_id_prop_p <- ecma_get_internal_property obj_p
                                           ECMA_INTERNAL_PROPERTY_BUILT_IN_ID ;;
                   get_internal_property_uint32 built_in_id_prop_p) s = Ok (Z.of_nat id, s)).
  { unfold ecma_get_internal_property, ecma_find_internal_property, find_property_ptr,
      get_internal_property_uint32, get_internal_property_value, load_property,
      bind, get_object, ret.
    rewrite Hobj, Hfind. cbn. rewrite Hobj, Hfind. reflexivity. }
  assert (His : JERRY_ASSERT_M (ecma_builtin_is fuel obj_p id) s = Ok (tt, s)).
  { unfold JERRY_ASSERT_M. destruct JERRY_NDEBUG; [reflexivity|].
    unfold bind.
    rewrite (ecma_builtin_is_instantiated fuel obj_p id s obj_p Hid Hslot);
      [|now exists obj].
    now rewrite bool_decide_eq_true_2. }
  unfold bind in Hprop.
  destruct (ecma_get_internal_property obj_p ECMA_INTERNAL_PROPERTY_BUILT_IN_ID s)
    as [[prop_p s1]|] eqn:Hget; [|discriminate].
  unfold ecma_builtin_dispatch_call.
  unfold bind at 1. rewrite Hbuiltin.
  unfold bind at 1. rewrite Htype.
  rewrite decide_False by discriminate.
  unfold bind at 1. rewrite JERRY_ASSERT_true by (apply bool_decide_eq_true_2; reflexivity).
  cbn [lift].
  unfold bind at 1. rewrite Hget.
  unfold bind at 1. rewrite Hprop, Nat2Z.id.
  unfold bind at 1. rewrite His.
  rewrite (dispatch_switch
             (fun entry =>
                if decide (entry_object_type entry = ECMA_OBJECT_TYPE_FUNCTION)
                then ecma_builtin_other_dispatch_call (entry_lowercase_name entry)
                       arguments_list
                else abort UNREACHABLE)).
  rewrite Hentry. now rewrite decide_True.
Qed.

(** What is the same in two objects that differ in their reference
    counters at most. *)
Lemma same_object_header o1 o2 :
  same_object o1 o2 ->
  object_is_builtin o2 = object_is_builtin o1 /\
  object_is_lexical_environment o2 = object_is_lexical_environment o1 /\
  object_kind o2 = object_kind o1 /\
  object_properties o2 = object_properties o1.
Proof.
  unfold same_object, with_refs. intros [= _ _ Hkind Hb Hlex Hprops]. auto.
Qed.

(** The object that [ecma_builtin_get] returns for an identifier, in a
    registry whose slot for the identifier is empty or holds the built-in
    object of the identifier: that built-in object. *)
Lemma ecma_builtin_get_object fuel id s p s' entry :
  prototype_chain_ends fuel id = true ->
  registry_wf s ->
  find_builtin_entry id = Some entry ->
  (forall q, ecma_builtin_objects s !! id = Some (Some q) ->
             exists o, heap s !! q = Some o /\
                       object_is_builtin o = true /\
                       object_is_lexical_environment o = false /\
                       object_kind o = entry_object_type entry /\
                       find_property (KEY_INTERNAL ECMA_INTERNAL_PROPERTY_BUILT_IN_ID)
                         (object_properties o)
                       = Some (ECMA_PROPERTY_INTERNAL ECMA_INTERNAL_PROPERTY_BUILT_IN_ID
                                 (INTERNAL_UINT32 (Z.of_nat id)))) ->
  ecma_builtin_get fuel id s = Ok (p, s') ->
  (ecma_builtin_objects s !! id = Some (Some p) \/ (length (heap s) <= p)%nat) /\
  exists o, heap s' !! p = Some o /\
            object_is_builtin o = true /\
            object_is_lexical_environment o = false /\
            object_kind o = entry_object_type entry /\
            find_property (KEY_INTERNAL ECMA_INTERNAL_PROPERTY_BUILT_IN_ID)
              (object_properties o)
            = Some (ECMA_PROPERTY_INTERNAL ECMA_INTERNAL_PROPERTY_BUILT_IN_ID
                      (INTERNAL_UINT32 (Z.of_nat id))).
Proof.
  intros Hends Hwf Hentry Hheld Hget.
  pose proof (prototype_chain_ends_lt _ _ Hends) as Hid.
  pose proof Hwf as [Hlen Hptr].
  destruct (lookup_lt_is_Some_2 (ecma_builtin_objects s) id) as [[q|] Hslot]; [lia| |].
  - destruct (Hheld q Hslot) as (o & Ho & Hfacts).
    rewrite (ecma_builtin_get_instantiated fuel id s q o Hid Hslot Ho) in Hget.
    injection Hget as <- <-. split; [auto|].
    exists (with_refs (S (object_refs o)) o). split; [|exact Hfacts].
    simpl. apply list_lookup_insert_eq. now apply lookup_lt_Some in Ho.
  - destruct (ecma_instantiate_builtin_spec fuel id s Hends Hwf Hslot)
      as ([] & s1 & Hrun & Hwf1 & Hext1 & (entry' & q & o & Hentry' & Hslot1 & Hnew & Ho
                                           & Hfresh & _)).
    assert (entry' = entry) by congruence. subst entry'.
    rewrite (ecma_builtin_get_empty fuel id s s1 q o Hid Hslot Hrun Hslot1 Ho) in Hget.
    injection Hget as <- <-. split; [auto|].
    destruct Hfresh as (_ & Hkind & Hb & Hlex & Hfind & _).
    exists (with_refs (S (object_refs o)) o). split; [|auto].
    simpl. apply list_lookup_insert_eq. now apply lookup_lt_Some in Ho.
Qed.

(** C9.  In the compact profile, for each of the members that are not
    implemented (Date, RegExp, Error and its subtypes, JSON), the routine
    installs and returns one property of that name, an accessor and no data
    property, whose getter and setter are both the CompactProfileError
    object of the registry; and the [[Call]] of that object, which is what
    reading or writing the member invokes, returns a throw completion
    whatever the [this] value and the arguments. *)
Theorem compact_profile_throwing_accessor (fuel : nat) (obj_p : ecma_object_ptr)
    (prop_name_p : ecma_string_t) (id : Z) (index : nat) (bit_mask : Z)
    (s : ecma_state_t) (obj : ecma_object_t) :
  headers_wf -> (ECMA_BUILTIN_ID__COUNT <= fuel)%nat ->
  CONFIG_ECMA_COMPACT_PROFILE = true ->
  compact_profile_error_throws ->
  registry_wf s -> registry_tagged s ->
  is_global_object s obj_p ->
  heap s !! obj_p = Some obj ->
  find_property (KEY_NAMED prop_name_p) (object_properties obj) = None ->
  ecma_is_string_magic prop_name_p = Some id ->
  id ∈ not_implemented_names ->
  ecma_builtin_global_property_names !! index = Some id ->
  instantiated_mask (object_properties obj) = Some bit_mask ->
  Z.testbit bit_mask (Z.of_nat index) = false ->
  exists (s' : ecma_state_t) (get_set_p : ecma_object_ptr),
    ecma_builtin_global_try_to_instantiate_property fuel obj_p prop_name_p s
    = Ok (Some {| property_owner := obj_p; property_ptr_key := KEY_NAMED prop_name_p |}, s') /\
    find_property (KEY_NAMED prop_name_p) (properties_of s' obj_p)
    = Some (ECMA_PROPERTY_NAMEDACCESSOR prop_name_p (Some get_set_p) (Some get_set_p)
              true false) /\
    named_properties prop_name_p (properties_of s' obj_p)
    = [ ECMA_PROPERTY_NAMEDACCESSOR prop_name_p (Some get_set_p) (Some get_set_p)
          true false ] /\
    ecma_builtin_objects s' !! ECMA_BUILTIN_ID_COMPACT_PROFILE_ERROR = Some (Some get_set_p) /\
    forall (this_arg_value : ecma_value_t) (arguments_list : list ecma_value_t),
      exists (completion : ecma_completion_value_t) (s'' : ecma_state_t),
        ecma_builtin_dispatch_call fuel get_set_p this_arg_value arguments_list s'
        = Ok (completion, s'') /\
        ecma_is_completion_value_throw completion = true.
Proof.
  intros Hwf Hfuel Hcompact (Hne & entry & Hentry & Hfun & Hthrows) Hreg Htag Hglobal Hobj
    Habsent Hmagic Hni Hindex Hmask Hbit.
  destruct (first_instantiation fuel obj_p prop_name_p id index bit_mask s obj
              Hwf Hfuel Hreg Hglobal Hobj Habsent Hmagic Hindex Hmask Hbit (or_introl Hcompact))
    as (r & s1 & Hrun & -> & Hreg1 & Hslots1 & obj1 & new_prop & props & Hobj1 & Hprops1
        & Hmask1 & Hnamed1 & Haccessor & _).
  destruct (Haccessor Hni)
    as (get_set_p & -> & Hslot & s_in & s_get & Hreg_in & Hlt & Hsame & Hframe_in & Hget
        & (_ & Hframe)).
  exists s1, get_set_p. split; [exact Hrun|].
  rewrite (properties_of_lookup _ _ _ Hobj1), Hprops1.
  split; [|split; [|split; [exact Hslot|]]].
  - simpl. now rewrite decide_True.
  - unfold named_properties. rewrite filter_cons, decide_True by reflexivity.
    fold (named_properties prop_name_p props).
    now rewrite Hnamed1, (named_properties_absent _ _ Habsent).
  - (* the getter is the built-in function object of the CompactProfileError *)
    pose proof Hwf as (_ & _ & _ & _ & _ & Hcpe). specialize (Hcpe Hcompact).
    destruct Hglobal as (_ & Hglobal_slot & _).
    destruct (ecma_builtin_get_object fuel ECMA_BUILTIN_ID_COMPACT_PROFILE_ERROR s_in
                get_set_p s_get entry) as (Hwhere & o & Ho & Hb & Hlex & Hkind & Hfind);
      [now apply headers_wf_chain|assumption|assumption| |assumption|].
    { intros q Hq. rewrite Hsame in Hq.
      destruct (Htag _ _ Hq) as (entry' & o & Hentry' & Ho & Hfacts).
      assert (entry' = entry) by congruence. subst entry'.
      exists o. split; [|exact Hfacts].
      rewrite Hframe_in; [assumption|].
      intros ->. apply Hne.
      now apply (registry_tagged_injective s _ _ obj_p). }
    assert (Hother : get_set_p <> obj_p).
    { destruct Hwhere as [Hq|Hnew]; [|lia].
      rewrite Hsame in Hq. intros ->. apply Hne.
      now apply (registry_tagged_injective s _ _ obj_p). }
    destruct (Hframe get_set_p o Hother Ho) as (o' & Ho' & Hsame_o).
    apply same_object_header in Hsame_o as (Hb' & Hlex' & Hkind' & Hprops').
    intros this_arg_value arguments_list.
    rewrite (function_slot_call fuel s1 ECMA_BUILTIN_ID_COMPACT_PROFILE_ERROR get_set_p o' entry);
      try assumption; try congruence.
    now apply (Hthrows arguments_list s1 get_set_p).
Qed.

End ThrowingAccessor.

(** ** The properties on the sample configuration *)

Lemma sample_headers_wf (ndebug compact_profile : bool) :
  @headers_wf (sample_build ndebug compact_profile) sample_magic_strings sample_builtins.
Proof.
  unfold headers_wf. split; [reflexivity|]. split.
  { unfold routine_id_layout_wf. simpl. lia. }
  split.
  { apply ids_are_sorted_ascending. now destruct compact_profile. }
  split.
  { destruct compact_profile; repeat constructor; simpl; lia. }
  split.
  { repeat constructor; simpl; lia. }
  intros _. simpl. lia.
Qed.

Lemma sample_is_global_object : @is_global_object sample_builtins sample_global_state 2.
Proof.
  split; [simpl; lia|]. split; [reflexivity|].
  eexists. split; reflexivity.
Qed.

Lemma lookup_miss_changes_nothing_witness :
  @ecma_builtin_global_try_to_instantiate_property (sample_build false false)
    sample_magic_strings sample_builtins sample_collaborators
    15 2 (ECMA_STRING_CHARS "doesNotExist") sample_global_state
  = Ok (None, sample_global_state).
Proof.
  apply (@lookup_miss_changes_nothing (sample_build false false) sample_magic_strings
           sample_builtins sample_collaborators 15 2 (ECMA_STRING_CHARS "doesNotExist")
           sample_global_state).
  - apply ids_are_sorted_ascending. reflexivity.
  - intros _. split; [exact sample_is_global_object|reflexivity].
  - intros id Hid. discriminate Hid.
Defined.

Lemma lazy_property_instantiated_once_witness :
  exists (prop_p : ecma_property_ptr) (s1 : ecma_state_t),
    @ecma_builtin_global_try_to_instantiate_property (sample_build true false)
      sample_magic_strings sample_builtins sample_collaborators
      15 2 (ECMA_STRING_MAGIC 16) sample_global_state
    = Ok (Some prop_p, s1) /\
    length (named_properties (ECMA_STRING_MAGIC 16) (properties_of s1 2)) = 1%nat /\
    is_instantiated (properties_of s1 2) 2 = true /\
    @ecma_builtin_global_try_to_instantiate_property (sample_build true false)
      sample_magic_strings sample_builtins sample_collaborators
      15 2 (ECMA_STRING_MAGIC 16) s1
    = Ok (None, s1).
Proof.
  destruct (@lazy_property_instantiated_once (sample_build true false) sample_magic_strings
              sample_builtins sample_collaborators 15 2 (ECMA_STRING_MAGIC 16) 16 2 0
              sample_global_state sample_global_object)
    as (prop_p & s1 & Hfirst & Hone & Hbit & Hsecond & _).
  - apply sample_headers_wf.
  - simpl. lia.
  - apply registry_wf_check_correct. reflexivity.
  - exact sample_is_global_object.
  - reflexivity.
  - reflexivity.
  - reflexivity.
  - reflexivity.
  - reflexivity.
  - reflexivity.
  - right. unfold not_implemented_names. simpl. rewrite !not_elem_of_cons.
    repeat split; try lia. apply not_elem_of_nil.
  - exists prop_p, s1. repeat split; try assumption. now apply Hsecond.
Defined.

(** C3 as the claim words it fails at two inputs.  In the full profile the
    first call for Date sets the bit and then leaves by
    [JERRY_UNIMPLEMENTED], so no property is created; and in a build with
    assertions the second call for NaN, made while the property of the
    first call is on the object, fails the assertion at the entry of the
    routine instead of returning [NULL]. *)
Lemma lazy_property_twice_counterexample :
  @ecma_builtin_global_try_to_instantiate_property (sample_build true false)
    sample_magic_strings sample_builtins sample_collaborators
    15 2 (ECMA_STRING_MAGIC 27) sample_global_state
  = Abort UNIMPLEMENTED /\
  exists (prop_p : ecma_property_ptr) (s1 : ecma_state_t),
    @ecma_builtin_global_try_to_instantiate_property (sample_build false false)
      sample_magic_strings sample_builtins sample_collaborators
      15 2 (ECMA_STRING_MAGIC 16) sample_global_state
    = Ok (Some prop_p, s1) /\
    @ecma_builtin_global_try_to_instantiate_property (sample_build false false)
      sample_magic_strings sample_builtins sample_collaborators
      15 2 (ECMA_STRING_MAGIC 16) s1
    = Abort ASSERTION.
Proof.
  split; [vm_compute; reflexivity|].
  eexists _, _. split; vm_compute; reflexivity.
Qed.

Lemma search_checks_the_order_witness :
  @ecma_builtin_bin_search_for_magic_string_id_in_array (sample_build false false) [6; 1] 6
  = Abort ASSERTION.
Proof.
  destruct (@search_checks_the_order (sample_build false false) [6; 1] 6 eq_refl)
    as [_ Hcaught].
  apply Hcaught. intros Hsorted.
  pose proof (Hsorted 0%nat 1%nat 6 1 eq_refl eq_refl). lia.
Defined.

Lemma global_constant_property_witness :
  exists s' : ecma_state_t,
    @ecma_builtin_global_try_to_instantiate_property (sample_build false false)
      sample_magic_strings sample_builtins sample_collaborators
      15 2 (ECMA_STRING_MAGIC 16) sample_global_state
    = Ok (Some {| property_owner := 2; property_ptr_key := KEY_NAMED (ECMA_STRING_MAGIC 16) |},
          s') /\
    find_property (KEY_NAMED (ECMA_STRING_MAGIC 16)) (properties_of s' 2)
    = Some (ECMA_PROPERTY_NAMEDDATA (ECMA_STRING_MAGIC 16)
              (ecma_make_number_value ecma_number_make_nan) false false false).
Proof.
  apply (@global_constant_property (sample_build false false) sample_magic_strings
           sample_builtins sample_collaborators 15 2 (ECMA_STRING_MAGIC 16) 16
           (ecma_make_number_value ecma_number_make_nan) 2 0
           sample_global_state sample_global_object).
  - apply sample_headers_wf.
  - simpl. lia.
  - apply registry_wf_check_correct. reflexivity.
  - exact sample_is_global_object.
  - reflexivity.
  - reflexivity.
  - reflexivity.
  - reflexivity.
  - reflexivity.
  - reflexivity.
  - simpl. rewrite !elem_of_cons. tauto.
Defined.

Lemma global_builtin_object_property_witness :
  exists (s' : ecma_state_t) (builtin_obj_p : ecma_object_ptr),
    @ecma_builtin_global_try_to_instantiate_property (sample_build false false)
      sample_magic_strings sample_builtins sample_collaborators
      15 2 (ECMA_STRING_MAGIC 36) sample_global_state
    = Ok (Some {| property_owner := 2; property_ptr_key := KEY_NAMED (ECMA_STRING_MAGIC 36) |},
          s') /\
    find_property (KEY_NAMED (ECMA_STRING_MAGIC 36)) (properties_of s' 2)
    = Some (ECMA_PROPERTY_NAMEDDATA (ECMA_STRING_MAGIC 36)
              (ecma_make_object_value builtin_obj_p) true false true) /\
    ecma_builtin_objects s' !! 13%nat = Some (Some builtin_obj_p).
Proof.
  apply (@global_builtin_object_property (sample_build false false) sample_magic_strings
           sample_builtins sample_collaborators 15 2 (ECMA_STRING_MAGIC 36) 36 13 19 0
           sample_global_state sample_global_object).
  - apply sample_headers_wf.
  - simpl. lia.
  - apply registry_wf_check_correct. reflexivity.
  - exact sample_is_global_object.
  - reflexivity.
  - reflexivity.
  - reflexivity.
  - reflexivity.
  - reflexivity.
  - reflexivity.
  - simpl. rewrite !elem_of_cons. tauto.
Defined.

Lemma global_routine_property_witness :
  exists (s' : ecma_state_t) (func_obj_p : ecma_object_ptr) (func : ecma_object_t)
         (prototype_obj_p : ecma_object_ptr),
    @ecma_builtin_global_try_to_instantiate_property (sample_build false false)
      sample_magic_strings sample_builtins sample_collaborators
      15 2 (ECMA_STRING_MAGIC 38) sample_global_state
    = Ok (Some {| property_owner := 2; property_ptr_key := KEY_NAMED (ECMA_STRING_MAGIC 38) |},
          s') /\
    find_property (KEY_NAMED (ECMA_STRING_MAGIC 38)) (properties_of s' 2)
    = Some (ECMA_PROPERTY_NAMEDDATA (ECMA_STRING_MAGIC 38)
              (ecma_make_object_value func_obj_p) true false true) /\
    heap s' !! func_obj_p = Some func /\
    @routine_function_object sample_magic_strings sample_builtins 0 38 (ECMA_NUMBER_FINITE 2)
      prototype_obj_p func /\
    forall (this_arg_value : ecma_value_t) (arguments_list : list ecma_value_t),
      @ecma_builtin_dispatch_call (sample_build false false) sample_magic_strings
        sample_builtins sample_collaborators 15 func_obj_p this_arg_value arguments_list s'
      = @ecma_builtin_dispatch_routine (sample_build false false) sample_magic_strings
          sample_builtins sample_collaborators 0 38 this_arg_value arguments_list s'.
Proof.
  apply (@global_routine_property (sample_build false false) sample_magic_strings
           sample_builtins sample_collaborators 15 2 (ECMA_STRING_MAGIC 38) 38
           {| routine_name := 38;
              routine_c_function_name :=
                ROUTINE_FUNCTION_2
                  (@ecma_builtin_global_object_parse_int sample_collaborators);
              routine_args_number := 2;
              routine_length := 2 |}
           21 0 sample_global_state sample_global_object).
  - apply sample_headers_wf.
  - simpl. lia.
  - apply registry_wf_check_correct. reflexivity.
  - exact sample_is_global_object.
  - reflexivity.
  - reflexivity.
  - reflexivity.
  - reflexivity.
  - reflexivity.
  - reflexivity.
  - unfold ECMA_BUILTIN_GLOBAL_OBJECT_ROUTINES_PROPERTY_LIST.
    do 8 apply list_elem_of_further. apply list_elem_of_here.
  - reflexivity.
Defined.

(** ** The further properties on the sample configuration *)

Lemma sample_state_tagged : @registry_tagged sample_builtins sample_state.
Proof.
  intros id p Hp.
  change (replicate 15 None !! id = Some (Some p)) in Hp.
  apply lookup_replicate in Hp. now destruct Hp.
Qed.

Lemma sample_global_state_tagged : @registry_tagged sample_builtins sample_global_state.
Proof.
  destruct (@ecma_builtin_get_registry (sample_build false false) sample_magic_strings
              sample_builtins 15 0 sample_state)
    as (p & s' & Hrun & _ & Htag & _).
  - reflexivity.
  - apply registry_wf_check_correct. reflexivity.
  - exact sample_state_tagged.
  - assert (Hcomputed : @ecma_builtin_get (sample_build false false) sample_magic_strings
                          sample_builtins 15 0 sample_state
                        = Ok (2%nat, sample_global_state)) by (vm_compute; reflexivity).
    rewrite Hcomputed in Hrun. injection Hrun as <- <-. exact Htag.
Qed.

Lemma sample_object_state_tagged : @registry_tagged sample_builtins sample_object_state.
Proof.
  destruct (@ecma_builtin_get_registry (sample_build false false) sample_magic_strings
              sample_builtins 15 1 sample_state)
    as (p & s' & Hrun & _ & Htag & _).
  - reflexivity.
  - apply registry_wf_check_correct. reflexivity.
  - exact sample_state_tagged.
  - assert (Hcomputed : @ecma_builtin_get (sample_build false false) sample_magic_strings
                          sample_builtins 15 1 sample_state
                        = Ok (3%nat, sample_object_state)) by (vm_compute; reflexivity).
    rewrite Hcomputed in Hrun. injection Hrun as <- <-. exact Htag.
Qed.

Lemma registry_singleton_identity_witness :
  exists (p : ecma_object_ptr) (s1 s2 : ecma_state_t) (entry : builtin_descriptor_t)
         (obj : ecma_object_t),
    @ecma_builtin_get (sample_build false false) sample_magic_strings sample_builtins
      15 1 sample_state = Ok (p, s1) /\
    @ecma_builtin_get (sample_build false false) sample_magic_strings sample_builtins
      15 1 s1 = Ok (p, s2) /\
    ecma_builtin_objects s1 !! 1%nat = Some (Some p) /\
    @find_builtin_entry sample_builtins 1 = Some entry /\
    heap s1 !! p = Some obj /\
    object_is_builtin obj = true /\
    object_is_lexical_environment obj = false /\
    object_kind obj = entry_object_type entry /\
    find_property (KEY_INTERNAL ECMA_INTERNAL_PROPERTY_BUILT_IN_ID) (object_properties obj)
    = Some (ECMA_PROPERTY_INTERNAL ECMA_INTERNAL_PROPERTY_BUILT_IN_ID (INTERNAL_UINT32 1)) /\
    (forall id' : nat, ecma_builtin_objects s1 !! id' = Some (Some p) -> id' = 1%nat) /\
    (ecma_builtin_objects sample_state !! 1%nat = Some (Some p) /\
     length (heap s1) = length (heap sample_state) \/
     ecma_builtin_objects sample_state !! 1%nat = Some None /\
     (length (heap sample_state) <= p)%nat) /\
    ecma_builtin_objects s2 = ecma_builtin_objects s1 /\
    length (heap s2) = length (heap s1) /\
    @ecma_builtin_is (sample_build false false) sample_magic_strings sample_builtins
      15 p 1 s1 = Ok (true, s1) /\
    (forall obj_p : ecma_object_ptr,
       is_object s1 obj_p ->
       @ecma_builtin_is (sample_build false false) sample_magic_strings sample_builtins
         15 obj_p 1 s1 = Ok (bool_decide (obj_p = p), s1)) /\
    (forall obj_p : ecma_object_ptr,
       is_object sample_state obj_p ->
       exists s3 : ecma_state_t,
         @ecma_builtin_is (sample_build false false) sample_magic_strings sample_builtins
           15 obj_p 1 sample_state = Ok (bool_decide (obj_p = p), s3) /\
         ecma_builtin_objects s3 !! 1%nat = Some (Some p) /\
         @registry_wf sample_builtins s3 /\ @registry_tagged sample_builtins s3).
Proof.
  apply (@registry_singleton_identity (sample_build false false) sample_magic_strings
           sample_builtins 15 1 sample_state).
  - reflexivity.
  - simpl. lia.
  - simpl. lia.
  - apply registry_wf_check_correct. reflexivity.
  - exact sample_state_tagged.
Defined.

Lemma init_loop_clears_every_slot_witness :
  exists s' : ecma_state_t,
    @ecma_init_builtins_loop sample_builtins sample_global_state = Ok (tt, s') /\
    @ecma_init_builtins sample_builtins sample_global_state = Ok (tt, s') /\
    heap s' = heap sample_global_state /\
    @registry_wf sample_builtins s' /\
    forall id : nat, (id < 15)%nat -> ecma_builtin_objects s' !! id = Some None.
Proof.
  apply (@init_loop_clears_every_slot sample_builtins sample_global_state).
  reflexivity.
Defined.

Lemma sample_compact_profile_error_throws :
  @compact_profile_error_throws sample_builtins sample_throwing_collaborators.
Proof.
  split; [discriminate|].
  exists (sample_entry 14 ECMA_OBJECT_TYPE_FUNCTION 46 4 "compact_profile_error").
  split; [reflexivity|]. split; [reflexivity|].
  intros arguments_list s error_p Hwf Hslot.
  destruct (lookup_lt_is_Some_2 (heap s) error_p) as [obj Hobj].
  { destruct Hwf as [_ Hptr]. exact (Hptr _ _ Hslot). }
  cbn [ecma_builtin_other_dispatch_call sample_throwing_collaborators entry_lowercase_name
         sample_entry].
  rewrite decide_True by reflexivity. unfold bind.
  rewrite (@ecma_builtin_get_instantiated (sample_build false true) sample_magic_strings
             sample_builtins 15 14 s error_p obj); [|simpl; lia|exact Hslot|exact Hobj].
  eexists _, _. split; reflexivity.
Qed.

Lemma compact_profile_throwing_accessor_witness :
  exists (s' : ecma_state_t) (get_set_p : ecma_object_ptr),
    @ecma_builtin_global_try_to_instantiate_property (sample_build false true)
      sample_magic_strings sample_builtins sample_throwing_collaborators
      15 2 (ECMA_STRING_MAGIC 37) sample_global_state
    = Ok (Some {| property_owner := 2; property_ptr_key := KEY_NAMED (ECMA_STRING_MAGIC 37) |},
          s') /\
    find_property (KEY_NAMED (ECMA_STRING_MAGIC 37)) (properties_of s' 2)
    = Some (ECMA_PROPERTY_NAMEDACCESSOR (ECMA_STRING_MAGIC 37) (Some get_set_p)
              (Some get_set_p) true false) /\
    named_properties (ECMA_STRING_MAGIC 37) (properties_of s' 2)
    = [ ECMA_PROPERTY_NAMEDACCESSOR (ECMA_STRING_MAGIC 37) (Some get_set_p) (Some get_set_p)
          true false ] /\
    ecma_builtin_objects s' !! 14%nat = Some (Some get_set_p) /\
    forall (this_arg_value : ecma_value_t) (arguments_list : list ecma_value_t),
      exists (completion : ecma_completion_value_t) (s'' : ecma_state_t),
        @ecma_builtin_dispatch_call (sample_build false true) sample_magic_strings
          sample_builtins sample_throwing_collaborators
          15 get_set_p this_arg_value arguments_list s'
        = Ok (completion, s'') /\
        ecma_is_completion_value_throw completion = true.
Proof.
  apply (@compact_profile_throwing_accessor (sample_build false true) sample_magic_strings
           sample_builtins sample_throwing_collaborators 15 2 (ECMA_STRING_MAGIC 37) 37 20 0
           sample_global_state sample_global_object).
  - apply sample_headers_wf.
  - simpl. lia.
  - reflexivity.
  - exact sample_compact_profile_error_throws.
  - apply registry_wf_check_correct. reflexivity.
  - exact sample_global_state_tagged.
  - exact sample_is_global_object.
  - reflexivity.
  - reflexivity.
  - reflexivity.
  - unfold not_implemented_names. simpl. rewrite !elem_of_cons. tauto.
  - reflexivity.
  - reflexivity.
  - reflexivity.
Defined.

Lemma search_is_safe_on_any_array_witness :
  exists r : Z,
    @ecma_builtin_bin_search_for_magic_string_id_in_array (sample_build true false)
      [16; 1; 6] 1 = Ok r /\
    (r = -1 \/ (0 <= r < Z.of_nat (length [16; 1; 6]) /\ [16; 1; 6] !! Z.to_nat r = Some 1)).
Proof.
  apply (@search_is_safe_on_any_array (sample_build true false) [16; 1; 6] 1).
  - reflexivity.
  - simpl. lia.
Defined.

Lemma surplus_arguments_are_dropped_witness :
  @routine_call
    (ROUTINE_FUNCTION_1
       (@ecma_builtin_global_object_is_nan (sample_build false false) sample_collaborators))
    (take 1 [ECMA_TYPE_NUMBER ECMA_NUMBER_NAN; ECMA_TYPE_NUMBER (ECMA_NUMBER_FINITE 7)])
  = Some (@ecma_builtin_global_dispatch_routine (sample_build false false)
            sample_magic_strings sample_collaborators 40
            (ECMA_TYPE_SIMPLE ECMA_SIMPLE_VALUE_NULL)
            [ECMA_TYPE_NUMBER ECMA_NUMBER_NAN; ECMA_TYPE_NUMBER (ECMA_NUMBER_FINITE 7)]).
Proof.
  apply (@surplus_arguments_are_dropped (sample_build false false) sample_magic_strings
           sample_collaborators 40
           {| routine_name := 40;
              routine_c_function_name :=
                ROUTINE_FUNCTION_1
                  (@ecma_builtin_global_object_is_nan (sample_build false false)
                     sample_collaborators);
              routine_args_number := 1;
              routine_length := 1 |}).
  - reflexivity.
  - simpl. lia.
Defined.

Lemma unknown_routine_is_unreachable_witness :
  @ecma_builtin_global_dispatch_routine (sample_build false false) sample_magic_strings
    sample_collaborators 16 (ECMA_TYPE_SIMPLE ECMA_SIMPLE_VALUE_UNDEFINED) [] sample_state
  = Abort UNREACHABLE.
Proof.
  apply (@unknown_routine_is_unreachable (sample_build false false) sample_magic_strings
           sample_collaborators 16).
  simpl. rewrite !not_elem_of_cons. repeat split; try lia. apply not_elem_of_nil.
Defined.

Lemma get_then_deref_restores_witness :
  (obj_p <- @ecma_builtin_get (sample_build false false) sample_magic_strings sample_builtins
              15 0 ;;
   ecma_deref_object obj_p ;;; ret obj_p) sample_global_state
  = Ok (2%nat, sample_global_state).
Proof.
  apply (@get_then_deref_restores (sample_build false false) sample_magic_strings
           sample_builtins 15 0 sample_global_state 2).
  - simpl. lia.
  - reflexivity.
  - simpl. lia.
Defined.

Lemma is_nan_and_is_finite_answers_witness :
  @ecma_builtin_global_object_is_nan (sample_build false false) sample_collaborators
    (ECMA_TYPE_NUMBER ECMA_NUMBER_NAN) sample_state
  = Ok (ecma_make_simple_completion_value ECMA_SIMPLE_VALUE_TRUE, sample_state) /\
  @ecma_builtin_global_object_is_finite (sample_build false false) sample_collaborators
    (ECMA_TYPE_NUMBER ECMA_NUMBER_NAN) sample_state
  = Ok (ecma_make_simple_completion_value ECMA_SIMPLE_VALUE_FALSE, sample_state).
Proof.
  destruct (@is_nan_and_is_finite_answers (sample_build false false) sample_collaborators
              (ECMA_TYPE_NUMBER ECMA_NUMBER_NAN) sample_state sample_state
              {| completion_type := ECMA_COMPLETION_TYPE_NORMAL;
                 completion_value := ECMA_TYPE_NUMBER ECMA_NUMBER_NAN |} eq_refl)
    as [_ Hnumber].
  exact (Hnumber ECMA_NUMBER_NAN eq_refl).
Defined.

Lemma builtin_object_layout_witness :
  exists obj : ecma_object_t,
    @ecma_builtin_init_object sample_magic_strings sample_builtins 12 (Some 1%nat)
      ECMA_OBJECT_TYPE_GENERAL 26 sample_global_state
    = Ok (3%nat, {| heap := heap sample_global_state ++ [obj];
                    ecma_builtin_objects := ecma_builtin_objects sample_global_state |}) /\
    @builtin_object_initialised sample_magic_strings sample_builtins 12 (Some 1%nat)
      ECMA_OBJECT_TYPE_GENERAL 26 obj.
Proof.
  apply (@builtin_object_layout sample_magic_strings sample_builtins 12 (Some 1%nat)
           ECMA_OBJECT_TYPE_GENERAL 26 sample_global_state); simpl; lia.
Defined.

Lemma builtin_get_keeps_the_registry_witness :
  exists (p : ecma_object_ptr) (s' : ecma_state_t),
    @ecma_builtin_get (sample_build false false) sample_magic_strings sample_builtins
      15 1 sample_global_state = Ok (p, s') /\
    @registry_wf sample_builtins s' /\ @registry_tagged sample_builtins s' /\
    ecma_builtin_objects s' !! 1%nat = Some (Some p) /\
    (forall (id' : nat) (q : ecma_object_ptr),
       ecma_builtin_objects sample_global_state !! id' = Some (Some q) ->
       ecma_builtin_objects s' !! id' = Some (Some q)) /\
    (forall (q : ecma_object_ptr) (obj : ecma_object_t),
       heap sample_global_state !! q = Some obj ->
       heap s' !! q
       = Some (if decide (q = p) then with_refs (S (object_refs obj)) obj else obj)).
Proof.
  apply (@builtin_get_keeps_the_registry (sample_build false false) sample_magic_strings
           sample_builtins 15 1 sample_global_state).
  - reflexivity.
  - simpl. lia.
  - simpl. lia.
  - apply registry_wf_check_correct. reflexivity.
  - exact sample_global_state_tagged.
Defined.

Lemma distinct_builtins_are_distinct_objects_witness :
  exists (p q : ecma_object_ptr) (s1 s2 : ecma_state_t),
    @ecma_builtin_get (sample_build false false) sample_magic_strings sample_builtins
      15 1 sample_state = Ok (p, s1) /\
    @ecma_builtin_get (sample_build false false) sample_magic_strings sample_builtins
      15 3 s1 = Ok (q, s2) /\
    p <> q.
Proof.
  apply (@distinct_builtins_are_distinct_objects (sample_build false false)
           sample_magic_strings sample_builtins 15 1 3 sample_state).
  - reflexivity.
  - simpl. lia.
  - simpl. lia.
  - simpl. lia.
  - apply registry_wf_check_correct. reflexivity.
  - exact sample_state_tagged.
  - lia.
Defined.

Lemma sample_global_state_references :
  @registry_references_owned sample_builtins sample_global_state.
Proof.
  intros p obj Hobj.
  destruct p as [|[|[|p]]]; [| | |discriminate Hobj];
    injection Hobj as <-; vm_compute; lia.
Qed.

Lemma finalize_releases_the_registry_witness :
  exists s' : ecma_state_t,
    @ecma_finalize_builtins sample_builtins sample_global_state = Ok (tt, s') /\
    ecma_builtin_objects s' = replicate 15 None /\
    length (heap s') = length (heap sample_global_state) /\
    (forall (p : ecma_object_ptr) (obj : ecma_object_t),
       heap sample_global_state !! p = Some obj ->
       exists obj' : ecma_object_t,
         heap s' !! p = Some obj' /\
         (object_refs obj' + @registry_references sample_builtins sample_global_state p
          = object_refs obj)%nat /\
         obj' = with_refs (object_refs obj') obj).
Proof.
  apply (@finalize_releases_the_registry sample_builtins sample_global_state).
  - apply registry_wf_check_correct. reflexivity.
  - exact sample_global_state_references.
Defined.

Lemma registry_lifecycle_witness :
  exists (p : ecma_object_ptr) (s1 s2 s3 : ecma_state_t) (obj : ecma_object_t),
    @ecma_init_builtins sample_builtins sample_global_state = Ok (tt, s1) /\
    @ecma_builtin_get (sample_build false false) sample_magic_strings sample_builtins
      15 1 s1 = Ok (p, s2) /\
    @ecma_finalize_builtins sample_builtins s2 = Ok (tt, s3) /\
    (forall id' : nat, (id' < 15)%nat -> ecma_builtin_objects s3 !! id' = Some None) /\
    (forall (q : ecma_object_ptr) (o : ecma_object_t),
       heap sample_global_state !! q = Some o -> heap s3 !! q = Some o) /\
    (length (heap sample_global_state) <= p)%nat /\
    heap s3 !! p = Some obj /\
    object_refs obj = 1%nat.
Proof.
  apply (@registry_lifecycle (sample_build false false) sample_magic_strings sample_builtins
           15 1 sample_global_state).
  - reflexivity.
  - simpl. lia.
  - simpl. lia.
Defined.

Lemma try_to_instantiate_property_by_variant_witness :
  @ecma_builtin_try_to_instantiate_property (sample_build false false) sample_magic_strings
    sample_builtins sample_collaborators 15 2 (ECMA_STRING_MAGIC 16) sample_global_state
  = @ecma_builtin_global_try_to_instantiate_property (sample_build false false)
      sample_magic_strings sample_builtins sample_collaborators 15 2 (ECMA_STRING_MAGIC 16)
      sample_global_state.
Proof.
  destruct (@try_to_instantiate_property_by_variant (sample_build false false)
              sample_magic_strings sample_builtins sample_collaborators 15 0 2
              (ECMA_STRING_MAGIC 16) sample_global_state
              (sample_entry 0 ECMA_OBJECT_TYPE_GENERAL 20 2 "global"))
    as [_ Hglobal].
  - apply registry_wf_check_correct. reflexivity.
  - exact sample_global_state_tagged.
  - reflexivity.
  - reflexivity.
  - apply Hglobal. reflexivity.
Defined.

Lemma constructor_call_and_construct_by_variant_witness :
  @ecma_builtin_dispatch_call (sample_build false false) sample_magic_strings sample_builtins
    sample_collaborators 15 3 (ECMA_TYPE_SIMPLE ECMA_SIMPLE_VALUE_UNDEFINED)
    [ECMA_TYPE_NUMBER (ECMA_NUMBER_FINITE 7)] sample_object_state
  = @ecma_builtin_other_dispatch_call sample_collaborators "object"
      [ECMA_TYPE_NUMBER (ECMA_NUMBER_FINITE 7)] sample_object_state /\
  @ecma_builtin_dispatch_construct (sample_build false false) sample_magic_strings
    sample_builtins sample_collaborators 15 3 [ECMA_TYPE_NUMBER (ECMA_NUMBER_FINITE 7)]
    sample_object_state
  = @ecma_builtin_other_dispatch_construct sample_collaborators "object"
      [ECMA_TYPE_NUMBER (ECMA_NUMBER_FINITE 7)] sample_object_state.
Proof.
  apply (@constructor_call_and_construct_by_variant (sample_build false false)
           sample_magic_strings sample_builtins sample_collaborators 15 1 3
           (ECMA_TYPE_SIMPLE ECMA_SIMPLE_VALUE_UNDEFINED)
           [ECMA_TYPE_NUMBER (ECMA_NUMBER_FINITE 7)] sample_object_state
           (sample_entry 1 ECMA_OBJECT_TYPE_FUNCTION 20 4 "object")).
  - apply registry_wf_check_correct. reflexivity.
  - exact sample_object_state_tagged.
  - reflexivity.
  - reflexivity.
  - reflexivity.
Defined.

Lemma plain_builtin_is_not_callable_witness :
  @ecma_builtin_dispatch_call (sample_build false false) sample_magic_strings sample_builtins
    sample_collaborators 15 2 (ECMA_TYPE_SIMPLE ECMA_SIMPLE_VALUE_UNDEFINED) []
    sample_global_state
  = Abort ASSERTION /\
  @ecma_builtin_dispatch_construct (sample_build false false) sample_magic_strings
    sample_builtins sample_collaborators 15 2 [] sample_global_state
  = Abort ASSERTION.
Proof.
  apply (@plain_builtin_is_not_callable (sample_build false false) sample_magic_strings
           sample_builtins sample_collaborators 15 0 2
           (ECMA_TYPE_SIMPLE ECMA_SIMPLE_VALUE_UNDEFINED) [] sample_global_state
           (sample_entry 0 ECMA_OBJECT_TYPE_GENERAL 20 2 "global")).
  - apply registry_wf_check_correct. reflexivity.
  - exact sample_global_state_tagged.
  - reflexivity.
  - reflexivity.
  - discriminate.
  - discriminate.
Defined.

Lemma global_routine_call_reaches_the_dispatcher_witness :
  @ecma_builtin_dispatch_call (sample_build false false) sample_magic_strings sample_builtins
    sample_collaborators 15 4 (ECMA_TYPE_SIMPLE ECMA_SIMPLE_VALUE_UNDEFINED)
    [ECMA_TYPE_NUMBER (ECMA_NUMBER_FINITE 7)] sample_function_state
  = @ecma_builtin_global_dispatch_routine (sample_build false false) sample_magic_strings
      sample_collaborators 38 (ECMA_TYPE_SIMPLE ECMA_SIMPLE_VALUE_UNDEFINED)
      [ECMA_TYPE_NUMBER (ECMA_NUMBER_FINITE 7)] sample_function_state.
Proof.
  apply (@global_routine_call_reaches_the_dispatcher (sample_build false false)
           sample_magic_strings sample_builtins sample_collaborators 15 38
           (ECMA_NUMBER_FINITE 2) 3 4 sample_function_object
           (ECMA_TYPE_SIMPLE ECMA_SIMPLE_VALUE_UNDEFINED)
           [ECMA_TYPE_NUMBER (ECMA_NUMBER_FINITE 7)] sample_function_state
           (sample_entry 0 ECMA_OBJECT_TYPE_GENERAL 20 2 "global")).
  - unfold routine_id_layout_wf. simpl. lia.
  - simpl. lia.
  - reflexivity.
  - reflexivity.
  - simpl. lia.
  - reflexivity.
  - repeat split.
Defined.

Lemma lazy_instantiation_leaves_the_rest_witness :
  exists (prop_p : ecma_property_ptr) (s' : ecma_state_t),
    @ecma_builtin_global_try_to_instantiate_property (sample_build false false)
      sample_magic_strings sample_builtins sample_collaborators
      15 2 (ECMA_STRING_MAGIC 16) sample_global_state
    = Ok (Some prop_p, s') /\
    (forall name : ecma_string_t,
       name <> ECMA_STRING_MAGIC 16 ->
       find_property (KEY_NAMED name) (properties_of s' 2)
       = find_property (KEY_NAMED name) (object_properties sample_global_object)) /\
    (forall index' : nat,
       index' <> 2%nat ->
       is_instantiated (properties_of s' 2) index'
       = is_instantiated (object_properties sample_global_object) index') /\
    (forall (id' : nat) (q : ecma_object_ptr),
       ecma_builtin_objects sample_global_state !! id' = Some (Some q) ->
       ecma_builtin_objects s' !! id' = Some (Some q)).
Proof.
  apply (@lazy_instantiation_leaves_the_rest (sample_build false false) sample_magic_strings
           sample_builtins sample_collaborators 15 2 (ECMA_STRING_MAGIC 16) 16 2 0
           sample_global_state sample_global_object).
  - apply sample_headers_wf.
  - simpl. lia.
  - apply registry_wf_check_correct. reflexivity.
  - exact sample_is_global_object.
  - reflexivity.
  - reflexivity.
  - reflexivity.
  - reflexivity.
  - reflexivity.
  - reflexivity.
  - right. unfold not_implemented_names. simpl. rewrite !not_elem_of_cons.
    repeat split; try lia. apply not_elem_of_nil.
Defined.

Lemma finalize_twice_is_finalize_once_witness :
  exists s' : ecma_state_t,
    @ecma_finalize_builtins sample_builtins sample_global_state = Ok (tt, s') /\
    @ecma_finalize_builtins sample_builtins s' = Ok (tt, s').
Proof.
  apply (@finalize_twice_is_finalize_once sample_builtins sample_global_state).
  apply registry_wf_check_correct. reflexivity.
Defined.

Lemma global_table_fits_the_bitmask_witness :
  (5 >=? 0) && (to_uint32 5 <? 32) = true /\
  to_uint32 (Z.shiftl 1 5) = 2 ^ 5 /\
  0 < 2 ^ 5 < 2 ^ 32 /\
  forall index' : Z,
    0 <= index'
    < @ecma_builtin_global_property_number (sample_build false false) sample_magic_strings ->
    index' <> 5 ->
    Z.land (to_uint32 (Z.shiftl 1 5)) (to_uint32 (Z.shiftl 1 index')) = 0.
Proof.
  apply (@global_table_fits_the_bitmask (sample_build false false) sample_magic_strings 5).
  unfold ecma_builtin_global_property_number. simpl. lia.
Defined.

Lemma first_lookup_on_the_global_object_witness :
  exists (obj_p : ecma_object_ptr) (s1 s2 : ecma_state_t),
    @ecma_builtin_get (sample_build false false) sample_magic_strings sample_builtins
      15 0 sample_state = Ok (obj_p, s1) /\
    @ecma_builtin_try_to_instantiate_property (sample_build false false) sample_magic_strings
      sample_builtins sample_collaborators 15 obj_p (ECMA_STRING_MAGIC 16) s1
    = Ok (Some {| property_owner := obj_p;
                  property_ptr_key := KEY_NAMED (ECMA_STRING_MAGIC 16) |}, s2) /\
    length (named_properties (ECMA_STRING_MAGIC 16) (properties_of s2 obj_p)) = 1%nat /\
    (forall index' : nat,
       is_instantiated (properties_of s2 obj_p) index' = bool_decide (index' = 2%nat)).
Proof.
  apply (@first_lookup_on_the_global_object (sample_build false false) sample_magic_strings
           sample_builtins sample_collaborators 15 (ECMA_STRING_MAGIC 16) 16 2 sample_state
           (sample_entry 0 ECMA_OBJECT_TYPE_GENERAL 20 2 "global")).
  - apply sample_headers_wf.
  - simpl. lia.
  - apply registry_wf_check_correct. reflexivity.
  - exact sample_state_tagged.
  - reflexivity.
  - reflexivity.
  - reflexivity.
  - reflexivity.
  - reflexivity.
  - right. unfold not_implemented_names. simpl. rewrite !not_elem_of_cons.
    repeat split; try lia. apply not_elem_of_nil.
Defined.

Lemma made_function_object_calls_its_routine_witness :
  exists (func_obj_p : ecma_object_ptr) (s' : ecma_state_t) (func : ecma_object_t)
         (prototype_obj_p : ecma_object_ptr),
    @ecma_builtin_make_function_object_for_routine (sample_build false false)
      sample_magic_strings sample_builtins 15 13 38 (ECMA_NUMBER_FINITE 2) sample_global_state
    = Ok (func_obj_p, s') /\
    (length (heap sample_global_state) <= func_obj_p)%nat /\
    heap s' !! func_obj_p = Some func /\
    ecma_builtin_objects s' !! 4%nat = Some (Some prototype_obj_p) /\
    @routine_function_object sample_magic_strings sample_builtins 13 38 (ECMA_NUMBER_FINITE 2)
      prototype_obj_p func /\
    forall (this_arg_value : ecma_value_t) (arguments_list : list ecma_value_t),
      @ecma_builtin_dispatch_call (sample_build false false) sample_magic_strings
        sample_builtins sample_collaborators 15 func_obj_p this_arg_value arguments_list s'
      = @ecma_builtin_dispatch_routine (sample_build false false) sample_magic_strings
          sample_builtins sample_collaborators 13 38 this_arg_value arguments_list s'.
Proof.
  apply (@made_function_object_calls_its_routine (sample_build false false)
           sample_magic_strings sample_builtins sample_collaborators 15 13 38
           (ECMA_NUMBER_FINITE 2) sample_global_state).
  - reflexivity.
  - simpl. lia.
  - simpl. lia.
  - unfold routine_id_layout_wf. simpl. lia.
  - simpl. lia.
  - simpl. lia.
  - apply registry_wf_check_correct. reflexivity.
Defined.
